(** * Quick-add parser of calendar-api ([parseQuickText], google-calendar.js)

    A shallow embedding of the free-text scheduling parser and of the
    JavaScript built-ins it calls (strings of UTF-16 code units, the
    backtracking regular expressions, [Date]), followed by the properties
    of the parser.

    Conventions.
    - A JavaScript string is the list of its UTF-16 code units, each a [Z].
    - The numbers that the parser makes itself (digits read, fields of
      dates, time values) are integers or NaN: [option Z], [None] for
      NaN; they are exact as doubles in the range of [Date].
    - The default duration, handed in by the caller, is any Number, a
      binary64: [JSNumber.number], a whole number or a double of
      [SpecFloat] (NaN, the infinities, minus zero, numbers with a
      fraction).
    - A [Date] is its time value (milliseconds since the epoch, UTC) or
      NaN for an invalid date.
    - The host is what the parser reads without being handed it: the
      system clock and the offset of its local time zone.  The offset is a
      constant of the host (a zone without daylight-saving changes). *)

From Stdlib Require Import String Ascii.
From Stdlib Require Import ZArith List Lia Bool.
From Stdlib Require Import SpecFloat.
Import ListNotations.
Open Scope Z_scope.

(** ** Strings *)

Definition jsstring := list Z.

Definition code (a : ascii) : Z := Z.of_N (N_of_ascii a).

(** An ASCII literal as a JavaScript string. *)
Definition str (s : string) : jsstring := map code (list_ascii_of_string s).

(** ü, U+00FC, one code unit. *)
Definition u_uml : Z := 252.

Definition isEmpty (s : jsstring) : bool :=
  match s with [] => true | _ => false end.

Definition between (lo hi c : Z) : bool := (lo <=? c) && (c <=? hi).

(** [\d] *)
Definition isDigit (c : Z) : bool := between 48 57 c.

(** [\w] without the u flag: [A-Za-z0-9_]. *)
Definition isWord (c : Z) : bool :=
  between 97 122 c || between 65 90 c || between 48 57 c || (c =? 95).

(** [\s], and what [trim] removes: WhiteSpace and LineTerminator. *)
Definition isSpace (c : Z) : bool :=
  between 9 13 c || (c =? 32) || (c =? 160) || (c =? 5760)
  || between 8192 8202 c || (c =? 8232) || (c =? 8233) || (c =? 8239)
  || (c =? 8287) || (c =? 12288) || (c =? 65279).

Fixpoint trimStart (s : jsstring) : jsstring :=
  match s with
  | c :: s' => if isSpace c then trimStart s' else s
  | [] => []
  end.

Definition trimEnd (s : jsstring) : jsstring := rev (trimStart (rev s)).

Definition trim (s : jsstring) : jsstring := trimEnd (trimStart s).

(** [String.prototype.toLowerCase], one code unit at a time.  The table
    lists every code unit whose image has a code unit below U+0100; the
    others are mapped to code units from U+0100 on, which no pattern of
    this file tells apart, and are left as they are. *)
Definition lowerUnit (c : Z) : jsstring :=
  if between 65 90 c then [c + 32]
  else if between 192 222 c && negb (c =? 215) then [c + 32]
  else if c =? 304 then [105; 775]
  else if c =? 376 then [255]
  else if c =? 7838 then [223]
  else if c =? 8490 then [107]
  else if c =? 8491 then [229]
  else [c].

Definition toLowerCase (s : jsstring) : jsstring := flat_map lowerUnit s.

(** Canonicalize of a pattern with the i flag and without the u flag: the
    upper-case image when it is one code unit, except that a code unit
    from U+0080 on never becomes ASCII.  Exact on U+0000..U+00FF; no code
    unit above has an image in that range. *)
Definition canonicalize (c : Z) : Z :=
  if between 97 122 c then c - 32
  else if c =? 181 then 924
  else if between 224 254 c && negb (c =? 247) then c - 32
  else if c =? 255 then 376
  else c.

(** [parseInt(s, 10)]: leading white space, an optional sign, then the
    longest run of decimal digits; NaN when that run is empty. *)
Fixpoint digitsValue (acc : Z) (s : jsstring) : Z :=
  match s with
  | c :: s' => if isDigit c then digitsValue (10 * acc + (c - 48)) s' else acc
  | [] => acc
  end.

Definition startsWithDigit (s : jsstring) : bool :=
  match s with c :: _ => isDigit c | [] => false end.

Definition parseInt (s : jsstring) : option Z :=
  let s := trimStart s in
  let '(sign, s) :=
    match s with
    | c :: s' =>
        if c =? 45 then (-1, s') else if c =? 43 then (1, s') else (1, s)
    | [] => (1, s)
    end in
  if startsWithDigit s then Some (sign * digitsValue 0 s) else None.

(** A run of [lo] to [hi] decimal digits. *)
Definition digitString (lo hi : nat) (s : jsstring) : Prop :=
  Forall (fun c => isDigit c = true) s /\ (lo <= length s <= hi)%nat.

(** ** Regular expressions

    The backtracking matcher of ECMAScript, for the constructs the
    parser's patterns use.  A position is the code unit before it ([None]
    at the start of the input) and the input from it on. *)
Module RegExp.

Inductive regex : Type :=
| Eps                                            (* empty pattern *)
| Chr (p : Z -> bool)                            (* one code unit of a class *)
| Rep (p : Z -> bool) (lo : nat) (hi : option nat) (* greedy class{lo,hi} *)
| Seq (r1 r2 : regex)
| Alt (r1 r2 : regex)                            (* r1|r2, r1 tried first *)
| Grp (i : nat) (r : regex)                      (* capturing group i *)
| Bol                                            (* ^ *)
| Eol                                            (* $ *)
| WordB.                                         (* \b *)

Definition captures := list (nat * jsstring).

Definition isWordAt (c : option Z) : bool :=
  match c with Some c => isWord c | None => false end.

Definition orElse {R} (a b : option R) : option R :=
  match a with Some x => Some x | None => b end.

Definition belowMax (n : nat) (hi : option nat) : bool :=
  match hi with Some h => Nat.ltb n h | None => true end.

(** Greedy repetition of a class, [n] code units taken so far: one more
    when allowed, and on failure of what follows, stop here. *)
Fixpoint rep {R} (p : Z -> bool) (lo : nat) (hi : option nat) (n : nat)
    (prev : option Z) (s : jsstring)
    (k : option Z -> jsstring -> option R) : option R :=
  let stop := if Nat.leb lo n then k prev s else None in
  match s with
  | c :: s' =>
      if p c && belowMax n hi
      then orElse (rep p lo hi (S n) (Some c) s' k) stop
      else stop
  | [] => stop
  end.

(** [consumed s s'] is the part of [s] before its suffix [s']. *)
Definition consumed (s s' : jsstring) : jsstring :=
  firstn (length s - length s') s.

Fixpoint rmatch {R} (r : regex) (prev : option Z) (s : jsstring)
    (caps : captures)
    (k : option Z -> jsstring -> captures -> option R) : option R :=
  match r with
  | Eps => k prev s caps
  | Chr p =>
      match s with
      | c :: s' => if p c then k (Some c) s' caps else None
      | [] => None
      end
  | Rep p lo hi => rep p lo hi 0 prev s (fun prev' s' => k prev' s' caps)
  | Seq r1 r2 =>
      rmatch r1 prev s caps (fun prev' s' caps' => rmatch r2 prev' s' caps' k)
  | Alt r1 r2 => orElse (rmatch r1 prev s caps k) (rmatch r2 prev s caps k)
  | Grp i r1 =>
      rmatch r1 prev s caps
        (fun prev' s' caps' => k prev' s' ((i, consumed s s') :: caps'))
  | Bol => match prev with None => k prev s caps | Some _ => None end
  | Eol => match s with [] => k prev s caps | _ :: _ => None end
  | WordB =>
      if xorb (isWordAt prev) (isWordAt (hd_error s))
      then k prev s caps else None
  end.

(** A match at the current position: the input after it, the code unit
    before that, and the captures. *)
Definition matchHere (r : regex) (prev : option Z) (s : jsstring)
  : option (option Z * jsstring * captures) :=
  rmatch r prev s [] (fun prev' s' caps => Some (prev', s', caps)).

Record MatchResult := {
  index : nat;          (* where the match starts *)
  matched : jsstring;   (* m[0] *)
  groups : captures;
  rest : jsstring       (* the input after the match *)
}.

(** The leftmost match. *)
Fixpoint search (r : regex) (prev : option Z) (s : jsstring) (idx : nat)
  : option MatchResult :=
  match matchHere r prev s with
  | Some (_, s', caps) =>
      Some {| index := idx; matched := consumed s s';
              groups := caps; rest := s' |}
  | None =>
      match s with
      | c :: s' => search r (Some c) s' (S idx)
      | [] => None
      end
  end.

(** [s.match(r)] for [r] without the g flag. *)
Definition match_ (r : regex) (s : jsstring) : option MatchResult :=
  search r None s 0.

(** [r.test(s)] *)
Definition test (r : regex) (s : jsstring) : bool :=
  match match_ r s with Some _ => true | None => false end.

(** [m[i]], undefined when group [i] took no part in the match. *)
Fixpoint lookup (i : nat) (caps : captures) : option jsstring :=
  match caps with
  | (j, v) :: caps' => if Nat.eqb i j then Some v else lookup i caps'
  | [] => None
  end.

Definition group (m : MatchResult) (i : nat) : option jsstring :=
  lookup i (groups m).

(** [s.replace(r, by)] for [r] with the g flag.  [skip] code units of the
    last match are still to be passed over.  After an empty match the
    next code unit is copied. *)
Fixpoint replaceFrom (r : regex) (by_ : jsstring) (prev : option Z)
    (s : jsstring) (skip : nat) : jsstring :=
  match skip, s with
  | S n, c :: s' => replaceFrom r by_ (Some c) s' n
  | S _, [] => []
  | O, _ =>
      match matchHere r prev s with
      | Some (_, rest', _) =>
          match length s - length rest', s with
          | S n, c :: s' => by_ ++ replaceFrom r by_ (Some c) s' n
          | O, c :: s' => by_ ++ c :: replaceFrom r by_ (Some c) s' O
          | _, [] => by_
          end
      | None =>
          match s with
          | c :: s' => c :: replaceFrom r by_ (Some c) s' O
          | [] => []
          end
      end
  end%nat.

Definition replaceAll (r : regex) (by_ : jsstring) (s : jsstring) : jsstring :=
  replaceFrom r by_ None s 0.

(** [s.replace(r, by)] for [r] without the g flag: the first match only. *)
Definition replaceFirst (r : regex) (by_ : jsstring) (s : jsstring) : jsstring :=
  match match_ r s with
  | Some m => firstn (index m) s ++ by_ ++ rest m
  | None => s
  end.

(** What the matcher computes, as a relation: [matches r prev s caps
    prev' s' caps'] when [r] matches from the position [(prev, s)] to
    the position [(prev', s')] and takes the captures from [caps] to
    [caps'].  [RegExpFacts.rmatch_sound] relates the two. *)
Definition lastOr (prev : option Z) (pre : jsstring) : option Z :=
  last (map Some pre) prev.

Definition withinMax (n : nat) (hi : option nat) : Prop :=
  match hi with Some h => (n <= h)%nat | None => True end.

Inductive matches :
  regex -> option Z -> jsstring -> captures ->
  option Z -> jsstring -> captures -> Prop :=
| M_Eps prev s caps : matches Eps prev s caps prev s caps
| M_Chr p c prev s caps :
    p c = true -> matches (Chr p) prev (c :: s) caps (Some c) s caps
| M_Rep p lo hi prev pre s caps :
    Forall (fun c => p c = true) pre ->
    (lo <= length pre)%nat -> withinMax (length pre) hi ->
    matches (Rep p lo hi) prev (pre ++ s) caps (lastOr prev pre) s caps
| M_Seq r1 r2 p0 s0 c0 p1 s1 c1 p2 s2 c2 :
    matches r1 p0 s0 c0 p1 s1 c1 -> matches r2 p1 s1 c1 p2 s2 c2 ->
    matches (Seq r1 r2) p0 s0 c0 p2 s2 c2
| M_AltL r1 r2 p0 s0 c0 p1 s1 c1 :
    matches r1 p0 s0 c0 p1 s1 c1 -> matches (Alt r1 r2) p0 s0 c0 p1 s1 c1
| M_AltR r1 r2 p0 s0 c0 p1 s1 c1 :
    matches r2 p0 s0 c0 p1 s1 c1 -> matches (Alt r1 r2) p0 s0 c0 p1 s1 c1
| M_Grp i r p0 s0 c0 p1 s1 c1 :
    matches r p0 s0 c0 p1 s1 c1 ->
    matches (Grp i r) p0 s0 c0 p1 s1 ((i, consumed s0 s1) :: c1)
| M_Bol s caps : matches Bol None s caps None s caps
| M_Eol prev caps : matches Eol prev [] caps prev [] caps
| M_WordB prev s caps :
    xorb (isWordAt prev) (isWordAt (hd_error s)) = true ->
    matches WordB prev s caps prev s caps.

(** Pattern building blocks. *)
Definition lit (c : Z) : Z -> bool := fun x => x =? c.

(** A pattern character under the i flag. *)
Definition ci (c : Z) : Z -> bool := fun x => canonicalize x =? canonicalize c.

Fixpoint seq (rs : list regex) : regex :=
  match rs with
  | [] => Eps
  | [r] => r
  | r :: rs' => Seq r (seq rs')
  end.

(** A literal word under the i flag. *)
Definition word (w : jsstring) : regex := seq (map (fun c => Chr (ci c)) w).

(** [r?] *)
Definition opt (r : regex) : regex := Alt r Eps.

Definition digits (lo hi : nat) : regex := Rep isDigit lo (Some hi).
Definition spaces0 : regex := Rep isSpace 0 None.    (* \s* *)
Definition spaces1 : regex := Rep isSpace 1 None.    (* \s+ *)
Definition space : regex := Chr isSpace.             (* \s *)
Definition dot : regex := Chr (lit 46).               (* \. *)
Definition colonOrDot : regex := Chr (fun x => (x =? 58) || (x =? 46)). (* [:.] *)

End RegExp.

(** ** Dates

    The time-value arithmetic of ECMAScript (section "Date Objects"), on
    integers.  [tza] is the offset of local time from UTC in
    milliseconds. *)
Module JSDate.

Definition msPerDay : Z := 86400000.
Definition msPerHour : Z := 3600000.
Definition msPerMinute : Z := 60000.
Definition msPerSecond : Z := 1000.

Definition Day (t : Z) : Z := t / msPerDay.
Definition TimeWithinDay (t : Z) : Z := t mod msPerDay.

Definition DaysInYear (y : Z) : Z :=
  if negb (y mod 4 =? 0) then 365
  else if negb (y mod 100 =? 0) then 366
  else if negb (y mod 400 =? 0) then 365
  else 366.

Definition DayFromYear (y : Z) : Z :=
  365 * (y - 1970) + (y - 1969) / 4 - (y - 1901) / 100 + (y - 1601) / 400.

Definition TimeFromYear (y : Z) : Z := msPerDay * DayFromYear y.

(** The largest year that starts at or before [t] ([YearFromTime_spec]
    below): the year of the mean-length estimate or one of its
    neighbours. *)
Definition YearFromTime (t : Z) : Z :=
  let d := Day t in
  let y := 1970 + (400 * d) / 146097 in
  if DayFromYear (y + 1) <=? d then y + 1
  else if DayFromYear y <=? d then y
  else y - 1.

Definition leap (y : Z) : Z := if DaysInYear y =? 366 then 1 else 0.
Definition InLeapYear (t : Z) : Z := leap (YearFromTime t).
Definition DayWithinYear (t : Z) : Z := Day t - DayFromYear (YearFromTime t).

(** Month (0..11) and day of the month of the day [d] (from 0) of a
    year, [l] being 1 in a leap year. *)
Definition monthOfDay (d l : Z) : Z :=
  if d <? 31 then 0
  else if d <? 59 + l then 1
  else if d <? 90 + l then 2
  else if d <? 120 + l then 3
  else if d <? 151 + l then 4
  else if d <? 181 + l then 5
  else if d <? 212 + l then 6
  else if d <? 243 + l then 7
  else if d <? 273 + l then 8
  else if d <? 304 + l then 9
  else if d <? 334 + l then 10
  else 11.

(** The day of the year (from 0) on which month [m] (0..11) starts. *)
Definition monthStart (m l : Z) : Z :=
  if m =? 0 then 0
  else if m =? 1 then 31
  else if m =? 2 then 59 + l
  else if m =? 3 then 90 + l
  else if m =? 4 then 120 + l
  else if m =? 5 then 151 + l
  else if m =? 6 then 181 + l
  else if m =? 7 then 212 + l
  else if m =? 8 then 243 + l
  else if m =? 9 then 273 + l
  else if m =? 10 then 304 + l
  else 334 + l.

(** The length of month [m] (0..11). *)
Definition daysInMonth (m l : Z) : Z :=
  if m =? 11 then 31 else monthStart (m + 1) l - monthStart m l.

Definition MonthFromTime (t : Z) : Z :=
  monthOfDay (DayWithinYear t) (InLeapYear t).

Definition DateFromTime (t : Z) : Z :=
  DayWithinYear t - monthStart (MonthFromTime t) (InLeapYear t) + 1.

Definition HourFromTime (t : Z) : Z := (t / msPerHour) mod 24.
Definition MinFromTime (t : Z) : Z := (t / msPerMinute) mod 60.
Definition SecFromTime (t : Z) : Z := (t / msPerSecond) mod 60.
Definition msFromTime (t : Z) : Z := t mod msPerSecond.

Definition MakeTime (hour min sec ms : Z) : Z :=
  hour * msPerHour + min * msPerMinute + sec * msPerSecond + ms.

(** The day number of day [date] of month [month] of [year]; months
    outside 0..11 carry into the year, days outside the month carry into
    the neighbouring months. *)
Definition MakeDay (year month date : Z) : Z :=
  let ym := year + month / 12 in
  let mn := month mod 12 in
  DayFromYear ym + monthStart mn (leap ym) + date - 1.

Definition MakeDate (day time : Z) : Z := day * msPerDay + time.

Definition TimeClip (t : Z) : option Z :=
  if Z.abs t <=? 8640000000000000 then Some t else None.

Definition LocalTime (tza t : Z) : Z := t + tza.
Definition UTC (tza t : Z) : Z := t - tza.

(** A Date object is its time value; [None] is the invalid date. *)
Definition Date := option Z.

Definition bind {A B} (x : option A) (f : A -> option B) : option B :=
  match x with Some a => f a | None => None end.

Notation "x <- e ;; k" := (bind e (fun x => k))
  (at level 61, e at next level, right associativity).

(** Addition and subtraction of numbers. *)
Definition plus (a b : option Z) : option Z := x <- a ;; y <- b ;; Some (x + y).
Definition minus (a b : option Z) : option Z := x <- a ;; y <- b ;; Some (x - y).
Definition times (a b : option Z) : option Z := x <- a ;; y <- b ;; Some (x * y).

(** [new Date(year, month, date, hours, minutes, seconds, ms)] *)
Definition construct (tza : Z) (year month date hours minutes seconds ms : option Z)
  : Date :=
  y <- year ;; m <- month ;; dt <- date ;;
  h <- hours ;; mi <- minutes ;; s <- seconds ;; milli <- ms ;;
  let yr := if (0 <=? y) && (y <=? 99) then 1900 + y else y in
  TimeClip (UTC tza (MakeDate (MakeDay yr m dt) (MakeTime h mi s milli))).

Definition getFullYear (tza : Z) (d : Date) : option Z :=
  t <- d ;; Some (YearFromTime (LocalTime tza t)).
Definition getMonth (tza : Z) (d : Date) : option Z :=
  t <- d ;; Some (MonthFromTime (LocalTime tza t)).
Definition getDate (tza : Z) (d : Date) : option Z :=
  t <- d ;; Some (DateFromTime (LocalTime tza t)).
Definition getHours (tza : Z) (d : Date) : option Z :=
  t <- d ;; Some (HourFromTime (LocalTime tza t)).
Definition getMinutes (tza : Z) (d : Date) : option Z :=
  t <- d ;; Some (MinFromTime (LocalTime tza t)).
Definition getSeconds (tza : Z) (d : Date) : option Z :=
  t <- d ;; Some (SecFromTime (LocalTime tza t)).

(** [d.setSeconds(sec, ms)] *)
Definition setSeconds (tza : Z) (d : Date) (sec ms : option Z) : Date :=
  t <- d ;; s <- sec ;; milli <- ms ;;
  let t := LocalTime tza t in
  TimeClip (UTC tza
    (MakeDate (Day t) (MakeTime (HourFromTime t) (MinFromTime t) s milli))).

(** [d.setDate(date)] *)
Definition setDate (tza : Z) (d : Date) (date : option Z) : Date :=
  t <- d ;; dt <- date ;;
  let t := LocalTime tza t in
  TimeClip (UTC tza
    (MakeDate (MakeDay (YearFromTime t) (MonthFromTime t) dt) (TimeWithinDay t))).

(** [d.setHours(hour, min, sec, ms)] *)
Definition setHours (tza : Z) (d : Date) (hour min sec ms : option Z) : Date :=
  t <- d ;; h <- hour ;; m <- min ;; s <- sec ;; milli <- ms ;;
  let t := LocalTime tza t in
  TimeClip (UTC tza (MakeDate (Day t) (MakeTime h m s milli))).

(** [d.setMinutes(min)], [min] being the integer of the argument
    ([JSNumber.truncate]), [None] when the argument is not finite. *)
Definition setMinutes (tza : Z) (d : Date) (min : option Z) : Date :=
  t <- d ;; m <- min ;;
  let t := LocalTime tza t in
  TimeClip (UTC tza
    (MakeDate (Day t) (MakeTime (HourFromTime t) m (SecFromTime t) (msFromTime t)))).

(** What [formatLocalDateTime] reads of a date: year, month (1..12),
    day, hour, minute, second, in local time. *)
Definition fields (tza : Z) (d : Date) : option (Z * Z * Z * Z * Z * Z) :=
  yyyy <- getFullYear tza d ;; mm <- getMonth tza d ;; dd <- getDate tza d ;;
  hh <- getHours tza d ;; mi <- getMinutes tza d ;; ss <- getSeconds tza d ;;
  Some (yyyy, mm + 1, dd, hh, mi, ss).

(** The time value of a local calendar date and time of day. *)
Definition at_ (tza year month date hour minute : Z) : Z :=
  UTC tza (MakeDate (MakeDay year (month - 1) date) (MakeTime hour minute 0 0)).

End JSDate.

(** ** Numbers

    A Number is a binary64.  [Whole z] is the whole number [z], of at
    most 2^53 in size, where every whole number is a double and sums of
    whole numbers are exact; [Double f] is any other double, in the
    representation of [SpecFloat] with 53 bits of precision: NaN, the
    infinities, minus zero, the numbers with a fraction and the whole
    numbers beyond 2^53.  Sums are rounded to the nearest double, ties
    to even. *)
Module JSNumber.

Definition prec : Z := 53.
Definition emax : Z := 1024.

Inductive number :=
| Whole (z : Z)
| Double (f : spec_float).

Definition NaN : number := Double S754_nan.

Definition safe (z : Z) : bool := Z.abs z <=? 2 ^ 53.

(** The double nearest to a whole number. *)
Definition nearest (z : Z) : spec_float :=
  binary_normalize prec emax z 0 false.

Definition toDouble (x : number) : spec_float :=
  match x with
  | Whole z => nearest z
  | Double f => f
  end.

(** The whole number that a double is, when it is one (minus zero is
    kept as a double). *)
Definition wholeOf (f : spec_float) : option Z :=
  match f with
  | S754_zero false => Some 0
  | S754_finite s m e =>
      let v :=
        if 0 <=? e then Some (Zpos m * 2 ^ e)
        else if Zpos m mod 2 ^ (- e) =? 0 then Some (Zpos m / 2 ^ (- e))
        else None in
      option_map (fun v => if s then - v else v) v
  | _ => None
  end.

Definition ofDouble (f : spec_float) : number :=
  match wholeOf f with
  | Some z => if safe z then Whole z else Double f
  | None => Double f
  end.

(** [x + y]: the sum of two whole numbers is their sum when that is of
    at most 2^53 in size, and the double nearest to it when it is not;
    every other sum is the sum of [SpecFloat]. *)
Definition add (x y : number) : number :=
  match x, y with
  | Whole a, Whole b =>
      if safe (a + b) then Whole (a + b) else Double (nearest (a + b))
  | _, _ => ofDouble (SFadd prec emax (toDouble x) (toDouble y))
  end.

(** [x > y] *)
Definition gt (x y : number) : bool :=
  match x, y with
  | Whole a, Whole b => b <? a
  | _, _ => SFltb (toDouble y) (toDouble x)
  end.

(** The integer that [setMinutes] makes of its argument
    (ToIntegerOrInfinity): the number without its fraction.  [None] for
    NaN and the infinities, with which the date becomes invalid. *)
Definition truncate (x : number) : option Z :=
  match x with
  | Whole z => Some z
  | Double (S754_zero _) => Some 0
  | Double (S754_finite s m e) =>
      let v := if 0 <=? e then Zpos m * 2 ^ e else Zpos m / 2 ^ (- e) in
      Some (if s then - v else v)
  | Double (S754_infinity _) | Double S754_nan => None
  end.

(** A number of the date arithmetic as a Number. *)
Definition ofInteger (n : option Z) : number :=
  match n with
  | Some z => Whole z
  | None => NaN
  end.

(** The double nearest to [m / 2 ^ k]. *)
Definition fraction (m k : Z) : number :=
  ofDouble (binary_normalize prec emax m (- k) false).

(** The sum of two whole numbers by the addition of [SpecFloat]; it is
    the sum above on the minutes of a date and the durations of the
    tokens ([NumberFacts.add_whole_agrees]). *)
Definition sumAgrees (a b : Z) : bool :=
  match ofDouble (SFadd prec emax (nearest a) (nearest b)) with
  | Whole z => z =? a + b
  | Double _ => false
  end.

(** The whole numbers from 0 to [n]. *)
Definition upTo (n : nat) : list Z := map Z.of_nat (seq 0 (S n)).

End JSNumber.

Coercion JSNumber.Whole : Z >-> JSNumber.number.

(** ** The parser *)

Import RegExp.

(** What the parser reads from its environment: [new Date()] returns the
    time value [clock], and local time is UTC plus [LocalTZA]. *)
Record Host := { LocalTZA : Z; clock : Z }.

(** [{ ok: true, title, start, end, minutes }] *)
Record Parsed := {
  title : jsstring;
  start : JSDate.Date;
  end_ : JSDate.Date;
  minutes : JSNumber.number
}.

(** [{ ok: false, message }] or a parsed proposal. *)
Inductive Result :=
| Failed (message : jsstring)
| Ok (p : Parsed).

Definition clampInt (n : option Z) (a b : Z) : Z :=
  match n with
  | None => a
  | Some n => Z.max a (Z.min b n)
  end.

(** [parseInt(m[i], 10)] *)
Definition parseGroup (m : MatchResult) (i : nat) : option Z :=
  match group m i with
  | Some s => parseInt s
  | None => None
  end.

Definition uebermorgen : jsstring := u_uml :: str "bermorgen".

(** [/(\d{1,3})\s*min\b/i] *)
Definition re_durMin : regex :=
  seq [Grp 1 (digits 1 3); spaces0; word (str "min"); WordB].
(** [/(\d{1,2})\s*h\b/i] *)
Definition re_durH : regex :=
  seq [Grp 1 (digits 1 2); spaces0; word (str "h"); WordB].
(** [/\bübermorgen\b/i], [/\bmorgen\b/i], [/\bheute\b/i] *)
Definition re_uebermorgen : regex := seq [WordB; word uebermorgen; WordB].
Definition re_morgen : regex := seq [WordB; word (str "morgen"); WordB].
Definition re_heute : regex := seq [WordB; word (str "heute"); WordB].
(** [/\b(\d{1,2})\.(\d{1,2})(?:\.(\d{2,4}))?\b/] *)
Definition re_dm : regex :=
  seq [WordB; Grp 1 (digits 1 2); dot; Grp 2 (digits 1 2);
       opt (Seq dot (Grp 3 (digits 2 4))); WordB].
(** [/\b(\d{1,2})[:.](\d{2})\b/] *)
Definition re_time : regex :=
  seq [WordB; Grp 1 (digits 1 2); colonOrDot; Grp 2 (digits 2 2); WordB].
(** [/(?:^|\s)(\d{1,2})(?:\s|$)/] *)
Definition re_hourOnly : regex :=
  seq [Alt Bol space; Grp 1 (digits 1 2); Alt space Eol].

(** The patterns the title is stripped with, in the order of use. *)
(** [/\b(heute|morgen|übermorgen)\b/gi] *)
Definition strip_keyword : regex :=
  seq [WordB;
       Grp 1 (Alt (word (str "heute")) (Alt (word (str "morgen")) (word uebermorgen)));
       WordB].
(** [/\b\d{1,2}\.\d{1,2}(?:\.\d{2,4})?\b/g] *)
Definition strip_date : regex :=
  seq [WordB; digits 1 2; dot; digits 1 2; opt (Seq dot (digits 2 4)); WordB].
(** [/\b\d{1,2}[:.]\d{2}\b/g] *)
Definition strip_time : regex :=
  seq [WordB; digits 1 2; colonOrDot; digits 2 2; WordB].
(** [/\b\d{1,3}\s*min\b/gi] *)
Definition strip_min : regex :=
  seq [WordB; digits 1 3; spaces0; word (str "min"); WordB].
(** [/\b\d{1,2}\s*h\b/gi] *)
Definition strip_h : regex :=
  seq [WordB; digits 1 2; spaces0; word (str "h"); WordB].
(** [/(?:^|\s)\d{1,2}(?:\s|$)/] *)
Definition strip_hourOnly : regex :=
  seq [Alt Bol space; digits 1 2; Alt space Eol].

(** The duration: the default, then the minute token, then the hour
    token, each assignment overwriting the one before. *)
Definition duration (raw : jsstring) (defaultMinutes : JSNumber.number)
  : JSNumber.number :=
  let minutes : JSNumber.number :=
    if JSNumber.gt defaultMinutes 0 then defaultMinutes else 60 in
  let durMinMatch := match_ re_durMin raw in
  let durHMatch := match_ re_durH raw in
  let minutes : JSNumber.number :=
    match durMinMatch with
    | Some m => clampInt (parseGroup m 1) 5 (12 * 60)
    | None => minutes
    end in
  let minutes : JSNumber.number :=
    match durHMatch with
    | Some m => clampInt (JSDate.times (parseGroup m 1) (Some 60)) 5 (12 * 60)
    | None => minutes
    end in
  minutes.

(** The year of a numeric date: its third group when it has one, else
    the year of the clock; below 100 it is taken in the 2000s. *)
Definition yearOf (tza : Z) (now : JSDate.Date) (dm : MatchResult) : option Z :=
  let yyyy :=
    match group dm 3 with
    | Some (_ :: _) => parseGroup dm 3
    | _ => JSDate.getFullYear tza now
    end in
  match yyyy with
  | Some y => if y <? 100 then Some (y + 2000) else Some y
  | None => None
  end.

(** The day: the clock with seconds and milliseconds cleared, moved by
    the first of übermorgen, morgen, heute that is found, else replaced
    by the numeric date.  (The flag hasExplicitDate of the source is
    written and never read.) *)
Definition dayOf (h : Host) (raw : jsstring) : JSDate.Date :=
  let tza := LocalTZA h in
  let now : JSDate.Date := Some (clock h) in
  let day := now in
  let day := JSDate.setSeconds tza day (Some 0) (Some 0) in
  let lower := toLowerCase raw in
  if test re_uebermorgen lower then
    JSDate.setDate tza day (JSDate.plus (JSDate.getDate tza day) (Some 2))
  else if test re_morgen lower then
    JSDate.setDate tza day (JSDate.plus (JSDate.getDate tza day) (Some 1))
  else if test re_heute lower then
    day
  else
    match match_ re_dm raw with
    | Some dm =>
        let dd := parseGroup dm 1 in
        let mm := parseGroup dm 2 in
        let yyyy := yearOf tza now dm in
        JSDate.construct tza yyyy (JSDate.minus mm (Some 1)) dd
          (JSDate.getHours tza day) (JSDate.getMinutes tza day) (Some 0) (Some 0)
    | None => day
    end.

(** The time of day, hour and minute: HH:MM or HH.MM, else a bare number
    as the hour, else 09:00. *)
Definition timeOf (raw : jsstring) : Z * Z :=
  let hh := 9 in
  let min := 0 in
  match match_ re_time raw with
  | Some timeMatch =>
      (clampInt (parseGroup timeMatch 1) 0 23,
       clampInt (parseGroup timeMatch 2) 0 59)
  | None =>
      match match_ re_hourOnly raw with
      | Some hourOnlyMatch => (clampInt (parseGroup hourOnlyMatch 1) 0 23, 0)
      | None => (hh, min)
      end
  end.

(** The title: the trimmed input with the token patterns removed. *)
Definition titleOf (raw : jsstring) : jsstring :=
  let title := raw in
  let title := trim (replaceAll strip_keyword [] title) in
  let title := trim (replaceAll strip_date [] title) in
  let title := trim (replaceAll strip_time [] title) in
  let title := trim (replaceAll strip_min [] title) in
  let title := trim (replaceAll strip_h [] title) in
  let title :=
    replaceAll spaces1 (str " ")
      (trim (replaceFirst strip_hourOnly (str " ") title)) in
  if isEmpty title then str "Termin" else title.

Definition parseQuickText (h : Host) (input : jsstring)
    (defaultMinutes : JSNumber.number) : Result :=
  let raw := trim input in
  if isEmpty raw then Failed (str "text fehlt") else
  let minutes := duration raw defaultMinutes in
  let day := dayOf h raw in
  let '(hh, min) := timeOf raw in
  let start := day in
  let start :=
    JSDate.setHours (LocalTZA h) start (Some hh) (Some min) (Some 0) (Some 0) in
  let end_ := start in
  let end_ :=
    JSDate.setMinutes (LocalTZA h) end_
      (JSNumber.truncate
         (JSNumber.add
            (JSNumber.ofInteger (JSDate.getMinutes (LocalTZA h) end_))
            minutes)) in
  let title := titleOf raw in
  Ok {| title := title; start := start; end_ := end_; minutes := minutes |}.

(** A call that hands over a reference clock as a third argument,
    [parseQuickText(text, defaultMinutes, now)]: the function declares
    two parameters and never reads [arguments], so the third argument is
    dropped. *)
Definition parseQuickText_with_now (h : Host) (input : jsstring)
    (defaultMinutes : JSNumber.number) (now : JSDate.Date) : Result :=
  parseQuickText h input defaultMinutes.

(** [formatLocalDateTime]'s view of a result: title, the local fields of
    start and end, and the minutes. *)
Definition view (h : Host) (r : Result) :=
  match r with
  | Ok p => Some (title p, JSDate.fields (LocalTZA h) (start p),
                  JSDate.fields (LocalTZA h) (end_ p), minutes p)
  | Failed _ => None
  end.

(** A host whose clock shows the given local date and time. *)
Definition hostAt (tza year month date hour minute : Z) : Host :=
  {| LocalTZA := tza; clock := JSDate.at_ tza year month date hour minute |}.

Definition cet : Z := 3600000.

(** The host of the examples: Central European Time, 2026-01-01 10:30. *)
Definition host2026 : Host := hostAt cet 2026 1 1 10 30.

(** * The rest of the server

    The functions around the parser: [formatLocalDateTime],
    [escapeHtml], the API-key check, the configuration with the OAuth
    URL, and the calls of the calendar API.  The file system and the
    googleapis library come in as what they answer. *)

(** ** Numbers as strings *)

(** The decimal digits of [n >= 0] in front of [acc], lowest digit
    first; [fuel] bounds the number of digits. *)
Fixpoint digitsFrom (fuel : nat) (n : Z) (acc : jsstring) : jsstring :=
  match fuel with
  | O => acc
  | S fuel' =>
      let acc' := (48 + n mod 10) :: acc in
      if n / 10 =? 0 then acc' else digitsFrom fuel' (n / 10) acc'
  end.

(** A number below [2 ^ k] has at most [k] decimal digits. *)
Definition naturalToString (n : Z) : jsstring :=
  digitsFrom (S (Z.to_nat (Z.log2 n))) n [].

(** [String(n)] for an integer or NaN (below 10^21 in size, where
    JavaScript writes all the digits). *)
Definition numberToString (n : option Z) : jsstring :=
  match n with
  | None => str "NaN"
  | Some z => if z <? 0 then 45 :: naturalToString (- z) else naturalToString z
  end.

(** The [k] lowest decimal digits of [n >= 0], highest first. *)
Fixpoint decimalK (k : nat) (n : Z) : jsstring :=
  match k with
  | O => []
  | S k' => decimalK k' (n / 10) ++ [48 + n mod 10]
  end.

(** [s.padStart(maxLength, fill)] *)
Definition padStart (maxLength : nat) (fill s : jsstring) : jsstring :=
  if Nat.leb maxLength (length s) then s
  else if isEmpty fill then s
  else
    firstn (maxLength - length s) (concat (repeat fill (maxLength - length s)))
    ++ s.

(** ** formatLocalDateTime *)

Definition formatLocalDateTime (tza : Z) (d : JSDate.Date) : jsstring :=
  let pad := fun x => padStart 2 (str "0") (numberToString x) in
  let yyyy := JSDate.getFullYear tza d in
  let mm := pad (JSDate.plus (JSDate.getMonth tza d) (Some 1)) in
  let dd := pad (JSDate.getDate tza d) in
  let hh := pad (JSDate.getHours tza d) in
  let mi := pad (JSDate.getMinutes tza d) in
  let ss := pad (JSDate.getSeconds tza d) in
  numberToString yyyy ++ str "-" ++ mm ++ str "-" ++ dd ++ str "T"
  ++ hh ++ str ":" ++ mi ++ str ":" ++ ss.

(** ** escapeHtml *)

Fixpoint isPrefixOf (p s : jsstring) : bool :=
  match p, s with
  | [], _ => true
  | a :: p', b :: s' => (a =? b) && isPrefixOf p' s'
  | _ :: _, [] => false
  end.

(** [s.replaceAll(search, by)] for a string [search] and a replacement
    without [$]: every occurrence from the left, the next one looked for
    after the one before.  [skip] code units of the last occurrence are
    still to be passed over. *)
Fixpoint replaceAllFrom (search by_ s : jsstring) (skip : nat) : jsstring :=
  match skip, s with
  | S n, _ :: s' => replaceAllFrom search by_ s' n
  | S _, [] => []
  | O, [] => if isEmpty search then by_ else []
  | O, c :: s' =>
      if isPrefixOf search s then
        match length search with
        | O => by_ ++ c :: replaceAllFrom search by_ s' O
        | S n => by_ ++ replaceAllFrom search by_ s' n
        end
      else c :: replaceAllFrom search by_ s' O
  end.

Definition replaceAllString (search by_ s : jsstring) : jsstring :=
  replaceAllFrom search by_ s 0.

(** The double quote, U+0022. *)
Definition quot : Z := 34.

(** [escapeHtml(str)], [s] being [String(str)]. *)
Definition escapeHtml (s : jsstring) : jsstring :=
  replaceAllString (str "'") (str "&#039;")
    (replaceAllString [quot] (str "&quot;")
       (replaceAllString (str ">") (str "&gt;")
          (replaceAllString (str "<") (str "&lt;")
             (replaceAllString (str "&") (str "&amp;") s)))).

(** The image of one code unit under [escapeHtml]
    ([escapeHtml_units]). *)
Definition escapeUnit (x : Z) : jsstring :=
  if x =? 38 then str "&amp;"
  else if x =? 60 then str "&lt;"
  else if x =? 62 then str "&gt;"
  else if x =? 34 then str "&quot;"
  else if x =? 39 then str "&#039;"
  else [x].

(** What follows the ampersand in the five entities. *)
Definition entityTails : list jsstring :=
  [str "amp;"; str "lt;"; str "gt;"; str "quot;"; str "#039;"].

(** ** The API key *)

(** A request, by its headers: [req.headers], from lower-case header
    names to values. *)
Record Request := { headers : jsstring -> option jsstring }.

(** Express's [req.header(name)], for a name other than Referer: the
    header of the lower-cased name. *)
Definition header (req : Request) (name : jsstring) : option jsstring :=
  headers req (toLowerCase name).

(** A string or undefined as a condition: undefined and the empty string
    are falsy. *)
Definition truthy (v : option jsstring) : bool :=
  match v with Some (_ :: _) => true | _ => false end.

(** [a || b] *)
Definition or_ (a b : option jsstring) : option jsstring :=
  if truthy a then a else b.

Fixpoint eqbString (a b : jsstring) : bool :=
  match a, b with
  | [], [] => true
  | x :: a', y :: b' => (x =? y) && eqbString a' b'
  | _, _ => false
  end.

(** [/^Bearer\s+/i] *)
Definition re_bearer : regex := seq [Bol; word (str "Bearer"); spaces1].

(** What a middleware does: hand on to the route, or answer. *)
Inductive Handled :=
| Next
| Respond (status : Z) (message : jsstring).

Definition requireApiKey (API_KEY : jsstring) (req : Request) : Handled :=
  if isEmpty API_KEY then Next else
  let key :=
    or_ (header req (str "x-api-key"))
      (or_ (header req (str "X-Api-Key"))
         (option_map (replaceFirst re_bearer [])
            (header req (str "authorization")))) in
  if negb (truthy key)
     || negb (match key with Some k => eqbString k API_KEY | None => false end)
  then Respond 401 (str "Unauthorized")
  else Next.

(** ** The scopes of the OAuth URL *)

(** [s.split(sep)] for a separator of one code unit. *)
Fixpoint splitString (sep : Z) (s : jsstring) : list jsstring :=
  match s with
  | [] => [[]]
  | c :: s' =>
      if c =? sep then [] :: splitString sep s'
      else
        match splitString sep s' with
        | w :: ws => (c :: w) :: ws
        | [] => [[c]]
        end
  end.

(** [GOOGLE_SCOPES.split(" ").filter(Boolean)] *)
Definition scopesOf (GOOGLE_SCOPES : jsstring) : list jsstring :=
  filter (fun w => negb (isEmpty w)) (splitString 32 GOOGLE_SCOPES).

(** ** Values

    A JavaScript value, by what this program does with the values it is
    handed: it tests them for truth and makes strings of them.  Numbers
    are integers (below 10^21 in size) or NaN; an object or an array
    stands with the string that [String] makes of it. *)
Inductive value :=
| VUndefined
| VNull
| VBool (b : bool)
| VNumber (n : option Z)
| VString (s : jsstring)
| VObject (image : jsstring).

Definition toBoolean (v : value) : bool :=
  match v with
  | VUndefined | VNull => false
  | VBool b => b
  | VNumber (Some n) => negb (n =? 0)
  | VNumber None => false
  | VString s => negb (isEmpty s)
  | VObject _ => true
  end.

(** [String(v)] *)
Definition toString (v : value) : jsstring :=
  match v with
  | VUndefined => str "undefined"
  | VNull => str "null"
  | VBool true => str "true"
  | VBool false => str "false"
  | VNumber n => numberToString n
  | VString s => s
  | VObject image => image
  end.

(** [a || b] *)
Definition orValue (a b : value) : value := if toBoolean a then a else b.

(** [a || b] for strings. *)
Definition orString (a b : jsstring) : jsstring := if isEmpty a then b else a.

(** The default of a destructured property. *)
Definition defaultTo (v d : value) : value :=
  match v with VUndefined => d | _ => v end.

(** What a call comes to: it returns, or it throws; of what is thrown
    the program reads the message only. *)
Inductive Outcome (A : Type) :=
| Returned (a : A)
| Thrown (message : value).
Arguments Returned {A} a.
Arguments Thrown {A} message.

(** ** The configuration and the OAuth URL *)

(** [process.env]: the value of a variable, when it is set. *)
Definition Env := jsstring -> option jsstring.

(** A destructuring default: the default when the property is
    undefined. *)
Definition orDefault (v : option jsstring) (d : jsstring) : jsstring :=
  match v with Some s => s | None => d end.

Record GoogleConfig := {
  GOOGLE_CLIENT_ID : jsstring;
  GOOGLE_CLIENT_SECRET : jsstring;
  GOOGLE_REDIRECT_URI : jsstring;
  GOOGLE_SCOPES : jsstring;
  GOOGLE_CALENDAR_ID : jsstring;
  GOOGLE_TIMEZONE : jsstring
}.

Definition getGoogleConfig (env : Env) : GoogleConfig :=
  {| GOOGLE_CLIENT_ID := orDefault (env (str "GOOGLE_CLIENT_ID")) [];
     GOOGLE_CLIENT_SECRET := orDefault (env (str "GOOGLE_CLIENT_SECRET")) [];
     GOOGLE_REDIRECT_URI := orDefault (env (str "GOOGLE_REDIRECT_URI")) [];
     GOOGLE_SCOPES :=
       orDefault (env (str "GOOGLE_SCOPES"))
         (str "https://www.googleapis.com/auth/calendar.events");
     GOOGLE_CALENDAR_ID :=
       orDefault (env (str "GOOGLE_CALENDAR_ID")) (str "primary");
     GOOGLE_TIMEZONE :=
       orDefault (env (str "GOOGLE_TIMEZONE")) (str "Europe/Zurich") |}.

Definition isGoogleConfigured (env : Env) : bool :=
  let cfg := getGoogleConfig env in
  negb (isEmpty (GOOGLE_CLIENT_ID cfg))
  && negb (isEmpty (GOOGLE_CLIENT_SECRET cfg))
  && negb (isEmpty (GOOGLE_REDIRECT_URI cfg)).

(** The OAuth2 client of googleapis, by what it is built from. *)
Record OAuthClient := {
  clientId : jsstring;
  clientSecret : jsstring;
  redirectUri : jsstring
}.

Definition buildOAuthClient (env : Env) : OAuthClient :=
  let cfg := getGoogleConfig env in
  {| clientId := GOOGLE_CLIENT_ID cfg;
     clientSecret := GOOGLE_CLIENT_SECRET cfg;
     redirectUri := GOOGLE_REDIRECT_URI cfg |}.

Record AuthUrlOptions := {
  access_type : jsstring;
  prompt : jsstring;
  scope : list jsstring
}.

(** [{ ok: false, message }] or [{ ok: true, ... }]. *)
Inductive Reply (A : Type) :=
| Refused (message : value)
| Done (a : A).
Arguments Refused {A} message.
Arguments Done {A} a.

(** [getAuthUrl]; [generateAuthUrl] is the method of the library's
    client that writes the URL. *)
Definition getAuthUrl
    (generateAuthUrl : OAuthClient -> AuthUrlOptions -> jsstring)
    (env : Env) : Reply jsstring :=
  if negb (isGoogleConfigured env) then
    Refused
      (VString (str "Google OAuth nicht konfiguriert (Env Vars fehlen)"))
  else
    let cfg := getGoogleConfig env in
    let oauth2 := buildOAuthClient env in
    let url :=
      generateAuthUrl oauth2
        {| access_type := str "offline";
           prompt := str "consent";
           scope := scopesOf (GOOGLE_SCOPES cfg) |} in
    Done url.

(** An environment with the variables listed. *)
Definition envOf (vars : list (jsstring * jsstring)) : Env :=
  fun name =>
    option_map snd (find (fun kv => eqbString (fst kv) name) vars).

(** ** Words

    Words joined by one space each, and a text with every run of white
    space made one space; [afterSpace] says that the code unit before
    was white space. *)
Fixpoint joinWords (words : list jsstring) : jsstring :=
  match words with
  | [] => []
  | [w] => w
  | w :: words' => w ++ 32 :: joinWords words'
  end.

Fixpoint collapseFrom (afterSpace : bool) (s : jsstring) : jsstring :=
  match s with
  | [] => []
  | c :: s' =>
      if isSpace c then
        if afterSpace then collapseFrom true s' else 32 :: collapseFrom true s'
      else c :: collapseFrom false s'
  end.

Fixpoint lastNonSpace (s : jsstring) : bool :=
  match s with
  | [] => false
  | [c] => negb (isSpace c)
  | _ :: s' => lastNonSpace s'
  end.

(** ** Calendar events *)

(** The token file: missing, unreadable (reading or parsing it throws),
    or holding a value. *)
Inductive TokensFile :=
| NoFile
| Unreadable
| Holding (parsed : value).

Definition loadTokens (file : TokensFile) : value :=
  match file with
  | NoFile => VNull
  | Unreadable => VNull
  | Holding parsed => orValue parsed VNull
  end.

(** The client after [setCredentials]. *)
Record AuthedClient := {
  client : OAuthClient;
  credentials : value
}.

Definition getAuthedClient (env : Env) (file : TokensFile)
  : Outcome AuthedClient :=
  if negb (isGoogleConfigured env) then
    Thrown (VString (str "Google OAuth nicht konfiguriert"))
  else
    let tokens := loadTokens file in
    if negb (toBoolean tokens) then
      Thrown (VString (str "Nicht verbunden (keine Tokens gespeichert)"))
    else
      let oauth2 := buildOAuthClient env in
      Returned {| client := oauth2; credentials := tokens |}.

(** The calls of the calendar API that the program makes, with their
    parameters. *)
Module Calendar.

Record EventDateTime := {
  dateTime : jsstring;
  timeZone : jsstring
}.

Record Event := {
  summary : jsstring;
  location : jsstring;
  description : jsstring;
  start : EventDateTime;
  end_ : EventDateTime
}.

Inductive Call :=
| Insert (calendarId : jsstring) (requestBody : Event)
| List (calendarId : jsstring) (timeMin timeMax : jsstring)
    (singleEvents : bool) (orderBy : jsstring)
| Delete (calendarId : jsstring) (eventId : jsstring).

End Calendar.

(** The library: what a call by a client comes to, the [data] of the
    response for an insertion and its [data.items] for a listing. *)
Definition Api := AuthedClient -> Calendar.Call -> Outcome value.

Definition createGoogleEvent (api : Api) (env : Env) (file : TokensFile)
    (title start end_ location notes : value) : Outcome (Reply value) :=
  let location := defaultTo location (VString []) in
  let notes := defaultTo notes (VString []) in
  if negb (toBoolean title) || negb (toBoolean start)
     || negb (toBoolean end_) then
    Returned (Refused (VString (str "title/start/end required")))
  else
    let cfg := getGoogleConfig env in
    match getAuthedClient env file with
    | Thrown e => Thrown e
    | Returned auth =>
        let resource :=
          {| Calendar.summary := toString title;
             Calendar.location := toString (orValue location (VString []));
             Calendar.description := toString (orValue notes (VString []));
             Calendar.start :=
               {| Calendar.dateTime := toString start;
                  Calendar.timeZone :=
                    orString (GOOGLE_TIMEZONE cfg) (str "Europe/Zurich") |};
             Calendar.end_ :=
               {| Calendar.dateTime := toString end_;
                  Calendar.timeZone :=
                    orString (GOOGLE_TIMEZONE cfg) (str "Europe/Zurich") |}
          |} in
        match
          api auth
            (Calendar.Insert
               (orString (GOOGLE_CALENDAR_ID cfg) (str "primary")) resource)
        with
        | Thrown e => Thrown e
        | Returned data => Returned (Done data)
        end
    end.

(** The events found, and the calendar they are in. *)
Definition listGoogleEvents (api : Api) (env : Env) (file : TokensFile)
    (timeMin timeMax : value) : Outcome (Reply (value * jsstring)) :=
  if negb (toBoolean timeMin) || negb (toBoolean timeMax) then
    Returned (Refused (VString (str "timeMin/timeMax required")))
  else
    let cfg := getGoogleConfig env in
    match getAuthedClient env file with
    | Thrown e => Thrown e
    | Returned auth =>
        match
          api auth
            (Calendar.List
               (orString (GOOGLE_CALENDAR_ID cfg) (str "primary"))
               (toString timeMin) (toString timeMax) true (str "startTime"))
        with
        | Thrown e => Thrown e
        | Returned items =>
            Returned
              (Done (orValue items (VObject []),
                     orString (GOOGLE_CALENDAR_ID cfg) (str "primary")))
        end
    end.

Definition deleteGoogleEvent (api : Api) (env : Env) (file : TokensFile)
    (eventId : value) : Outcome (Reply unit) :=
  if negb (toBoolean eventId) then
    Returned (Refused (VString (str "eventId required")))
  else
    let attempt :=
      let cfg := getGoogleConfig env in
      match getAuthedClient env file with
      | Thrown e => Thrown e
      | Returned auth =>
          match
            api auth
              (Calendar.Delete
                 (orString (GOOGLE_CALENDAR_ID cfg) (str "primary"))
                 (toString eventId))
          with
          | Thrown e => Thrown e
          | Returned _ => Returned (Done tt)
          end
      end in
    match attempt with
    | Returned r => Returned r
    | Thrown e => Returned (Refused (orValue e (VString (str "unknown"))))
    end.

(** What the quick-add route asks of [createGoogleEvent] for a proposal
    of the parser, [location] and [notes] being those of the request
    body. *)
Definition quickAddEvent (api : Api) (env : Env) (file : TokensFile)
    (tza : Z) (parsed : Parsed) (location notes : value)
  : Outcome (Reply value) :=
  let location := defaultTo location (VString []) in
  let notes := defaultTo notes (VString []) in
  let startStr := formatLocalDateTime tza (start parsed) in
  let endStr := formatLocalDateTime tza (end_ parsed) in
  createGoogleEvent api env file
    (VString (title parsed)) (VString startStr) (VString endStr)
    (orValue location (VString [])) (orValue notes (VString [])).

(** A library that answers every call with the same data. *)
Definition apiAnswering (data : value) : Api := fun _ _ => Returned data.

(** A library whose every call fails with the same message. *)
Definition apiFailing (message : value) : Api := fun _ _ => Thrown message.

Definition envConfigured : Env :=
  envOf [(str "GOOGLE_CLIENT_ID", str "id");
         (str "GOOGLE_CLIENT_SECRET", str "secret");
         (str "GOOGLE_REDIRECT_URI", str "https://cal.example/cb")].

(** * Properties *)

(** ** Strings of digits *)
Module StringFacts.

Lemma isDigit_range (c : Z) : isDigit c = true -> 48 <= c <= 57.
Proof.
  unfold isDigit, between. intros [H1 H2]%andb_prop.
  apply Z.leb_le in H1, H2. lia.
Qed.

Lemma digit_not_space (c : Z) : isDigit c = true -> isSpace c = false.
Proof.
  intros H%isDigit_range. unfold isSpace, between.
  repeat match goal with
  | |- context [?a <=? ?b] => destruct (Z.leb_spec a b); try lia
  | |- context [?a =? ?b] => destruct (Z.eqb_spec a b); try lia
  end; reflexivity.
Qed.

Lemma digitsValue_bound (s : jsstring) :
  Forall (fun c => isDigit c = true) s ->
  forall acc, 0 <= acc ->
    0 <= digitsValue acc s < (acc + 1) * 10 ^ Z.of_nat (length s).
Proof.
  induction 1 as [|c s Hc _ IH]; intros acc Hacc.
  - cbn. lia.
  - cbn [digitsValue length]. rewrite Hc.
    apply isDigit_range in Hc.
    rewrite Nat2Z.inj_succ, Z.pow_succ_r by lia.
    specialize (IH (10 * acc + (c - 48)) ltac:(lia)).
    assert (0 < 10 ^ Z.of_nat (length s)) by (apply Z.pow_pos_nonneg; lia).
    nia.
Qed.

(** [parseInt] of a run of digits is its decimal value. *)
Lemma parseInt_digits (s : jsstring) :
  Forall (fun c => isDigit c = true) s -> s <> [] ->
  parseInt s = Some (digitsValue 0 s).
Proof.
  intros Hall Hne. destruct s as [|c s]; [congruence|].
  pose proof (Forall_inv Hall) as Hc.
  unfold parseInt. cbn [trimStart]. rewrite (digit_not_space c Hc).
  apply isDigit_range in Hc as Hr.
  destruct (Z.eqb_spec c 45); [lia|]. destruct (Z.eqb_spec c 43); [lia|].
  cbn [startsWithDigit]. rewrite Hc. f_equal. lia.
Qed.

Lemma parseInt_digitString (lo hi : nat) (s : jsstring) :
  digitString lo hi s -> (1 <= lo)%nat ->
  exists v, parseInt s = Some v /\ 0 <= v < 10 ^ Z.of_nat hi.
Proof.
  intros [Hall [Hlo Hhi]] H1.
  exists (digitsValue 0 s). split.
  - apply parseInt_digits; [assumption|]. destruct s; cbn in *; [lia|congruence].
  - pose proof (digitsValue_bound s Hall 0 ltac:(lia)) as Hb.
    assert (10 ^ Z.of_nat (length s) <= 10 ^ Z.of_nat hi)
      by (apply Z.pow_le_mono_r; lia).
    lia.
Qed.

End StringFacts.

(** ** The calendar arithmetic *)
Module DateFacts.
Import JSDate.

Ltac unfold_ms := unfold msPerDay, msPerHour, msPerMinute, msPerSecond in *.

Lemma DaysInYear_step (y : Z) :
  DayFromYear (y + 1) = DayFromYear y + DaysInYear y.
Proof.
  unfold DayFromYear, DaysInYear.
  destruct (Z.eqb_spec (y mod 4) 0), (Z.eqb_spec (y mod 100) 0),
    (Z.eqb_spec (y mod 400) 0); cbn [negb];
    Z.div_mod_to_equations; lia.
Qed.

Lemma DaysInYear_cases (y : Z) : DaysInYear y = 365 \/ DaysInYear y = 366.
Proof.
  unfold DaysInYear.
  destruct (y mod 4 =? 0), (y mod 100 =? 0), (y mod 400 =? 0); simpl; auto.
Qed.

Lemma DayFromYear_lt (y1 y2 : Z) : y1 < y2 -> DayFromYear y1 < DayFromYear y2.
Proof.
  unfold DayFromYear. intros H. Z.div_mod_to_equations. lia.
Qed.

Lemma DayFromYear_le (y1 y2 : Z) : y1 <= y2 -> DayFromYear y1 <= DayFromYear y2.
Proof.
  intros H. destruct (Z.eq_dec y1 y2) as [->|Hne]; [lia|].
  assert (y1 < y2) as Hlt by lia. apply DayFromYear_lt in Hlt. lia.
Qed.

(** [YearFromTime t] is the year whose days include the day of [t]. *)
Lemma YearFromTime_spec (t : Z) :
  DayFromYear (YearFromTime t) <= Day t < DayFromYear (YearFromTime t + 1).
Proof.
  unfold YearFromTime.
  set (d := Day t). set (y := 1970 + 400 * d / 146097).
  assert (DayFromYear (y - 1) <= d) as Hlo.
  { subst y. unfold DayFromYear. Z.div_mod_to_equations. lia. }
  assert (d < DayFromYear (y + 2)) as Hhi.
  { subst y. unfold DayFromYear. Z.div_mod_to_equations. lia. }
  destruct (Z.leb_spec (DayFromYear (y + 1)) d).
  - replace (y + 1 + 1) with (y + 2) by lia. lia.
  - destruct (Z.leb_spec (DayFromYear y) d).
    + lia.
    + replace (y - 1 + 1) with y by lia. lia.
Qed.

(** It is the largest year starting at or before [t], as ECMAScript
    defines it. *)
Lemma YearFromTime_largest (t y : Z) :
  TimeFromYear y <= t <-> y <= YearFromTime t.
Proof.
  pose proof (YearFromTime_spec t) as [Hlo Hhi].
  unfold TimeFromYear, Day in *. unfold_ms.
  split; intros H.
  - destruct (Z_le_gt_dec y (YearFromTime t)) as [|Hgt]; [assumption|].
    assert (YearFromTime t + 1 <= y) as Hle by lia.
    apply DayFromYear_le in Hle.
    assert (DayFromYear y <= t / 86400000).
    { apply Z.div_le_lower_bound; lia. }
    lia.
  - apply DayFromYear_le in H.
    assert (86400000 * (t / 86400000) <= t).
    { apply Z.mul_div_le. lia. }
    lia.
Qed.

Lemma YearFromTime_unique (t y : Z) :
  DayFromYear y <= Day t < DayFromYear (y + 1) -> YearFromTime t = y.
Proof.
  intros [Hlo Hhi].
  pose proof (YearFromTime_spec t) as [Hlo' Hhi'].
  destruct (Z.lt_trichotomy (YearFromTime t) y) as [Hlt|[Heq|Hgt]].
  - assert (YearFromTime t + 1 <= y) as Hle by lia.
    apply DayFromYear_le in Hle. lia.
  - assumption.
  - assert (y + 1 <= YearFromTime t) as Hle by lia.
    apply DayFromYear_le in Hle. lia.
Qed.

(** A time value is its day and its time of day. *)
Lemma time_fields (t : Z) :
  t = MakeDate (Day t)
        (MakeTime (HourFromTime t) (MinFromTime t) (SecFromTime t) (msFromTime t)).
Proof.
  unfold MakeDate, MakeTime, Day, HourFromTime, MinFromTime, SecFromTime,
    msFromTime.
  unfold_ms. Z.div_mod_to_equations. lia.
Qed.

Lemma MakeTime_add_minutes (t m : Z) :
  MakeDate (Day t)
    (MakeTime (HourFromTime t) (MinFromTime t + m) (SecFromTime t) (msFromTime t))
  = t + m * msPerMinute.
Proof.
  pose proof (time_fields t) as H.
  unfold MakeDate, MakeTime in *. unfold_ms. lia.
Qed.

(** [d.setMinutes(d.getMinutes() + m)] moves the time value by [m]
    minutes, when the result is a date at all. *)
Lemma setMinutes_getMinutes (tza t m : Z) :
  setMinutes tza (Some t) (plus (getMinutes tza (Some t)) (Some m))
  = TimeClip (t + m * msPerMinute).
Proof.
  unfold setMinutes, getMinutes, plus, bind.
  rewrite MakeTime_add_minutes. unfold UTC, LocalTime. f_equal. lia.
Qed.

(** [d.setMinutes(k)] moves the time value by the minutes that [k] is
    off the minute of the date, when the result is a date at all. *)
Lemma setMinutes_minutes (tza t k : Z) :
  setMinutes tza (Some t) (Some k)
  = TimeClip (t + (k - MinFromTime (LocalTime tza t)) * msPerMinute).
Proof.
  unfold setMinutes, bind.
  replace k
    with (MinFromTime (LocalTime tza t) + (k - MinFromTime (LocalTime tza t)))
    at 1 by lia.
  rewrite MakeTime_add_minutes. unfold UTC, LocalTime. f_equal. lia.
Qed.

Lemma TimeClip_Some (t u : Z) : TimeClip t = Some u -> u = t.
Proof.
  unfold TimeClip. destruct (Z.abs t <=? 8640000000000000); congruence.
Qed.

Lemma TimeClip_range (t : Z) :
  -8640000000000000 <= t <= 8640000000000000 -> TimeClip t = Some t.
Proof.
  intros H. unfold TimeClip.
  destruct (Z.leb_spec (Z.abs t) 8640000000000000); [reflexivity|lia].
Qed.

(** The local time of a date whose hours were set. *)
Lemma setHours_local (tza : Z) (d : Date) (hh mi u : Z) :
  setHours tza d (Some hh) (Some mi) (Some 0) (Some 0) = Some u ->
  exists t, d = Some t /\
    LocalTime tza u
    = MakeDate (Day (LocalTime tza t)) (MakeTime hh mi 0 0).
Proof.
  destruct d as [t|]; [|discriminate]. cbn [setHours bind].
  intros H%TimeClip_Some. exists t. split; [reflexivity|].
  subst u. unfold UTC, LocalTime. lia.
Qed.

Lemma fields_of_MakeDate (day hh mi : Z) :
  0 <= hh < 24 -> 0 <= mi < 60 ->
  let t := MakeDate day (MakeTime hh mi 0 0) in
  Day t = day /\ HourFromTime t = hh /\ MinFromTime t = mi
  /\ SecFromTime t = 0 /\ msFromTime t = 0.
Proof.
  intros Hh Hm. cbv zeta.
  unfold MakeDate, MakeTime, Day, HourFromTime, MinFromTime, SecFromTime,
    msFromTime.
  unfold_ms. repeat split; Z.div_mod_to_equations; lia.
Qed.

(** [d.setSeconds(0, 0)] keeps the local day, hour and minute. *)
Lemma setSeconds_zero (tza t u : Z) :
  setSeconds tza (Some t) (Some 0) (Some 0) = Some u ->
  Day (LocalTime tza u) = Day (LocalTime tza t)
  /\ HourFromTime (LocalTime tza u) = HourFromTime (LocalTime tza t)
  /\ MinFromTime (LocalTime tza u) = MinFromTime (LocalTime tza t).
Proof.
  cbn [setSeconds bind]. intros H%TimeClip_Some. subst u.
  unfold UTC, LocalTime. set (l := t + tza).
  replace (MakeDate _ _ - tza + tza)
    with (MakeDate (Day l) (MakeTime (HourFromTime l) (MinFromTime l) 0 0))
    by lia.
  assert (0 <= HourFromTime l < 24) as Hh
    by (unfold HourFromTime; apply Z.mod_pos_bound; lia).
  assert (0 <= MinFromTime l < 60) as Hm
    by (unfold MinFromTime; apply Z.mod_pos_bound; lia).
  destruct (fields_of_MakeDate (Day l) _ _ Hh Hm) as (H1 & H2 & H3 & _).
  auto.
Qed.

Lemma leap_cases (y : Z) :
  (leap y = 0 /\ DaysInYear y = 365) \/ (leap y = 1 /\ DaysInYear y = 366).
Proof.
  unfold leap. destruct (DaysInYear_cases y) as [H|H]; rewrite H; auto.
Qed.

Lemma Day_MakeDate (day tod : Z) :
  0 <= tod < msPerDay -> Day (MakeDate day tod) = day.
Proof.
  unfold Day, MakeDate. unfold_ms. intros H. Z.div_mod_to_equations. lia.
Qed.

Lemma TimeWithinDay_MakeDate (day tod : Z) :
  0 <= tod < msPerDay -> TimeWithinDay (MakeDate day tod) = tod.
Proof.
  unfold TimeWithinDay, MakeDate. unfold_ms. intros H.
  Z.div_mod_to_equations. lia.
Qed.

(** Day [k] (counted from 0) of year [y]. *)
Lemma year_of_day (y k tod : Z) :
  0 <= k < DaysInYear y -> 0 <= tod < msPerDay ->
  let t := MakeDate (DayFromYear y + k) tod in
  YearFromTime t = y /\ DayWithinYear t = k /\ InLeapYear t = leap y.
Proof.
  intros Hk Htod t.
  assert (Day t = DayFromYear y + k) as Hday by (apply Day_MakeDate; assumption).
  assert (YearFromTime t = y) as Hy.
  { apply YearFromTime_unique. rewrite Hday, DaysInYear_step. lia. }
  unfold DayWithinYear, InLeapYear. rewrite Hy, Hday.
  repeat split. lia.
Qed.

Ltac split_ltb :=
  repeat match goal with
  | H : context [?a =? ?b] |- _ => destruct (Z.eqb_spec a b); try lia
  | |- context [?a =? ?b] => destruct (Z.eqb_spec a b); try lia
  | |- context [?a <? ?b] => destruct (Z.ltb_spec a b); try lia
  end.

Lemma monthStart_range (m l : Z) :
  0 <= m <= 11 -> 0 <= l <= 1 ->
  0 <= monthStart m l /\ monthStart m l + daysInMonth m l <= 365 + l
  /\ 28 <= daysInMonth m l <= 31.
Proof.
  intros Hm Hl. unfold daysInMonth, monthStart.
  assert (m = 0 \/ m = 1 \/ m = 2 \/ m = 3 \/ m = 4 \/ m = 5 \/ m = 6 \/ m = 7
          \/ m = 8 \/ m = 9 \/ m = 10 \/ m = 11) as Hcases by lia.
  repeat (destruct Hcases as [->|Hcases]); try subst m; split_ltb.
Qed.

Lemma monthOfDay_monthStart (m l d : Z) :
  0 <= m <= 11 -> 0 <= l <= 1 -> 1 <= d <= daysInMonth m l ->
  monthOfDay (monthStart m l + d - 1) l = m.
Proof.
  intros Hm Hl. 
  assert (m = 0 \/ m = 1 \/ m = 2 \/ m = 3 \/ m = 4 \/ m = 5 \/ m = 6 \/ m = 7
          \/ m = 8 \/ m = 9 \/ m = 10 \/ m = 11) as Hcases by lia.
  intros Hd. unfold daysInMonth, monthStart, monthOfDay in *.
  repeat (destruct Hcases as [->|Hcases]); try subst m; split_ltb.
Qed.

(** The calendar fields of a real date: [MakeDay] is inverted by
    [YearFromTime], [MonthFromTime] and [DateFromTime]. *)
Lemma MakeDay_fields (y m d tod : Z) :
  0 <= m <= 11 -> 1 <= d <= daysInMonth m (leap y) -> 0 <= tod < msPerDay ->
  let t := MakeDate (MakeDay y m d) tod in
  YearFromTime t = y /\ MonthFromTime t = m /\ DateFromTime t = d.
Proof.
  intros Hm Hd Htod t.
  assert (0 <= leap y <= 1) as Hl by (destruct (leap_cases y); lia).
  pose proof (monthStart_range m (leap y) Hm Hl) as (Hs0 & Hs1 & Hs2).
  assert (m / 12 = 0) as Hq by (apply Z.div_small; lia).
  assert (m mod 12 = m) as Hr by (apply Z.mod_small; lia).
  assert (MakeDay y m d = DayFromYear y + (monthStart m (leap y) + d - 1)) as HM.
  { unfold MakeDay. rewrite Hq, Hr, Z.add_0_r. lia. }
  subst t. rewrite HM.
  destruct (year_of_day y (monthStart m (leap y) + d - 1) tod) as (Hy & Hk & Hlp);
    [destruct (leap_cases y); lia | assumption |].
  unfold MonthFromTime, DateFromTime, MonthFromTime.
  rewrite Hy, Hk, Hlp.
  rewrite (monthOfDay_monthStart m (leap y) d Hm Hl Hd).
  repeat split. lia.
Qed.


Lemma MonthFromTime_range (t : Z) : 0 <= MonthFromTime t <= 11.
Proof.
  unfold MonthFromTime, monthOfDay. split_ltb.
Qed.

(** The day of a time value, from its calendar fields. *)
Lemma Day_fields (t : Z) :
  Day t = MakeDay (YearFromTime t) (MonthFromTime t) (DateFromTime t).
Proof.
  pose proof (MonthFromTime_range t) as Hm.
  unfold MakeDay, DateFromTime, DayWithinYear, InLeapYear.
  rewrite (Z.div_small (MonthFromTime t) 12),
    (Z.mod_small (MonthFromTime t) 12), Z.add_0_r by lia.
  lia.
Qed.

(** [d.setDate(d.getDate() + n)] moves the time value by [n] days, when
    the result is a date at all. *)
Lemma setDate_getDate (tza t n : Z) :
  setDate tza (Some t) (plus (getDate tza (Some t)) (Some n))
  = TimeClip (t + n * msPerDay).
Proof.
  cbn [setDate getDate plus bind]. f_equal.
  set (l := LocalTime tza t).
  assert (MakeDay (YearFromTime l) (MonthFromTime l) (DateFromTime l + n)
          = Day l + n) as ->.
  { rewrite (Day_fields l). unfold MakeDay. lia. }
  assert (l = MakeDate (Day l) (TimeWithinDay l)) as Hl.
  { unfold MakeDate, Day, TimeWithinDay. unfold_ms.
    Z.div_mod_to_equations. lia. }
  unfold UTC, MakeDate in *. subst l. unfold LocalTime in *. unfold_ms. lia.
Qed.

Lemma setSeconds_clock (tza t : Z) :
  0 <= t <= 8640000000000000 ->
  exists d, setSeconds tza (Some t) (Some 0) (Some 0) = Some d
            /\ t - msPerMinute < d <= t.
Proof.
  intros H. cbn [setSeconds bind].
  pose proof (time_fields (LocalTime tza t)) as Hf.
  assert (0 <= SecFromTime (LocalTime tza t) < 60) as Hs
    by (unfold SecFromTime; apply Z.mod_pos_bound; lia).
  assert (0 <= msFromTime (LocalTime tza t) < 1000) as Hms
    by (unfold msFromTime, msPerSecond; apply Z.mod_pos_bound; lia).
  eexists. split.
  - apply TimeClip_range.
    unfold UTC, LocalTime, MakeDate, MakeTime in *. unfold_ms. lia.
  - unfold UTC, LocalTime, MakeDate, MakeTime in *. unfold_ms. lia.
Qed.


Lemma DayFromYear_bounds (y : Z) :
  99 <= y <= 10007 -> -700000 <= DayFromYear y <= 3000000.
Proof.
  intros [Hlo Hhi].
  apply DayFromYear_le in Hlo. apply DayFromYear_le in Hhi.
  assert (-700000 <= DayFromYear 99) by (apply Z.leb_le; reflexivity).
  assert (DayFromYear 10007 <= 3000000) by (apply Z.leb_le; reflexivity).
  lia.
Qed.

Lemma MakeDay_bounds (y m d : Z) :
  100 <= y <= 9999 -> -1 <= m <= 98 -> 0 <= d <= 99 ->
  -700001 <= MakeDay y m d <= 3000500.
Proof.
  intros Hy Hm Hd.
  assert (-1 <= m / 12 <= 8) as Hq by (Z.div_mod_to_equations; lia).
  assert (0 <= m mod 12 <= 11) as Hr
    by (pose proof (Z.mod_pos_bound m 12); lia).
  pose proof (DayFromYear_bounds (y + m / 12) ltac:(lia)).
  assert (0 <= leap (y + m / 12) <= 1) as Hl
    by (destruct (leap_cases (y + m / 12)); lia).
  pose proof (monthStart_range (m mod 12) (leap (y + m / 12)) Hr Hl)
    as (Hs0 & Hs1 & Hs2).
  unfold MakeDay. lia.
Qed.

(** [new Date(y, m, d, H, M, 0, 0)] for a year of up to four digits is a
    date, on the day [MakeDay y m d] of local time. *)
Lemma construct_local (tza y m d H M : Z) :
  100 <= y <= 9999 -> -1 <= m <= 98 -> 0 <= d <= 99 ->
  0 <= H < 24 -> 0 <= M < 60 -> - msPerDay <= tza <= msPerDay ->
  exists c,
    construct tza (Some y) (Some m) (Some d) (Some H) (Some M) (Some 0) (Some 0)
    = Some c
    /\ Day (LocalTime tza c) = MakeDay y m d
    /\ -100000000000000 <= c <= 300000000000000.
Proof.
  intros Hy Hm Hd HH HM Htza. cbn [construct bind].
  destruct (Z.leb_spec 0 y), (Z.leb_spec y 99); try lia. cbn [andb].
  pose proof (MakeDay_bounds y m d Hy Hm Hd) as Hb.
  eexists. split; [|split].
  - apply TimeClip_range. unfold UTC, MakeDate, MakeTime. unfold_ms. lia.
  - unfold UTC, LocalTime.
    replace (MakeDate (MakeDay y m d) (MakeTime H M 0 0) - tza + tza)
      with (MakeDate (MakeDay y m d) (MakeTime H M 0 0)) by lia.
    apply Day_MakeDate. unfold MakeTime. unfold_ms. lia.
  - unfold UTC, MakeDate, MakeTime. unfold_ms. lia.
Qed.

(** The year of a time between the epoch and the end of the year
    9999. *)
Lemma YearFromTime_bounds (t : Z) :
  - msPerDay <= t < 253402300800000 -> 1969 <= YearFromTime t <= 9999.
Proof.
  intros [Hlo Hhi]. split.
  - apply YearFromTime_largest.
    assert (TimeFromYear 1969 = -31536000000) as -> by reflexivity.
    unfold msPerDay in Hlo. lia.
  - destruct (Z_le_gt_dec (YearFromTime t) 9999) as [|Hgt]; [assumption|].
    assert (10000 <= YearFromTime t) as H by lia.
    apply YearFromTime_largest in H.
    assert (TimeFromYear 10000 = 253402300800000) as Heq by reflexivity.
    lia.
Qed.

End DateFacts.

(** ** The matcher *)
Module NumberFacts.
Import JSNumber.

Lemma In_upTo (n : nat) (z : Z) : 0 <= z <= Z.of_nat n -> In z (upTo n).
Proof.
  intros H. unfold upTo. apply in_map_iff. exists (Z.to_nat z).
  split; [lia|]. apply in_seq. lia.
Qed.

(** The sum of the minute of a date and the duration of a token is the
    same by the addition of whole numbers and by the addition of
    doubles. *)
Lemma add_whole_agrees (a b : Z) :
  0 <= a <= 59 -> 0 <= b <= 720 ->
  ofDouble (SFadd prec emax (nearest a) (nearest b)) = add (Whole a) (Whole b).
Proof.
  intros Ha Hb.
  assert (forallb (fun a => forallb (sumAgrees a) (upTo 720)) (upTo 59) = true)
    as Hall by (vm_compute; reflexivity).
  rewrite forallb_forall in Hall.
  specialize (Hall a (In_upTo 59 a ltac:(lia))).
  rewrite forallb_forall in Hall.
  specialize (Hall b (In_upTo 720 b ltac:(lia))).
  unfold sumAgrees in Hall. cbn [add].
  assert (safe (a + b) = true) as ->.
  { unfold safe. apply Z.leb_le. change (2 ^ 53) with 9007199254740992. lia. }
  destruct (ofDouble _) as [z|f]; [|discriminate].
  apply Z.eqb_eq in Hall. subst z. reflexivity.
Qed.

End NumberFacts.

Module RegExpFacts.
Import RegExp.

Lemma last_cons {A} (l : list A) :
  forall (x d : A), last (x :: l) d = last l x.
Proof.
  induction l as [|y l IH]; intros x d; [reflexivity|].
  change (last (x :: y :: l) d) with (last (y :: l) d).
  rewrite (IH y d), (IH y x). reflexivity.
Qed.

Lemma lastOr_cons (prev : option Z) (c : Z) (pre : jsstring) :
  lastOr (Some c) pre = lastOr prev (c :: pre).
Proof.
  unfold lastOr. cbn [map]. rewrite last_cons. reflexivity.
Qed.

(** What follows a repetition runs after code units of the class, as
    many as the bounds allow. *)
Lemma rep_sound {R} (p : Z -> bool) (lo : nat) (hi : option nat)
    (s : jsstring) :
  forall (n : nat) (prev : option Z) (k : option Z -> jsstring -> option R)
         (x : R),
    rep p lo hi n prev s k = Some x ->
    exists pre s',
      s = pre ++ s' /\ k (lastOr prev pre) s' = Some x
      /\ Forall (fun c => p c = true) pre
      /\ (lo <= n + length pre)%nat
      /\ (withinMax n hi -> withinMax (n + length pre) hi).
Proof.
  induction s as [|c s IH]; intros n prev k x H; cbn [rep] in H.
  - destruct (Nat.leb_spec lo n); [|discriminate].
    exists [], []. cbn. rewrite Nat.add_0_r. auto.
  - assert ((if Nat.leb lo n then k prev (c :: s) else None) = Some x ->
            exists pre s',
              c :: s = pre ++ s' /\ k (lastOr prev pre) s' = Some x
              /\ Forall (fun c => p c = true) pre
              /\ (lo <= n + length pre)%nat
              /\ (withinMax n hi -> withinMax (n + length pre) hi)) as Hstop.
    { destruct (Nat.leb_spec lo n); [|discriminate].
      intros Hk. exists [], (c :: s). cbn. rewrite Nat.add_0_r. auto. }
    destruct (p c) eqn:Hp; cbn [andb] in H; [|auto].
    destruct (belowMax n hi) eqn:Hmax; [|auto].
    destruct (rep p lo hi (S n) (Some c) s k) as [y|] eqn:Hrep;
      cbn [orElse] in H; [|auto].
    injection H as ->.
    apply IH in Hrep as (pre & s' & -> & Hk & Hall & Hlo & Hhi).
    exists (c :: pre), s'. rewrite <- lastOr_cons.
    cbn [length]. rewrite Nat.add_succ_r.
    repeat split; auto.
    intros _. apply Hhi. unfold withinMax, belowMax in *.
    destruct hi as [h|]; [|exact I]. apply Nat.ltb_lt in Hmax. lia.
Qed.

(** The matcher is sound for the relation: what follows a pattern runs
    at a position the pattern matches up to. *)
Lemma rmatch_sound {R} (r : regex) :
  forall (prev : option Z) (s : jsstring) (caps : captures)
         (k : option Z -> jsstring -> captures -> option R) (x : R),
    rmatch r prev s caps k = Some x ->
    exists prev' s' caps',
      matches r prev s caps prev' s' caps' /\ k prev' s' caps' = Some x.
Proof.
  induction r as [|p|p lo hi|r1 IH1 r2 IH2|r1 IH1 r2 IH2|i r IH| | |];
    intros prev s caps k x H; cbn [rmatch] in H.
  - exists prev, s, caps. split; [constructor|assumption].
  - destruct s as [|c s]; [discriminate|].
    destruct (p c) eqn:Hp; [|discriminate].
    exists (Some c), s, caps. split; [constructor|]; assumption.
  - apply rep_sound in H as (pre & s' & -> & Hk & Hall & Hlo & Hhi).
    exists (lastOr prev pre), s', caps. split; [|assumption].
    constructor; [assumption|lia|].
    apply Hhi. destruct hi; cbn; [lia|exact I].
  - apply IH1 in H as (p1 & s1 & c1 & H1 & H).
    apply IH2 in H as (p2 & s2 & c2 & H2 & H).
    exists p2, s2, c2. split; [econstructor; eassumption|assumption].
  - destruct (rmatch r1 prev s caps k) as [y|] eqn:H1; cbn [orElse] in H.
    + injection H as ->. apply IH1 in H1 as (p1 & s1 & c1 & Hm & Hk).
      exists p1, s1, c1. split; [apply M_AltL|]; assumption.
    + apply IH2 in H as (p1 & s1 & c1 & Hm & Hk).
      exists p1, s1, c1. split; [apply M_AltR|]; assumption.
  - apply IH in H as (p1 & s1 & c1 & Hm & Hk).
    exists p1, s1, ((i, consumed s s1) :: c1).
    split; [constructor|]; assumption.
  - destruct prev; [discriminate|].
    exists None, s, caps. split; [constructor|assumption].
  - destruct s; [|discriminate].
    exists prev, [], caps. split; [constructor|assumption].
  - destruct (xorb _ _) eqn:Hb; [|discriminate].
    exists prev, s, caps. split; [constructor|]; assumption.
Qed.

(** A match ends at a suffix of where it starts. *)
Lemma matches_suffix (r : regex) (p0 p1 : option Z) (s0 s1 : jsstring)
    (c0 c1 : captures) :
  matches r p0 s0 c0 p1 s1 c1 -> exists pre, s0 = pre ++ s1.
Proof.
  induction 1 as [prev s caps|p c prev s caps Hp|p lo hi prev pre s caps ? ? ?
                 |r1 r2 p0 s0 c0 p1 s1 c1 p2 s2 c2 _ [pre1 ->] _ [pre2 ->]
                 |r1 r2 p0 s0 c0 p1 s1 c1 _ IH|r1 r2 p0 s0 c0 p1 s1 c1 _ IH
                 |i r p0 s0 c0 p1 s1 c1 _ IH|s caps|prev caps|prev s caps ?].
  - exists []. reflexivity.
  - exists [c]. reflexivity.
  - exists pre. reflexivity.
  - exists (pre1 ++ pre2). rewrite <- app_assoc. reflexivity.
  - exact IH.
  - exact IH.
  - exact IH.
  - exists []. reflexivity.
  - exists []. reflexivity.
  - exists []. reflexivity.
Qed.

Lemma consumed_app (pre s' : jsstring) : consumed (pre ++ s') s' = pre.
Proof.
  unfold consumed. rewrite length_app, Nat.add_sub.
  rewrite firstn_app, Nat.sub_diag, firstn_all. cbn. apply app_nil_r.
Qed.

Lemma matchHere_sound (r : regex) (prev prev' : option Z) (s s' : jsstring)
    (caps : captures) :
  matchHere r prev s = Some (prev', s', caps) ->
  matches r prev s [] prev' s' caps.
Proof.
  unfold matchHere. intros H.
  apply rmatch_sound in H as (p1 & s1 & c1 & Hm & H).
  injection H as <- <- <-. assumption.
Qed.

Lemma matchHere_split (r : regex) (prev prev' : option Z) (s s' : jsstring)
    (caps : captures) :
  matchHere r prev s = Some (prev', s', caps) -> s = consumed s s' ++ s'.
Proof.
  intros H. apply matchHere_sound, matches_suffix in H as [pre ->].
  rewrite consumed_app. reflexivity.
Qed.

(** The result of a search is a match of the pattern somewhere in the
    input, from no captures. *)
Lemma search_sound (r : regex) (s : jsstring) :
  forall (prev : option Z) (idx : nat) (m : MatchResult),
    search r prev s idx = Some m ->
    exists p0 s0 p1,
      matches r p0 s0 [] p1 (rest m) (groups m)
      /\ matched m = consumed s0 (rest m).
Proof.
  induction s as [|c s IH]; intros prev idx m H; cbn [search] in H.
  - destruct (matchHere r prev []) as [[[p1 s1] caps]|] eqn:Hm; [|discriminate].
    injection H as <-. cbn. apply matchHere_sound in Hm. eauto.
  - destruct (matchHere r prev (c :: s)) as [[[p1 s1] caps]|] eqn:Hm.
    + injection H as <-. cbn. apply matchHere_sound in Hm. eauto.
    + apply IH in H. assumption.
Qed.

Lemma match_sound (r : regex) (s : jsstring) (m : MatchResult) :
  match_ r s = Some m ->
  exists p0 s0 p1,
    matches r p0 s0 [] p1 (rest m) (groups m)
    /\ matched m = consumed s0 (rest m).
Proof.
  apply search_sound.
Qed.

Lemma search_split (r : regex) (s : jsstring) :
  forall (prev : option Z) (idx : nat) (m : MatchResult),
    search r prev s idx = Some m ->
    exists pre, s = pre ++ matched m ++ rest m
                /\ index m = (idx + length pre)%nat.
Proof.
  induction s as [|c s IH]; intros prev idx m H; cbn [search] in H.
  - destruct (matchHere r prev []) as [[[p1 s1] caps]|] eqn:Hm; [|discriminate].
    injection H as <-. cbn. exists []. split; [|simpl; lia].
    apply matchHere_split in Hm. exact Hm.
  - destruct (matchHere r prev (c :: s)) as [[[p1 s1] caps]|] eqn:Hm.
    + injection H as <-. cbn. exists []. split; [|simpl; lia].
      apply matchHere_split in Hm. exact Hm.
    + apply IH in H as (pre & -> & Hidx).
      exists (c :: pre). split; [reflexivity|]. cbn. lia.
Qed.

(** A match splits the input into what is before it, the match and
    what is after it. *)
Lemma match_split (r : regex) (s : jsstring) (m : MatchResult) :
  match_ r s = Some m -> s = firstn (index m) s ++ matched m ++ rest m.
Proof.
  unfold match_. intros H.
  apply search_split in H as (pre & Hs & Hidx). cbn in Hidx.
  rewrite Hs at 2. rewrite Hidx, firstn_app, Nat.sub_diag, firstn_all.
  cbn. rewrite app_nil_r. exact Hs.
Qed.

End RegExpFacts.

(** ** The parser's result *)

Import JSDate DateFacts RegExpFacts StringFacts.

(** The start and the end of a proposal, from the day, the time of day
    and the duration. *)
Lemma parseQuickText_Ok (h : Host) (input : jsstring)
    (defaultMinutes : JSNumber.number)
    (p : Parsed) :
  parseQuickText h input defaultMinutes = Ok p ->
  trim input <> []
  /\ title p = titleOf (trim input)
  /\ minutes p = duration (trim input) defaultMinutes
  /\ start p = setHours (LocalTZA h) (dayOf h (trim input))
                 (Some (fst (timeOf (trim input))))
                 (Some (snd (timeOf (trim input)))) (Some 0) (Some 0)
  /\ end_ p = setMinutes (LocalTZA h) (start p)
                (JSNumber.truncate
                   (JSNumber.add
                      (JSNumber.ofInteger (getMinutes (LocalTZA h) (start p)))
                      (minutes p))).
Proof.
  unfold parseQuickText. intros H.
  destruct (trim input) as [|c raw']; [discriminate|].
  cbn [isEmpty] in H. destruct (timeOf (c :: raw')) as [hh mi].
  injection H as <-. cbn. repeat split. discriminate.
Qed.

Lemma parseQuickText_total (h : Host) (input : jsstring)
    (defaultMinutes : JSNumber.number) :
  trim input <> [] -> exists p, parseQuickText h input defaultMinutes = Ok p.
Proof.
  unfold parseQuickText. intros H.
  destruct (trim input) as [|c raw']; [congruence|].
  cbn [isEmpty]. destruct (timeOf (c :: raw')) as [hh mi]. eauto.
Qed.

Lemma parseQuickText_Failed (h : Host) (input : jsstring)
    (defaultMinutes : JSNumber.number) :
  trim input = [] ->
  parseQuickText h input defaultMinutes = Failed (str "text fehlt").
Proof.
  unfold parseQuickText. intros ->. reflexivity.
Qed.

Lemma clampInt_range (n : option Z) (a b : Z) :
  a <= b -> a <= clampInt n a b <= b.
Proof.
  intros H. destruct n as [n|]; cbn [clampInt]; lia.
Qed.

(** The duration, by the tokens found. *)
Lemma duration_cases (raw : jsstring) (defaultMinutes : JSNumber.number) :
  duration raw defaultMinutes =
  match match_ re_durH raw, match_ re_durMin raw with
  | Some mh, _ =>
      JSNumber.Whole (clampInt (times (parseGroup mh 1) (Some 60)) 5 720)
  | None, Some mm => JSNumber.Whole (clampInt (parseGroup mm 1) 5 720)
  | None, None =>
      if JSNumber.gt defaultMinutes 0 then defaultMinutes else 60
  end.
Proof.
  unfold duration.
  destruct (match_ re_durH raw), (match_ re_durMin raw); reflexivity.
Qed.

(** The duration is a whole number of 5..720 minutes when it is a
    token's. *)
Lemma duration_token (raw : jsstring) (defaultMinutes : JSNumber.number) :
  match_ re_durMin raw <> None \/ match_ re_durH raw <> None ->
  exists n, duration raw defaultMinutes = JSNumber.Whole n /\ 5 <= n <= 720.
Proof.
  rewrite duration_cases. intros Htok.
  destruct (match_ re_durH raw) as [mh|].
  - eexists. split; [reflexivity|]. apply clampInt_range. lia.
  - destruct (match_ re_durMin raw) as [mm|].
    + eexists. split; [reflexivity|]. apply clampInt_range. lia.
    + destruct Htok; congruence.
Qed.

Lemma duration_positive (raw : jsstring) (defaultMinutes : JSNumber.number) :
  JSNumber.gt (duration raw defaultMinutes) 0 = true.
Proof.
  rewrite duration_cases.
  destruct (match_ re_durH raw) as [mh|].
  - pose proof (clampInt_range (times (parseGroup mh 1) (Some 60)) 5 720).
    cbn [JSNumber.gt]. apply Z.ltb_lt. lia.
  - destruct (match_ re_durMin raw) as [mm|].
    + pose proof (clampInt_range (parseGroup mm 1) 5 720).
      cbn [JSNumber.gt]. apply Z.ltb_lt. lia.
    + destruct (JSNumber.gt defaultMinutes 0) eqn:Hgt; [exact Hgt|reflexivity].
Qed.

(** The end of a proposal with a start: the start moved by the minutes
    that the sum of its minute and the duration, without its fraction,
    is off its minute. *)
Lemma end_of_start (h : Host) (input : jsstring)
    (defaultMinutes : JSNumber.number) (p : Parsed) (s : Z) :
  parseQuickText h input defaultMinutes = Ok p ->
  start p = Some s ->
  end_ p
  = match
      JSNumber.truncate
        (JSNumber.add
           (JSNumber.Whole (MinFromTime (LocalTime (LocalTZA h) s)))
           (minutes p))
    with
    | Some k =>
        TimeClip
          (s + (k - MinFromTime (LocalTime (LocalTZA h) s)) * msPerMinute)
    | None => None
    end.
Proof.
  intros Hp Hs. apply parseQuickText_Ok in Hp as (_ & _ & _ & _ & Hend).
  rewrite Hend, Hs. clear Hend. cbn [getMinutes bind JSNumber.ofInteger].
  destruct (JSNumber.truncate _) as [k|]; [|reflexivity].
  apply setMinutes_minutes.
Qed.

(** With a whole number of minutes the end is the start moved by
    them. *)
Lemma end_of_start_whole (h : Host) (input : jsstring)
    (defaultMinutes : JSNumber.number) (p : Parsed) (s n : Z) :
  parseQuickText h input defaultMinutes = Ok p ->
  start p = Some s ->
  minutes p = JSNumber.Whole n ->
  -9000000000000000 <= n <= 9000000000000000 ->
  end_ p = TimeClip (s + n * msPerMinute).
Proof.
  intros Hp Hs Hn Rn. rewrite (end_of_start h input defaultMinutes p s Hp Hs).
  rewrite Hn. cbn [JSNumber.add].
  assert (0 <= MinFromTime (LocalTime (LocalTZA h) s) < 60) as Rm
    by (unfold MinFromTime; apply Z.mod_pos_bound; lia).
  assert (JSNumber.safe (MinFromTime (LocalTime (LocalTZA h) s) + n) = true)
    as ->.
  { unfold JSNumber.safe. apply Z.leb_le.
    change (2 ^ 53) with 9007199254740992. lia. }
  cbn [JSNumber.truncate]. f_equal. lia.
Qed.

(** The three examples in the comment above the quick-add route.  In
    the third the date 24.01 is also the first match of the HH.MM
    pattern, so the start is at 23:01 and not at 09:15. *)
Lemma source_examples :
  view host2026 (parseQuickText host2026 (str "coiffeur morgen 13:00 60min") 60)
  = Some (str "coiffeur", Some (2026, 1, 2, 13, 0, 0),
          Some (2026, 1, 2, 14, 0, 0), JSNumber.Whole 60)
  /\ view host2026 (parseQuickText host2026 (str "bio lernen 16:30 90min") 60)
     = Some (str "bio lernen", Some (2026, 1, 1, 16, 30, 0),
             Some (2026, 1, 1, 18, 0, 0), JSNumber.Whole 90)
  /\ view host2026 (parseQuickText host2026 (str "arzt 24.01 09:15 30min") 60)
     = Some (str "arzt", Some (2026, 1, 24, 23, 1, 0),
             Some (2026, 1, 24, 23, 31, 0), JSNumber.Whole 30).
Proof. repeat split; vm_compute; reflexivity. Qed.

(** ** The time of day of the start *)

Lemma timeOf_range (raw : jsstring) :
  0 <= fst (timeOf raw) <= 23 /\ 0 <= snd (timeOf raw) <= 59.
Proof.
  unfold timeOf.
  destruct (match_ re_time raw) as [m|]; cbn [fst snd].
  - pose proof (clampInt_range (parseGroup m 1) 0 23).
    pose proof (clampInt_range (parseGroup m 2) 0 59). lia.
  - destruct (match_ re_hourOnly raw) as [m|]; cbn [fst snd].
    + pose proof (clampInt_range (parseGroup m 1) 0 23). lia.
    + lia.
Qed.

(** The start is on the local day of [dayOf], at the time of [timeOf]. *)
Lemma start_local (h : Host) (input : jsstring)
    (defaultMinutes : JSNumber.number)
    (p : Parsed) (s : Z) :
  parseQuickText h input defaultMinutes = Ok p ->
  start p = Some s ->
  exists d, dayOf h (trim input) = Some d
    /\ Day (LocalTime (LocalTZA h) s) = Day (LocalTime (LocalTZA h) d)
    /\ HourFromTime (LocalTime (LocalTZA h) s) = fst (timeOf (trim input))
    /\ MinFromTime (LocalTime (LocalTZA h) s) = snd (timeOf (trim input))
    /\ SecFromTime (LocalTime (LocalTZA h) s) = 0.
Proof.
  intros H Hs. apply parseQuickText_Ok in H as (_ & _ & _ & Hstart & _).
  rewrite Hs in Hstart. symmetry in Hstart.
  apply setHours_local in Hstart as (d & Hd & Hloc).
  exists d. split; [assumption|]. rewrite Hloc.
  destruct (timeOf_range (trim input)) as [Hh Hm].
  destruct (fields_of_MakeDate (Day (LocalTime (LocalTZA h) d))
              (fst (timeOf (trim input))) (snd (timeOf (trim input))))
    as (H1 & H2 & H3 & H4 & _); [lia|lia|].
  auto.
Qed.

(** ** The day of the start *)

(** The day, by the first keyword that is found: two days after the
    clock's minute for übermorgen, one day for morgen, the clock's minute
    for heute; a numeric date is looked for only after the three. *)
Lemma dayOf_cases (h : Host) (raw : jsstring) (d0 : Z) :
  setSeconds (LocalTZA h) (Some (clock h)) (Some 0) (Some 0) = Some d0 ->
  dayOf h raw =
    if test re_uebermorgen (toLowerCase raw) then TimeClip (d0 + 2 * msPerDay)
    else if test re_morgen (toLowerCase raw) then TimeClip (d0 + 1 * msPerDay)
    else if test re_heute (toLowerCase raw) then Some d0
    else
      match match_ re_dm raw with
      | Some dm =>
          construct (LocalTZA h) (yearOf (LocalTZA h) (Some (clock h)) dm)
            (minus (parseGroup dm 2) (Some 1)) (parseGroup dm 1)
            (getHours (LocalTZA h) (Some d0)) (getMinutes (LocalTZA h) (Some d0))
            (Some 0) (Some 0)
      | None => Some d0
      end.
Proof.
  intros Hd0. unfold dayOf. rewrite Hd0, !setDate_getDate. reflexivity.
Qed.

(** Without a clock's minute there is no day, unless a numeric date
    replaces it. *)
Lemma dayOf_None (h : Host) (raw : jsstring) :
  setSeconds (LocalTZA h) (Some (clock h)) (Some 0) (Some 0) = None ->
  test re_uebermorgen (toLowerCase raw) = true
  \/ test re_morgen (toLowerCase raw) = true
  \/ test re_heute (toLowerCase raw) = true
  \/ match_ re_dm raw = None ->
  dayOf h raw = None.
Proof.
  intros Hd0 Hcase. unfold dayOf. rewrite Hd0.
  destruct (test re_uebermorgen (toLowerCase raw)); [reflexivity|].
  destruct (test re_morgen (toLowerCase raw)); [reflexivity|].
  destruct (test re_heute (toLowerCase raw)); [reflexivity|].
  destruct Hcase as [H|[H|[H|H]]]; try discriminate. rewrite H. reflexivity.
Qed.

Lemma Day_add_days (t n : Z) : Day (t + n * msPerDay) = Day t + n.
Proof.
  unfold Day. unfold_ms. Z.div_mod_to_equations. lia.
Qed.

(** The local day of the start of a text whose day is a keyword, or
    that has no day: the local day of the clock, plus two for
    übermorgen, else plus one for morgen. *)
Lemma start_day_by_keyword (h : Host) (input : jsstring)
    (defaultMinutes : JSNumber.number)
    (p : Parsed) (s : Z) :
  parseQuickText h input defaultMinutes = Ok p ->
  start p = Some s ->
  test re_uebermorgen (toLowerCase (trim input)) = true
  \/ test re_morgen (toLowerCase (trim input)) = true
  \/ test re_heute (toLowerCase (trim input)) = true
  \/ match_ re_dm (trim input) = None ->
  Day (LocalTime (LocalTZA h) s)
  = Day (LocalTime (LocalTZA h) (clock h))
    + (if test re_uebermorgen (toLowerCase (trim input)) then 2
       else if test re_morgen (toLowerCase (trim input)) then 1
       else 0).
Proof.
  intros Hp Hs Hcase.
  destruct (start_local h input defaultMinutes p s Hp Hs)
    as (d & Hd & Hday & _).
  rewrite Hday.
  destruct (setSeconds (LocalTZA h) (Some (clock h)) (Some 0) (Some 0))
    as [d0|] eqn:Hd0.
  - destruct (setSeconds_zero _ _ _ Hd0) as (Hday0 & _).
    rewrite <- Hday0. rewrite (dayOf_cases h _ d0 Hd0) in Hd.
    unfold LocalTime in *.
    destruct (test re_uebermorgen (toLowerCase (trim input))).
    { apply TimeClip_Some in Hd. subst d.
      rewrite <- (Day_add_days (d0 + LocalTZA h) 2). f_equal. lia. }
    destruct (test re_morgen (toLowerCase (trim input))).
    { apply TimeClip_Some in Hd. subst d.
      rewrite <- (Day_add_days (d0 + LocalTZA h) 1). f_equal. lia. }
    destruct (test re_heute (toLowerCase (trim input))).
    { injection Hd as ->. lia. }
    destruct Hcase as [H|[H|[H|H]]]; try discriminate.
    rewrite H in Hd. injection Hd as ->. lia.
  - rewrite (dayOf_None h _ Hd0 Hcase) in Hd. discriminate.
Qed.

(** ** The captures of the patterns *)

Ltac inv_matches :=
  repeat match goal with
  | H : matches (Seq _ _) _ _ _ _ _ _ |- _ => inversion H; subst; clear H
  | H : matches (Alt _ _) _ _ _ _ _ _ |- _ => inversion H; subst; clear H
  | H : matches (Grp _ _) _ _ _ _ _ _ |- _ => inversion H; subst; clear H
  | H : matches (Rep _ _ _) _ _ _ _ _ _ |- _ => inversion H; subst; clear H
  | H : matches (Chr _) _ _ _ _ _ _ |- _ => inversion H; subst; clear H
  | H : matches Eps _ _ _ _ _ _ |- _ => inversion H; subst; clear H
  | H : matches WordB _ _ _ _ _ _ |- _ => inversion H; subst; clear H
  | H : matches Bol _ _ _ _ _ _ |- _ => inversion H; subst; clear H
  | H : matches Eol _ _ _ _ _ _ |- _ => inversion H; subst; clear H
  end.

(** From a match of a pattern to the shape of its captures. *)
Ltac captures_of H :=
  apply match_sound in H as (? & ? & ? & H & _);
  match type of H with
  | matches _ _ _ _ _ (rest ?m) (groups ?m) => destruct m as [? ? ? ?]
  end;
  unfold group; cbn [groups rest] in *;
  unfold re_durMin, re_durH, re_dm, re_time, re_hourOnly,
    digits, opt, dot, colonOrDot, spaces0, space, word in H;
  cbn [seq map str list_ascii_of_string] in H;
  inv_matches; rewrite ?consumed_app; cbn [lookup Nat.eqb];
  unfold digitString, withinMax in *.

Lemma re_durMin_group (raw : jsstring) (m : MatchResult) :
  match_ re_durMin raw = Some m ->
  exists n, group m 1 = Some n /\ digitString 1 3 n.
Proof.
  intros H. captures_of H. eauto.
Qed.

Lemma re_durH_group (raw : jsstring) (m : MatchResult) :
  match_ re_durH raw = Some m ->
  exists n, group m 1 = Some n /\ digitString 1 2 n.
Proof.
  intros H. captures_of H. eauto.
Qed.


Lemma re_hourOnly_group (raw : jsstring) (m : MatchResult) :
  match_ re_hourOnly raw = Some m ->
  exists hh, group m 1 = Some hh /\ digitString 1 2 hh.
Proof.
  intros H. captures_of H; eauto.
Qed.

Lemma re_dm_groups (raw : jsstring) (dm : MatchResult) :
  match_ re_dm raw = Some dm ->
  exists d m,
    group dm 1 = Some d /\ digitString 1 2 d
    /\ group dm 2 = Some m /\ digitString 1 2 m
    /\ (group dm 3 = None
        \/ exists y, group dm 3 = Some y /\ digitString 2 4 y).
Proof.
  intros H. captures_of H.
  - do 2 eexists. repeat split; eauto. right. eauto.
  - do 2 eexists. repeat split; eauto.
Qed.

(** The numbers of a numeric date: day and month of up to two digits,
    and a year of two to four digits, taken in the 2000s below 100. *)
Lemma re_dm_values (raw : jsstring) (dm : MatchResult) :
  match_ re_dm raw = Some dm ->
  exists dd mm,
    parseGroup dm 1 = Some dd /\ 0 <= dd <= 99
    /\ parseGroup dm 2 = Some mm /\ 0 <= mm <= 99
    /\ forall tza now,
         yearOf tza now dm
         = match getFullYear tza now with
           | Some y => if y <? 100 then Some (y + 2000) else Some y
           | None => None
           end
         \/ exists y, yearOf tza now dm = Some y /\ 100 <= y <= 9999.
Proof.
  intros H. apply re_dm_groups in H as (d & m & Hd & Dd & Hm & Dm & Hy).
  destruct (parseInt_digitString 1 2 d Dd ltac:(lia)) as (dd & Pd & Rd).
  destruct (parseInt_digitString 1 2 m Dm ltac:(lia)) as (mm & Pm & Rm).
  change (10 ^ Z.of_nat 2) with 100 in *.
  exists dd, mm. unfold parseGroup at 1 2. rewrite Hd, Hm.
  repeat split; try assumption; try lia.
  intros tza now. unfold yearOf.
  destruct Hy as [Hy|(y & Hy & Dy)]; [left; rewrite Hy; reflexivity|].
  right.
  destruct (parseInt_digitString 2 4 y Dy ltac:(lia)) as (yy & Py & Ry).
  change (10 ^ Z.of_nat 4) with 10000 in Ry.
  assert (parseGroup dm 3 = Some yy) as Pg
    by (unfold parseGroup; rewrite Hy; exact Py).
  rewrite Hy, Pg.
  destruct y as [|c y]; [destruct Dy as [_ [Dy _]]; cbn in Dy; lia|].
  destruct (Z.ltb_spec yy 100); eexists; split; try reflexivity; lia.
Qed.

(** The year of a numeric date: the year of the text, of two to four
    digits and in the 2000s when below 100, and the local year of the
    clock when the text has none. *)
Lemma yearOf_numeric_date (h : Host) (raw : jsstring) (dm : MatchResult) :
  match_ re_dm raw = Some dm ->
  0 <= clock h <= 250000000000000 ->
  - msPerDay <= LocalTZA h <= msPerDay ->
  exists y,
    yearOf (LocalTZA h) (Some (clock h)) dm = Some y
    /\ 100 <= y <= 9999
    /\ ((group dm 3 = None
         /\ y = YearFromTime (LocalTime (LocalTZA h) (clock h)))
        \/ (exists g n,
              group dm 3 = Some g /\ digitString 2 4 g
              /\ parseInt g = Some n
              /\ y = if n <? 100 then n + 2000 else n)).
Proof.
  intros H Rc Rt.
  apply re_dm_groups in H as (d & m & _ & _ & _ & _ & Hy).
  unfold yearOf. destruct Hy as [Hy|(g & Hy & Dg)]; rewrite Hy.
  - cbn [getFullYear bind].
    pose proof (YearFromTime_bounds (LocalTime (LocalTZA h) (clock h))) as Hb.
    unfold LocalTime, msPerDay in *. specialize (Hb ltac:(lia)).
    destruct (Z.ltb_spec (YearFromTime (clock h + LocalTZA h)) 100); [lia|].
    eexists. split; [reflexivity|]. split; [lia|]. left. auto.
  - destruct (parseInt_digitString 2 4 g Dg ltac:(lia)) as (n & Pn & Rn).
    change (10 ^ Z.of_nat 4) with 10000 in Rn.
    assert (parseGroup dm 3 = Some n) as Pg
      by (unfold parseGroup; rewrite Hy; exact Pn).
    rewrite Pg.
    destruct g as [|c g]; [destruct Dg as [_ [Dg _]]; cbn in Dg; lia|].
    exists (if n <? 100 then n + 2000 else n).
    split; [destruct (n <? 100); reflexivity|].
    split; [destruct (Z.ltb_spec n 100); lia|].
    right. exists (c :: g), n. auto.
Qed.

(** ** Dates that are dates *)

(** On a host whose clock is between the epoch and the year 9892, with a
    zone offset of at most a day, the day is a date. *)
Lemma dayOf_valid (h : Host) (raw : jsstring) :
  0 <= clock h <= 250000000000000 ->
  - msPerDay <= LocalTZA h <= msPerDay ->
  exists d, dayOf h raw = Some d
            /\ -100000000000000 <= d <= 300000000000000.
Proof.
  intros Rc Rt.
  destruct (setSeconds_clock (LocalTZA h) (clock h) ltac:(lia))
    as (d0 & Hd0 & Rd0).
  rewrite (dayOf_cases h raw d0 Hd0). unfold msPerDay, msPerMinute in *.
  destruct (test re_uebermorgen (toLowerCase raw)).
  { eexists. split; [apply TimeClip_range|]; lia. }
  destruct (test re_morgen (toLowerCase raw)).
  { eexists. split; [apply TimeClip_range|]; lia. }
  destruct (test re_heute (toLowerCase raw)).
  { eexists. split; [reflexivity|]. lia. }
  destruct (match_ re_dm raw) as [dm|] eqn:Hdm.
  2:{ eexists. split; [reflexivity|]. lia. }
  destruct (re_dm_values raw dm Hdm) as (dd & mm & Pd & Rd & Pm & Rm & Hy).
  rewrite Pd, Pm. cbn [minus bind getHours getMinutes].
  assert (exists y, yearOf (LocalTZA h) (Some (clock h)) dm = Some y
                    /\ 100 <= y <= 9999) as (y & -> & Ry).
  { destruct (Hy (LocalTZA h) (Some (clock h))) as [->|Hex]; [|exact Hex].
    cbn [getFullYear bind].
    pose proof (YearFromTime_bounds (LocalTime (LocalTZA h) (clock h))) as Hb.
    unfold LocalTime, msPerDay in *. specialize (Hb ltac:(lia)).
    destruct (Z.ltb_spec (YearFromTime (clock h + LocalTZA h)) 100); [lia|].
    eexists. split; [reflexivity|]. lia. }
  destruct (construct_local (LocalTZA h) y (mm - 1) dd
              (HourFromTime (LocalTime (LocalTZA h) d0))
              (MinFromTime (LocalTime (LocalTZA h) d0)))
    as (c & Hc & _ & Rcb); try (unfold msPerDay); try lia.
  - unfold HourFromTime. apply Z.mod_pos_bound. lia.
  - unfold MinFromTime. apply Z.mod_pos_bound. lia.
  - exists c. split; assumption.
Qed.

Lemma Day_bounds (t : Z) : Day t * msPerDay <= t < Day t * msPerDay + msPerDay.
Proof.
  unfold Day. unfold_ms. Z.div_mod_to_equations. lia.
Qed.

(** On such a host the start is a date. *)
Lemma start_valid (h : Host) (input : jsstring)
    (defaultMinutes : JSNumber.number)
    (p : Parsed) :
  parseQuickText h input defaultMinutes = Ok p ->
  0 <= clock h <= 250000000000000 ->
  - msPerDay <= LocalTZA h <= msPerDay ->
  exists s, start p = Some s
            /\ -101000000000000 <= s <= 301000000000000.
Proof.
  intros Hp Rc Rt. apply parseQuickText_Ok in Hp as (_ & _ & _ & Hstart & _).
  destruct (dayOf_valid h (trim input) Rc Rt) as (d & Hd & Rd).
  rewrite Hd in Hstart. cbn [setHours bind] in Hstart.
  destruct (timeOf_range (trim input)) as [Rhh Rmi].
  pose proof (Day_bounds (LocalTime (LocalTZA h) d)) as Hb.
  rewrite Hstart. eexists. split.
  - apply TimeClip_range.
    unfold UTC, LocalTime, MakeDate, MakeTime in *. unfold_ms. lia.
  - unfold UTC, LocalTime, MakeDate, MakeTime in *. unfold_ms. lia.
Qed.

(** The start of a text with a numeric date and no day keyword: local
    time is at the time of day of the text on day [dd] of month [mm] of
    the year, as [MakeDay] counts it. *)
Lemma start_of_numeric_date (h : Host) (input : jsstring)
    (defaultMinutes : JSNumber.number) (p : Parsed) (dm : MatchResult) :
  parseQuickText h input defaultMinutes = Ok p ->
  test re_uebermorgen (toLowerCase (trim input)) = false ->
  test re_morgen (toLowerCase (trim input)) = false ->
  test re_heute (toLowerCase (trim input)) = false ->
  match_ re_dm (trim input) = Some dm ->
  0 <= clock h <= 250000000000000 ->
  - msPerDay <= LocalTZA h <= msPerDay ->
  exists dd mm y s,
    parseGroup dm 1 = Some dd /\ 0 <= dd <= 99
    /\ parseGroup dm 2 = Some mm /\ 0 <= mm <= 99
    /\ yearOf (LocalTZA h) (Some (clock h)) dm = Some y
    /\ 100 <= y <= 9999
    /\ start p = Some s
    /\ LocalTime (LocalTZA h) s
       = MakeDate (MakeDay y (mm - 1) dd)
           (MakeTime (fst (timeOf (trim input))) (snd (timeOf (trim input)))
              0 0).
Proof.
  intros Hp Hu Hm Hh Hdm Rc Rt.
  apply parseQuickText_Ok in Hp as (_ & _ & _ & Hstart & _).
  set (tza := LocalTZA h) in *.
  destruct (re_dm_values (trim input) dm Hdm)
    as (dd & mm & Pd & Rd & Pm & Rm & _).
  destruct (yearOf_numeric_date h (trim input) dm Hdm Rc Rt)
    as (y & Hy & Ry & _).
  fold tza in Hy.
  destruct (setSeconds_clock tza (clock h) ltac:(lia)) as (d0 & Hd0 & _).
  assert (0 <= HourFromTime (LocalTime tza d0) < 24) as RH
    by (unfold HourFromTime; apply Z.mod_pos_bound; lia).
  assert (0 <= MinFromTime (LocalTime tza d0) < 60) as RM
    by (unfold MinFromTime; apply Z.mod_pos_bound; lia).
  destruct (construct_local tza y (mm - 1) dd _ _ Ry ltac:(lia) ltac:(lia)
              RH RM Rt)
    as (c & Hc & Hday & _).
  assert (dayOf h (trim input) = Some c) as Hdayof.
  { unfold dayOf. fold tza. rewrite Hu, Hm, Hh, Hdm, Pd, Pm, Hy, Hd0.
    exact Hc. }
  rewrite Hdayof in Hstart.
  destruct (timeOf_range (trim input)) as [Rhh Rmi].
  pose proof (MakeDay_bounds y (mm - 1) dd Ry ltac:(lia) ltac:(lia)) as Hb.
  exists dd, mm, y. eexists.
  repeat (split; [first [assumption|lia]|]).
  split.
  - rewrite Hstart. cbn [setHours bind]. rewrite Hday.
    apply TimeClip_range. unfold UTC, MakeDate, MakeTime. unfold_ms. lia.
  - unfold UTC, LocalTime. lia.
Qed.


(** ** C1: minute token and hour token *)

(** C1, at the input of the claim: "termin 90min 2h" has the minute
    token "90min" and the hour token "2h", and the duration is 120, the
    hour token's, not 90. *)
Lemma C1_counterexample :
  exists mm mh p,
    match_ re_durMin (str "termin 90min 2h") = Some mm
    /\ matched mm = str "90min"
    /\ match_ re_durH (str "termin 90min 2h") = Some mh
    /\ matched mh = str "2h"
    /\ parseQuickText host2026 (str "termin 90min 2h") 60 = Ok p
    /\ minutes p = 120
    /\ minutes p <> 90.
Proof.
  do 3 eexists.
  repeat (split; [vm_compute; reflexivity|]).
  vm_compute. discriminate.
Qed.

(** C1, as the code has it: when the text has an hour token the duration
    is the hour token's (its number of up to two digits, times 60,
    clamped to 5..720), whether or not a minute token is there and
    wherever it stands; the minute token (a number of up to three
    digits, clamped) decides only when there is no hour token. *)
Theorem C1_hour_token_decides (h : Host) (input : jsstring)
    (defaultMinutes : JSNumber.number) (p : Parsed) :
  parseQuickText h input defaultMinutes = Ok p ->
  (forall mh, match_ re_durH (trim input) = Some mh ->
     exists n, parseGroup mh 1 = Some n /\ 0 <= n <= 99
               /\ minutes p = Z.max 5 (Z.min 720 (n * 60)))
  /\ (forall mm, match_ re_durH (trim input) = None ->
        match_ re_durMin (trim input) = Some mm ->
        exists n, parseGroup mm 1 = Some n /\ 0 <= n <= 999
                  /\ minutes p = Z.max 5 (Z.min 720 n)).
Proof.
  intros H. apply parseQuickText_Ok in H as (_ & _ & Hmin & _).
  rewrite Hmin, duration_cases. split.
  - intros mh Hmh. rewrite Hmh.
    apply re_durH_group in Hmh as (g & Hg & Dg).
    destruct (parseInt_digitString 1 2 g Dg ltac:(lia)) as (n & Pn & Rn).
    change (10 ^ Z.of_nat 2) with 100 in Rn.
    exists n. unfold parseGroup. rewrite Hg, Pn. cbn.
    repeat split; lia.
  - intros mm -> Hmm. rewrite Hmm.
    apply re_durMin_group in Hmm as (g & Hg & Dg).
    destruct (parseInt_digitString 1 3 g Dg ltac:(lia)) as (n & Pn & Rn).
    change (10 ^ Z.of_nat 3) with 1000 in Rn.
    exists n. unfold parseGroup. rewrite Hg, Pn. cbn.
    repeat split; lia.
Qed.

Lemma C1_witness :
  exists p mh n,
    parseQuickText host2026 (str "termin 90min 2h") 60 = Ok p
    /\ match_ re_durH (trim (str "termin 90min 2h")) = Some mh
    /\ parseGroup mh 1 = Some n
    /\ minutes p = Z.max 5 (Z.min 720 (n * 60))
    /\ minutes p = 120.
Proof.
  assert (exists p, parseQuickText host2026 (str "termin 90min 2h") 60 = Ok p
                    /\ minutes p = 120) as (p & Hp & H120).
  { eexists. split; vm_compute; reflexivity. }
  assert (exists mh, match_ re_durH (trim (str "termin 90min 2h")) = Some mh)
    as (mh & Hmh).
  { eexists. vm_compute. reflexivity. }
  destruct (C1_hour_token_decides host2026 (str "termin 90min 2h") 60 p Hp)
    as (Hhour & _).
  destruct (Hhour mh Hmh) as (n & Hn & _ & Hmin).
  exists p, mh, n. auto.
Defined.

(** ** C2: what the result depends on *)

(** C2: the same text, the same default and the same reference clock
    (2026-01-01 10:30) handed over, parsed on 2026-01-01 and on
    2026-01-02, give proposals on different days: the day is read from
    the host's clock, not from the argument.  In the same way a date
    without a year, parsed in 2026 and in 2027, is of 2026 and of
    2027. *)
Lemma C2_counterexample :
  view host2026
    (parseQuickText_with_now host2026 (str "zahnarzt") 60
       (Some (clock host2026)))
  = Some (str "zahnarzt", Some (2026, 1, 1, 9, 0, 0),
          Some (2026, 1, 1, 10, 0, 0), JSNumber.Whole 60)
  /\ view (hostAt cet 2026 1 2 10 30)
       (parseQuickText_with_now (hostAt cet 2026 1 2 10 30) (str "zahnarzt") 60
          (Some (clock host2026)))
     = Some (str "zahnarzt", Some (2026, 1, 2, 9, 0, 0),
             Some (2026, 1, 2, 10, 0, 0), JSNumber.Whole 60)
  /\ parseQuickText_with_now host2026 (str "zahnarzt") 60
       (Some (clock host2026))
     <> parseQuickText_with_now (hostAt cet 2026 1 2 10 30) (str "zahnarzt") 60
          (Some (clock host2026))
  /\ view host2026
       (parseQuickText_with_now host2026 (str "arzt 24.3 9:15") 60
          (Some (clock host2026)))
     = Some (str "arzt", Some (2026, 3, 24, 9, 15, 0),
             Some (2026, 3, 24, 10, 15, 0), JSNumber.Whole 60)
  /\ view (hostAt cet 2027 6 1 10 30)
       (parseQuickText_with_now (hostAt cet 2027 6 1 10 30)
          (str "arzt 24.3 9:15") 60 (Some (clock host2026)))
     = Some (str "arzt", Some (2027, 3, 24, 9, 15, 0),
             Some (2027, 3, 24, 10, 15, 0), JSNumber.Whole 60).
Proof.
  repeat (split; [vm_compute; reflexivity|]).
  split; [vm_compute; discriminate|].
  split; vm_compute; reflexivity.
Qed.

(** C2, as the code has it: the result is a function of the text, the
    default and what the host's clock and zone offset are when the
    parser runs; a reference clock handed over has no part in it.  Two
    runs that read the same clock agree; whether the parse fails, the
    title and the duration do not depend on the host at all.  The day is
    counted from the host's clock: with a day keyword, or without a
    numeric date, it is the local day of the clock, plus two for
    übermorgen, else plus one for morgen, so that such a text parsed on
    two different local days gives two different starts; and a numeric
    date without a year (and without a day keyword) is taken in the
    local year of the clock, a calendar date [dd.mm] being that day of
    that year.  (For the numeric date: a clock between the epoch and the
    year 9892 and a zone offset of at most a day.) *)
Theorem C2_deterministic_given_host_clock (h1 h2 : Host) (text : jsstring)
    (defaultMinutes : JSNumber.number) (now1 now2 : Date) :
  (clock h1 = clock h2 -> LocalTZA h1 = LocalTZA h2 ->
   parseQuickText_with_now h1 text defaultMinutes now1
   = parseQuickText_with_now h2 text defaultMinutes now2)
  /\ (forall msg,
        parseQuickText_with_now h1 text defaultMinutes now1 = Failed msg ->
        parseQuickText_with_now h2 text defaultMinutes now2 = Failed msg)
  /\ (forall p1 p2,
        parseQuickText_with_now h1 text defaultMinutes now1 = Ok p1 ->
        parseQuickText_with_now h2 text defaultMinutes now2 = Ok p2 ->
        title p1 = title p2 /\ minutes p1 = minutes p2)
  /\ (forall p1 s1,
        parseQuickText_with_now h1 text defaultMinutes now1 = Ok p1 ->
        start p1 = Some s1 ->
        test re_uebermorgen (toLowerCase (trim text)) = true
        \/ test re_morgen (toLowerCase (trim text)) = true
        \/ test re_heute (toLowerCase (trim text)) = true
        \/ match_ re_dm (trim text) = None ->
        Day (LocalTime (LocalTZA h1) s1)
        = Day (LocalTime (LocalTZA h1) (clock h1))
          + (if test re_uebermorgen (toLowerCase (trim text)) then 2
             else if test re_morgen (toLowerCase (trim text)) then 1
             else 0))
  /\ (forall p1 p2 s1 s2,
        parseQuickText_with_now h1 text defaultMinutes now1 = Ok p1 ->
        parseQuickText_with_now h2 text defaultMinutes now2 = Ok p2 ->
        start p1 = Some s1 -> start p2 = Some s2 ->
        test re_uebermorgen (toLowerCase (trim text)) = true
        \/ test re_morgen (toLowerCase (trim text)) = true
        \/ test re_heute (toLowerCase (trim text)) = true
        \/ match_ re_dm (trim text) = None ->
        LocalTZA h1 = LocalTZA h2 ->
        Day (LocalTime (LocalTZA h1) (clock h1))
        <> Day (LocalTime (LocalTZA h2) (clock h2)) ->
        s1 <> s2)
  /\ (forall p1 dm,
        parseQuickText_with_now h1 text defaultMinutes now1 = Ok p1 ->
        test re_uebermorgen (toLowerCase (trim text)) = false ->
        test re_morgen (toLowerCase (trim text)) = false ->
        test re_heute (toLowerCase (trim text)) = false ->
        match_ re_dm (trim text) = Some dm ->
        group dm 3 = None ->
        0 <= clock h1 <= 250000000000000 ->
        - msPerDay <= LocalTZA h1 <= msPerDay ->
        exists s1 dd mm,
          start p1 = Some s1
          /\ parseGroup dm 1 = Some dd /\ parseGroup dm 2 = Some mm
          /\ Day (LocalTime (LocalTZA h1) s1)
             = MakeDay (YearFromTime (LocalTime (LocalTZA h1) (clock h1)))
                 (mm - 1) dd
          /\ (1 <= mm <= 12 ->
              1 <= dd
              <= daysInMonth (mm - 1)
                   (leap (YearFromTime (LocalTime (LocalTZA h1) (clock h1)))) ->
              YearFromTime (LocalTime (LocalTZA h1) s1)
              = YearFromTime (LocalTime (LocalTZA h1) (clock h1))
              /\ MonthFromTime (LocalTime (LocalTZA h1) s1) = mm - 1
              /\ DateFromTime (LocalTime (LocalTZA h1) s1) = dd)).
Proof.
  unfold parseQuickText_with_now. split; [|split; [|split; [|split; [|split]]]].
  - destruct h1, h2. cbn. intros -> ->. reflexivity.
  - intros msg H. destruct (trim text) as [|c raw'] eqn:Hraw.
    + rewrite parseQuickText_Failed in H |- * by assumption. assumption.
    + destruct (parseQuickText_total h1 text defaultMinutes) as [p Hp];
        [congruence|]. congruence.
  - intros p1 p2 H1 H2.
    apply parseQuickText_Ok in H1 as (_ & Ht1 & Hm1 & _).
    apply parseQuickText_Ok in H2 as (_ & Ht2 & Hm2 & _).
    split; congruence.
  - intros p1 s1 Hp Hs Hcase.
    apply (start_day_by_keyword h1 text defaultMinutes p1 s1 Hp Hs Hcase).
  - intros p1 p2 s1 s2 Hp1 Hp2 Hs1 Hs2 Hcase Htza Hdays ->.
    pose proof (start_day_by_keyword h1 text defaultMinutes p1 s2
                  Hp1 Hs1 Hcase) as D1.
    pose proof (start_day_by_keyword h2 text defaultMinutes p2 s2
                  Hp2 Hs2 Hcase) as D2.
    rewrite Htza in D1, Hdays. lia.
  - intros p1 dm Hp Hu Hm Hh Hdm Hg Rc Rt.
    destruct (start_of_numeric_date h1 text defaultMinutes p1 dm
                Hp Hu Hm Hh Hdm Rc Rt)
      as (dd & mm & y & s & Pd & Rd & Pm & Rm & Hy & Ry & Hs & Hloc).
    destruct (yearOf_numeric_date h1 (trim text) dm Hdm Rc Rt)
      as (y' & Hy' & _ & Hyear).
    assert (y' = y) as -> by congruence.
    destruct Hyear as [[_ ->]|(g & n & Hg' & _)]; [|congruence].
    destruct (timeOf_range (trim text)) as [Rhh Rmi].
    assert (0 <= MakeTime (fst (timeOf (trim text)))
                   (snd (timeOf (trim text))) 0 0 < msPerDay) as Rtod
      by (unfold MakeTime; unfold_ms; lia).
    exists s, dd, mm. repeat (split; [assumption|]).
    split; [rewrite Hloc; apply Day_MakeDate; exact Rtod|].
    intros Rmm Rdd. rewrite Hloc.
    apply MakeDay_fields; [lia|assumption|assumption].
Qed.

Lemma C2_witness :
  exists p s,
    parseQuickText_with_now (hostAt cet 2027 6 1 10 30) (str "arzt 24.3 9:15")
      60 (Some (clock host2026)) = Ok p
    /\ start p = Some s
    /\ YearFromTime (LocalTime cet s)
       = YearFromTime (LocalTime cet (clock (hostAt cet 2027 6 1 10 30)))
    /\ MonthFromTime (LocalTime cet s) = 2
    /\ DateFromTime (LocalTime cet s) = 24.
Proof.
  assert (exists p,
            parseQuickText_with_now (hostAt cet 2027 6 1 10 30)
              (str "arzt 24.3 9:15") 60 (Some (clock host2026)) = Ok p)
    as (p & Hp) by (eexists; vm_compute; reflexivity).
  assert (exists dm, match_ re_dm (trim (str "arzt 24.3 9:15")) = Some dm
                     /\ parseGroup dm 1 = Some 24
                     /\ parseGroup dm 2 = Some 3
                     /\ group dm 3 = None)
    as (dm & Hdm & P1 & P2 & G3).
  { eexists. repeat split; vm_compute; reflexivity. }
  destruct (C2_deterministic_given_host_clock
              (hostAt cet 2027 6 1 10 30) host2026 (str "arzt 24.3 9:15") 60
              (Some (clock host2026)) None)
    as (_ & _ & _ & _ & _ & Hdate).
  destruct (Hdate p dm Hp) as (s & dd & mm & Hs & Pd & Pm & _ & Hcal).
  - vm_compute. reflexivity.
  - vm_compute. reflexivity.
  - vm_compute. reflexivity.
  - exact Hdm.
  - exact G3.
  - split; apply Z.leb_le; reflexivity.
  - split; apply Z.leb_le; reflexivity.
  - assert (dd = 24) as -> by congruence.
    assert (mm = 3) as -> by congruence.
    exists p, s. split; [exact Hp|]. split; [exact Hs|].
    apply Hcal; [lia|].
    split; [lia|]. apply Z.leb_le. vm_compute. reflexivity.
Defined.

(** ** C3: the day keywords *)

(** C3, at the input of the claim: in "übermorgen 13:00" the keyword is
    not found, because [\b] holds only between a word character and a
    character that is none, and ü is none; morgen is not found inside
    it either.  On 2026-01-01 the proposal is for 2026-01-01, and the
    keyword stays in the title. *)
Theorem C3_uebermorgen_at_start :
  test re_uebermorgen (toLowerCase (uebermorgen ++ str " 13:00")) = false
  /\ test re_morgen (toLowerCase (uebermorgen ++ str " 13:00")) = false
  /\ view host2026 (parseQuickText host2026 (uebermorgen ++ str " 13:00") 60)
     = Some (uebermorgen, Some (2026, 1, 1, 13, 0, 0),
             Some (2026, 1, 1, 14, 0, 0), JSNumber.Whole 60).
Proof.
  repeat split; vm_compute; reflexivity.
Qed.

(** The same on every host: the start of "übermorgen 13:00" is on the
    local day of the clock. *)
Lemma uebermorgen_at_start_any_host (h : Host) (p : Parsed) (s : Z) :
  parseQuickText h (uebermorgen ++ str " 13:00") 60 = Ok p ->
  start p = Some s ->
  Day (LocalTime (LocalTZA h) s) = Day (LocalTime (LocalTZA h) (clock h)).
Proof.
  intros Hp Hs.
  rewrite (start_day_by_keyword h _ 60 p s Hp Hs).
  - replace (test re_uebermorgen (toLowerCase (trim (uebermorgen ++ str " 13:00"))))
      with false by (vm_compute; reflexivity).
    replace (test re_morgen (toLowerCase (trim (uebermorgen ++ str " 13:00"))))
      with false by (vm_compute; reflexivity).
    lia.
  - right. right. right. vm_compute. reflexivity.
Qed.

(** After a word character the keyword is found: "xübermorgen 13:00"
    is two days on. *)
Lemma uebermorgen_after_word_character :
  view host2026 (parseQuickText host2026 (str "x" ++ uebermorgen ++ str " 13:00") 60)
  = Some (str "x", Some (2026, 1, 3, 13, 0, 0),
          Some (2026, 1, 3, 14, 0, 0), JSNumber.Whole 60).
Proof. vm_compute. reflexivity. Qed.

(** The order of the day keywords, as far as they are found: morgen
    before heute, both before a numeric date. *)
Lemma day_priority_examples :
  view host2026 (parseQuickText host2026 (str "heute morgen 24.1 8:00") 60)
  = Some (str "Termin", Some (2026, 1, 2, 8, 0, 0),
          Some (2026, 1, 2, 9, 0, 0), JSNumber.Whole 60)
  /\ view host2026 (parseQuickText host2026 (str "heute 24.1 8:00") 60)
     = Some (str "Termin", Some (2026, 1, 1, 8, 0, 0),
             Some (2026, 1, 1, 9, 0, 0), JSNumber.Whole 60).
Proof. split; vm_compute; reflexivity. Qed.

(** ** C4: the range of the duration *)

(** C4: with no duration token in the text, a default of 1000 is the
    duration, above 720. *)
Lemma C4_counterexample :
  exists p,
    match_ re_durMin (str "zahnarzt") = None
    /\ match_ re_durH (str "zahnarzt") = None
    /\ parseQuickText host2026 (str "zahnarzt") 1000 = Ok p
    /\ minutes p = 1000
    /\ ~ (exists n, minutes p = JSNumber.Whole n /\ 5 <= n <= 720).
Proof.
  eexists.
  repeat (split; [vm_compute; reflexivity|]).
  cbn. intros (n & Hn & Rn). injection Hn as <-. lia.
Qed.

(** C4, as the code has it: the duration of a token is a whole number
    in 5..720; with no token it is the default when that is greater
    than 0 and 60 otherwise (for NaN too), as it is, not clamped and
    with its fraction.  It is greater than 0 in every case. *)
Theorem C4_duration_range (h : Host) (input : jsstring)
    (defaultMinutes : JSNumber.number) (p : Parsed) :
  parseQuickText h input defaultMinutes = Ok p ->
  (match_ re_durMin (trim input) <> None \/ match_ re_durH (trim input) <> None ->
   exists n, minutes p = JSNumber.Whole n /\ 5 <= n <= 720)
  /\ (match_ re_durMin (trim input) = None -> match_ re_durH (trim input) = None ->
      minutes p = if JSNumber.gt defaultMinutes 0 then defaultMinutes else 60)
  /\ JSNumber.gt (minutes p) 0 = true.
Proof.
  intros H. apply parseQuickText_Ok in H as (_ & _ & Hmin & _).
  rewrite Hmin. split; [|split].
  - apply duration_token.
  - rewrite duration_cases. intros -> ->. reflexivity.
  - apply duration_positive.
Qed.

Lemma C4_witness :
  exists p,
    parseQuickText host2026 (str "x 99:99 999min") 60 = Ok p
    /\ exists n, minutes p = JSNumber.Whole n /\ 5 <= n <= 720.
Proof.
  eexists. split; [vm_compute; reflexivity|].
  eapply (C4_duration_range host2026 (str "x 99:99 999min") 60).
  - vm_compute. reflexivity.
  - left. vm_compute. discriminate.
Defined.

(** ** C5: the only failure *)

(** C5: the parse fails exactly when the trimmed text is empty, and then
    with the one message; every other text gives a proposal, with a
    title that is not empty.  Where the text has no token of a kind the
    default of that kind is used: the caller's default duration (60 when
    that is not positive), 09:00, and the local day of the clock. *)
Theorem C5_fails_only_on_empty (h : Host) (input : jsstring)
    (defaultMinutes : JSNumber.number) :
  (trim input = [] <->
   parseQuickText h input defaultMinutes = Failed (str "text fehlt"))
  /\ (trim input = [] \/ exists p, parseQuickText h input defaultMinutes = Ok p)
  /\ (forall p, parseQuickText h input defaultMinutes = Ok p ->
        title p <> []
        /\ (match_ re_durMin (trim input) = None ->
            match_ re_durH (trim input) = None ->
            minutes p
            = if JSNumber.gt defaultMinutes 0 then defaultMinutes else 60)
        /\ (match_ re_time (trim input) = None ->
            match_ re_hourOnly (trim input) = None ->
            forall s, start p = Some s ->
              HourFromTime (LocalTime (LocalTZA h) s) = 9
              /\ MinFromTime (LocalTime (LocalTZA h) s) = 0)
        /\ (test re_uebermorgen (toLowerCase (trim input)) = false ->
            test re_morgen (toLowerCase (trim input)) = false ->
            match_ re_dm (trim input) = None ->
            forall s, start p = Some s ->
              Day (LocalTime (LocalTZA h) s)
              = Day (LocalTime (LocalTZA h) (clock h)))).
Proof.
  split; [|split].
  - split.
    + apply parseQuickText_Failed.
    + intros H. destruct (trim input) as [|c raw'] eqn:Hraw; [reflexivity|].
      destruct (parseQuickText_total h input defaultMinutes) as [p Hp];
        congruence.
  - destruct (trim input) as [|c raw'] eqn:Hraw; [left; reflexivity|].
    right. apply parseQuickText_total. congruence.
  - intros p Hp. pose proof Hp as H.
    apply parseQuickText_Ok in H as (_ & Ht & Hmin & _).
    split; [|split; [|split]].
    + rewrite Ht. unfold titleOf.
      match goal with |- (if isEmpty ?t then _ else _) <> _ =>
        destruct t; cbn; discriminate end.
    + rewrite Hmin, duration_cases. intros -> ->. reflexivity.
    + intros Htime Hhour s Hs.
      destruct (start_local h input defaultMinutes p s Hp Hs)
        as (d & _ & _ & Hh & Hm & _).
      rewrite Hh, Hm. unfold timeOf. rewrite Htime, Hhour. split; reflexivity.
    + intros Hu Hm Hdm s Hs.
      rewrite (start_day_by_keyword h input defaultMinutes p s Hp Hs) by auto.
      rewrite Hu, Hm. lia.
Qed.

Lemma C5_witness :
  parseQuickText host2026 (str "   ") 60 = Failed (str "text fehlt")
  /\ view host2026 (parseQuickText host2026 (str " , ") 60)
     = Some (str ",", Some (2026, 1, 1, 9, 0, 0),
             Some (2026, 1, 1, 10, 0, 0), JSNumber.Whole 60)
  /\ view host2026 (parseQuickText host2026 (str "heute") 0)
     = Some (str "Termin", Some (2026, 1, 1, 9, 0, 0),
             Some (2026, 1, 1, 10, 0, 0), JSNumber.Whole 60).
Proof.
  split.
  - apply (C5_fails_only_on_empty host2026 (str "   ") 60). vm_compute. reflexivity.
  - split; vm_compute; reflexivity.
Defined.

(** ** C6: end minus start *)

(** C6: with no duration token and a default of half a minute the
    duration is half a minute and the end is the start, not after it;
    with a default of ninety and a half minutes the end is ninety
    minutes after the start; with a default of 10^12 minutes the start
    is a date and the end is the invalid date, outside the range of
    [Date]. *)
Lemma C6_counterexample :
  (exists p s,
     parseQuickText host2026 (str "zahnarzt") (JSNumber.fraction 1 1) = Ok p
     /\ minutes p = JSNumber.fraction 1 1
     /\ JSNumber.gt (minutes p) 0 = true
     /\ start p = Some s
     /\ end_ p = Some s)
  /\ (exists p s,
        parseQuickText host2026 (str "zahnarzt") (JSNumber.fraction 181 1)
        = Ok p
        /\ minutes p = JSNumber.fraction 181 1
        /\ JSNumber.gt (minutes p) 90 = true
        /\ start p = Some s
        /\ end_ p = Some (s + 90 * msPerMinute))
  /\ (exists p s,
        parseQuickText host2026 (str "zahnarzt") 1000000000000 = Ok p
        /\ minutes p = 1000000000000
        /\ start p = Some s
        /\ end_ p = None).
Proof.
  split; [|split]; do 2 eexists; repeat split; vm_compute; reflexivity.
Qed.

(** C6, as the code has it: the end is the start with its minute set to
    the sum of that minute and the duration, without the fraction of the
    sum, and clipped to the range of [Date].  With a duration of a whole
    number of minutes, as every duration of a token is, the end is the
    start moved by the duration: whenever start and end are both dates,
    end minus start is the duration and the end is after the start; and
    they are both dates when the host's clock is between the epoch and
    the year 9892 and the duration is at most 10^11 minutes.  (Local
    time is UTC plus a constant offset, of at most a day.) *)
Theorem C6_end_minus_start (h : Host) (input : jsstring)
    (defaultMinutes : JSNumber.number) (p : Parsed) :
  parseQuickText h input defaultMinutes = Ok p ->
  (forall s, start p = Some s ->
     end_ p
     = match
         JSNumber.truncate
           (JSNumber.add
              (JSNumber.Whole (MinFromTime (LocalTime (LocalTZA h) s)))
              (minutes p))
       with
       | Some k =>
           TimeClip
             (s + (k - MinFromTime (LocalTime (LocalTZA h) s)) * msPerMinute)
       | None => None
       end)
  /\ (match_ re_durMin (trim input) <> None
      \/ match_ re_durH (trim input) <> None ->
      exists n, minutes p = JSNumber.Whole n /\ 5 <= n <= 720)
  /\ (forall n, minutes p = JSNumber.Whole n -> n <= 9000000000000000 ->
      (forall s, start p = Some s ->
         end_ p = TimeClip (s + n * msPerMinute))
      /\ (forall s e, start p = Some s -> end_ p = Some e ->
            e - s = n * msPerMinute /\ s < e)
      /\ (0 <= clock h <= 250000000000000 ->
          - msPerDay <= LocalTZA h <= msPerDay ->
          n <= 100000000000 ->
          exists s e, start p = Some s /\ end_ p = Some e
                      /\ e - s = n * msPerMinute /\ s < e)).
Proof.
  intros Hp. pose proof Hp as H.
  apply parseQuickText_Ok in H as (_ & _ & Hmin & _).
  split; [intros s Hs; exact (end_of_start h input defaultMinutes p s Hp Hs)|].
  split; [rewrite Hmin; apply duration_token|].
  intros n Hn Rn.
  assert (0 < n) as Hpos.
  { pose proof (duration_positive (trim input) defaultMinutes) as Hgt.
    rewrite <- Hmin, Hn in Hgt. cbn [JSNumber.gt] in Hgt.
    apply Z.ltb_lt in Hgt. exact Hgt. }
  assert (forall s, start p = Some s ->
            end_ p = TimeClip (s + n * msPerMinute)) as Hclip.
  { intros s Hs.
    apply (end_of_start_whole h input defaultMinutes p s n Hp Hs Hn). lia. }
  split; [exact Hclip|]. split.
  - intros s e Hs He. rewrite (Hclip s Hs) in He. apply TimeClip_Some in He.
    unfold msPerMinute in *. lia.
  - intros Rc Rt Rm.
    destruct (start_valid h input defaultMinutes p Hp Rc Rt) as (s & Hs & Rs).
    exists s, (s + n * msPerMinute).
    split; [assumption|]. split.
    + rewrite (Hclip s Hs). apply TimeClip_range. unfold msPerMinute. lia.
    + unfold msPerMinute. lia.
Qed.

Lemma C6_witness :
  exists p s e,
    parseQuickText host2026 (str "bio lernen 16:30 90min") 60 = Ok p
    /\ start p = Some s /\ end_ p = Some e
    /\ e - s = 90 * msPerMinute /\ s < e.
Proof.
  assert (exists p, parseQuickText host2026 (str "bio lernen 16:30 90min") 60
                    = Ok p /\ minutes p = 90) as (p & Hp & Hmin).
  { eexists. split; vm_compute; reflexivity. }
  destruct (C6_end_minus_start host2026 (str "bio lernen 16:30 90min") 60 p Hp)
    as (_ & _ & Hwhole).
  destruct (Hwhole 90 Hmin ltac:(lia)) as (_ & _ & Hvalid).
  destruct Hvalid as (s & e & Hs & He & Hdiff & Hlt).
  - split; apply Z.leb_le; reflexivity.
  - split; apply Z.leb_le; reflexivity.
  - lia.
  - exists p, s, e. auto.
Defined.

(** ** C7: the title *)

(** C7: in "x90min" the duration pattern finds "90min" and the duration
    is 90, but the title pattern for minutes asks for a word boundary
    before the digits, which x and 9 do not make: the title is the whole
    text, token included.  The all-token input of the claim does give
    the placeholder. *)
Theorem C7_token_left_in_title :
  (exists m, match_ re_durMin (str "x90min") = Some m
             /\ matched m = str "90min")
  /\ view host2026 (parseQuickText host2026 (str "x90min") 60)
     = Some (str "x90min", Some (2026, 1, 1, 9, 0, 0),
             Some (2026, 1, 1, 10, 30, 0), JSNumber.Whole 90)
  /\ view host2026 (parseQuickText host2026 (str "90min 13:00 morgen") 60)
     = Some (str "Termin", Some (2026, 1, 2, 13, 0, 0),
             Some (2026, 1, 2, 14, 30, 0), JSNumber.Whole 90).
Proof.
  split; [eexists; split; vm_compute; reflexivity|].
  split; vm_compute; reflexivity.
Qed.

(** The same on every host. *)
Lemma token_left_in_title_any_host (h : Host) :
  exists p,
    parseQuickText h (str "x90min") 60 = Ok p
    /\ title p = str "x90min" /\ minutes p = 90.
Proof.
  destruct (parseQuickText_total h (str "x90min") 60) as [p Hp].
  { vm_compute. discriminate. }
  exists p. split; [assumption|].
  apply parseQuickText_Ok in Hp as (_ & Ht & Hmin & _).
  rewrite Ht, Hmin. split; vm_compute; reflexivity.
Qed.

(** ** C8: the bare number as the hour *)

(** C8: in "x 90 min" the duration pattern finds "90 min", there is no
    HH:MM token, and the hour pattern, run on the same text, finds the
    90 of that token: the start is at 23:00 (90 clamped), the duration
    is 90. *)
Theorem C8_duration_digits_read_as_hour :
  (exists m, match_ re_durMin (str "x 90 min") = Some m
             /\ matched m = str "90 min" /\ index m = 2%nat)
  /\ match_ re_time (str "x 90 min") = None
  /\ (exists m, match_ re_hourOnly (str "x 90 min") = Some m
                /\ group m 1 = Some (str "90") /\ index m = 1%nat)
  /\ view host2026 (parseQuickText host2026 (str "x 90 min") 60)
     = Some (str "x", Some (2026, 1, 1, 23, 0, 0),
             Some (2026, 1, 2, 0, 30, 0), JSNumber.Whole 90).
Proof.
  split; [eexists; repeat split; vm_compute; reflexivity|].
  split; [vm_compute; reflexivity|].
  split; [eexists; repeat split; vm_compute; reflexivity|].
  vm_compute. reflexivity.
Qed.

(** The same on every host. *)
Lemma duration_digits_read_as_hour_any_host (h : Host) (p : Parsed) (s : Z) :
  parseQuickText h (str "x 90 min") 60 = Ok p ->
  start p = Some s ->
  minutes p = 90
  /\ HourFromTime (LocalTime (LocalTZA h) s) = 23
  /\ MinFromTime (LocalTime (LocalTZA h) s) = 0.
Proof.
  intros Hp Hs.
  destruct (start_local h _ _ p s Hp Hs) as (d & _ & _ & Hh & Hm & _).
  apply parseQuickText_Ok in Hp as (_ & _ & Hmin & _).
  rewrite Hmin, Hh, Hm. repeat split; vm_compute; reflexivity.
Qed.

(** ** C9: out-of-range digits *)



(** ** C10: numeric dates that are no calendar dates *)




(** The inputs of the claim: 31 February 2026 is 3 March, 31 April is
    1 May. *)
Lemma numeric_date_examples :
  view host2026 (parseQuickText host2026 (str "31.02.2026") 60)
  = Some (str "Termin", Some (2026, 3, 3, 23, 2, 0),
          Some (2026, 3, 4, 0, 2, 0), JSNumber.Whole 60)
  /\ view host2026 (parseQuickText host2026 (str "zahnarzt 31.4 10:00") 60)
     = Some (str "zahnarzt", Some (2026, 5, 1, 10, 0, 0),
             Some (2026, 5, 1, 11, 0, 0), JSNumber.Whole 60).
Proof. split; vm_compute; reflexivity. Qed.

(** * Properties of the rest of the server *)

(** ** escapeHtml *)

(** What [escapeHtml] writes for one code unit. *)
Lemma replaceAllString_unit (c : Z) (by_ s : jsstring) :
  replaceAllString [c] by_ s
  = flat_map (fun x => if x =? c then by_ else [x]) s.
Proof.
  unfold replaceAllString.
  induction s as [|x s IH]; [reflexivity|].
  cbn [replaceAllFrom isPrefixOf length flat_map].
  rewrite Z.eqb_sym. destruct (x =? c); cbn [andb].
  - rewrite IH. reflexivity.
  - rewrite IH. reflexivity.
Qed.

Lemma flat_map_flat_map {A B C} (f : A -> list B) (g : B -> list C)
    (l : list A) :
  flat_map g (flat_map f l) = flat_map (fun x => flat_map g (f x)) l.
Proof.
  induction l as [|x l IH]; [reflexivity|].
  cbn [flat_map]. rewrite flat_map_app, IH. reflexivity.
Qed.

(** The five replacements in a row are one substitution, unit by unit:
    the ampersands that the later replacements write are not escaped
    again. *)
Lemma escapeHtml_units (s : jsstring) :
  escapeHtml s = flat_map escapeUnit s.
Proof.
  unfold escapeHtml, quot.
  change (str "'") with [39]. change (str ">") with [62].
  change (str "<") with [60]. change (str "&") with [38].
  rewrite !replaceAllString_unit, !flat_map_flat_map.
  apply flat_map_ext. intros x. unfold escapeUnit.
  destruct (Z.eqb_spec x 38) as [->|H38]; [reflexivity|].
  destruct (Z.eqb_spec x 60) as [->|H60]; [reflexivity|].
  destruct (Z.eqb_spec x 62) as [->|H62]; [reflexivity|].
  destruct (Z.eqb_spec x 34) as [->|H34]; [reflexivity|].
  destruct (Z.eqb_spec x 39) as [->|H39]; [reflexivity|].
  cbn [flat_map app].
  repeat match goal with
  | |- context [x =? ?c] =>
      destruct (Z.eqb_spec x c); [congruence|]; cbn [flat_map app]
  end.
  reflexivity.
Qed.

(** The cases of [escapeUnit]. *)
Lemma escapeUnit_cases (x : Z) :
  (x = 38 /\ escapeUnit x = str "&amp;")
  \/ (x = 60 /\ escapeUnit x = str "&lt;")
  \/ (x = 62 /\ escapeUnit x = str "&gt;")
  \/ (x = 34 /\ escapeUnit x = str "&quot;")
  \/ (x = 39 /\ escapeUnit x = str "&#039;")
  \/ (x <> 38 /\ x <> 60 /\ x <> 62 /\ x <> 34 /\ x <> 39
      /\ escapeUnit x = [x]).
Proof.
  unfold escapeUnit.
  destruct (Z.eqb_spec x 38); [auto|].
  destruct (Z.eqb_spec x 60); [auto|].
  destruct (Z.eqb_spec x 62); [auto 6|].
  destruct (Z.eqb_spec x 34); [auto 8|].
  destruct (Z.eqb_spec x 39); [auto 10|].
  repeat right. auto 10.
Qed.

Ltac escape_cases x :=
  let E := fresh "E" in
  destruct (escapeUnit_cases x)
    as [[? E]|[[? E]|[[? E]|[[? E]|[[? E]|(? & ? & ? & ? & ? & E)]]]]];
  try subst x; try rewrite E in *; clear E;
  change (str "&amp;") with [38; 97; 109; 112; 59] in *;
  change (str "&lt;") with [38; 108; 116; 59] in *;
  change (str "&gt;") with [38; 103; 116; 59] in *;
  change (str "&quot;") with [38; 113; 117; 111; 116; 59] in *;
  change (str "&#039;") with [38; 35; 48; 51; 57; 59] in *.

(** X1.  The output of [escapeHtml] has no [<], [>], double or single
    quote, and each of its ampersands starts one of the five entities:
    nothing of the input can end the element it is put in or start a
    tag or an entity of its own. *)
Theorem escapeHtml_safe (s : jsstring) :
  Forall (fun c => c <> 60 /\ c <> 62 /\ c <> 34 /\ c <> 39) (escapeHtml s)
  /\ (forall pre post, escapeHtml s = pre ++ 38 :: post ->
        exists tail rest, In tail entityTails /\ post = tail ++ rest).
Proof.
  rewrite escapeHtml_units. split.
  - induction s as [|x s IH]; [constructor|].
    cbn [flat_map]. apply Forall_app. split; [|exact IH].
    escape_cases x; repeat constructor; lia.
  - induction s as [|x s IH]; intros pre post H.
    + destruct pre; discriminate.
    + cbn [flat_map] in H. unfold entityTails.
      change (str "amp;") with [97; 109; 112; 59].
      change (str "lt;") with [108; 116; 59].
      change (str "gt;") with [103; 116; 59].
      change (str "quot;") with [113; 117; 111; 116; 59].
      change (str "#039;") with [35; 48; 51; 57; 59].
      unfold entityTails in IH.
      change (str "amp;") with [97; 109; 112; 59] in IH.
      change (str "lt;") with [108; 116; 59] in IH.
      change (str "gt;") with [103; 116; 59] in IH.
      change (str "quot;") with [113; 117; 111; 116; 59] in IH.
      change (str "#039;") with [35; 48; 51; 57; 59] in IH.
      escape_cases x; cbn [app] in H;
        repeat (destruct pre as [|? pre]; cbn [app] in H;
                [injection H; intros; subst;
                 first
                   [ lia
                   | exists [97; 109; 112; 59]; eexists; split;
                     [cbn; auto 10|reflexivity]
                   | exists [108; 116; 59]; eexists; split;
                     [cbn; auto 10|reflexivity]
                   | exists [103; 116; 59]; eexists; split;
                     [cbn; auto 10|reflexivity]
                   | exists [113; 117; 111; 116; 59]; eexists; split;
                     [cbn; auto 10|reflexivity]
                   | exists [35; 48; 51; 57; 59]; eexists; split;
                     [cbn; auto 10|reflexivity] ]
                |injection H; clear H; intros H; intros; subst]);
        try (eapply IH; eassumption).
Qed.

(** X2.  [escapeHtml] loses nothing: different texts have different
    escaped texts. *)
Theorem escapeHtml_injective (a b : jsstring) :
  escapeHtml a = escapeHtml b -> a = b.
Proof.
  rewrite !escapeHtml_units. revert b.
  induction a as [|x a IH]; intros [|y b] H; cbn [flat_map] in H.
  - reflexivity.
  - escape_cases y; discriminate.
  - escape_cases x; discriminate.
  - escape_cases x; escape_cases y; cbn [app] in H;
      first
        [ discriminate H
        | injection H; intros; subst;
          first [lia | f_equal; apply IH; assumption] ].
Qed.

(** X3.  [escapeHtml] works unit by unit: the escaped text of a
    concatenation is the concatenation of the escaped texts, and a text
    without [&], [<], [>] and quotes is left as it is. *)
Theorem escapeHtml_app (a b : jsstring) :
  escapeHtml (a ++ b) = escapeHtml a ++ escapeHtml b
  /\ (Forall (fun c => c <> 38 /\ c <> 60 /\ c <> 62 /\ c <> 34 /\ c <> 39) a ->
      escapeHtml a = a).
Proof.
  rewrite !escapeHtml_units. split.
  - apply flat_map_app.
  - induction 1 as [|x a Hx _ IH]; [reflexivity|].
    cbn [flat_map]. rewrite IH.
    escape_cases x; try lia. reflexivity.
Qed.

Lemma escapeHtml_app_witness :
  escapeHtml (str "Tom") = str "Tom".
Proof.
  apply (escapeHtml_app (str "Tom") []).
  repeat constructor; discriminate.
Defined.

Lemma escapeHtml_injective_witness : str "a<b" = str "a<b".
Proof.
  apply (escapeHtml_injective (str "a<b") (str "a<b")). reflexivity.
Defined.

Lemma escapeHtml_safe_witness :
  exists tail rest,
    In tail entityTails /\ str "amp; Co" = tail ++ rest.
Proof.
  apply (proj2 (escapeHtml_safe (str "R&D & Co")) (str "R&amp;D ")).
  vm_compute. reflexivity.
Defined.

(** ** Numbers as strings *)

Lemma decimalK_length (k : nat) : forall n, length (decimalK k n) = k.
Proof.
  induction k as [|k IH]; intros n; [reflexivity|].
  cbn [decimalK]. rewrite length_app, IH. cbn. lia.
Qed.

Lemma isDigit_of_mod (n : Z) : isDigit (48 + n mod 10) = true.
Proof.
  pose proof (Z.mod_pos_bound n 10 ltac:(lia)).
  unfold isDigit, between. apply andb_true_intro. split; apply Z.leb_le; lia.
Qed.

Lemma decimalK_digits (k : nat) :
  forall n, Forall (fun c => isDigit c = true) (decimalK k n).
Proof.
  induction k as [|k IH]; intros n; [constructor|].
  cbn [decimalK]. apply Forall_app. split; [apply IH|].
  constructor; [apply isDigit_of_mod|constructor].
Qed.

Lemma digitsValue_snoc (a : jsstring) (d : Z) :
  Forall (fun c => isDigit c = true) a -> isDigit d = true ->
  forall acc, digitsValue acc (a ++ [d]) = 10 * digitsValue acc a + (d - 48).
Proof.
  intros Ha Hd. induction Ha as [|c a Hc _ IH]; intros acc.
  - cbn. rewrite Hd. reflexivity.
  - cbn [app digitsValue]. rewrite Hc. apply IH.
Qed.

(** Read back, [k] digits give the number modulo [10 ^ k]. *)
Lemma decimalK_value (k : nat) :
  forall n, 0 <= n ->
    digitsValue 0 (decimalK k n) = n mod 10 ^ Z.of_nat k.
Proof.
  induction k as [|k IH]; intros n Hn.
  - cbn. rewrite Z.mod_1_r. reflexivity.
  - cbn [decimalK].
    rewrite digitsValue_snoc by (apply decimalK_digits || apply isDigit_of_mod).
    rewrite IH by (apply Z.div_pos; lia).
    rewrite Nat2Z.inj_succ, Z.pow_succ_r by lia.
    assert (0 < 10 ^ Z.of_nat k) by (apply Z.pow_pos_nonneg; lia).
    rewrite (Z.rem_mul_r n 10 (10 ^ Z.of_nat k)) by lia. lia.
Qed.

(** With fuel for its digits, [digitsFrom] writes the digits of [n],
    as many as [n] has. *)
Lemma digitsFrom_decimalK (fuel : nat) :
  forall n acc, 0 <= n < 2 ^ Z.of_nat fuel -> (1 <= fuel)%nat ->
    exists k, (1 <= k)%nat
      /\ digitsFrom fuel n acc = decimalK k n ++ acc
      /\ n < 10 ^ Z.of_nat k
      /\ (k = 1%nat \/ 10 ^ (Z.of_nat k - 1) <= n).
Proof.
  induction fuel as [|fuel IH]; intros n acc Hn Hf; [lia|].
  cbn [digitsFrom]. destruct (Z.eqb_spec (n / 10) 0) as [Hq|Hq].
  - exists 1%nat. cbn [decimalK app].
    repeat split; auto.
    change (10 ^ Z.of_nat 1) with 10. Z.div_mod_to_equations. lia.
  - assert (10 <= n) as H10 by (Z.div_mod_to_equations; lia).
    rewrite Nat2Z.inj_succ, Z.pow_succ_r in Hn by lia.
    assert (1 <= fuel)%nat as Hf'.
    { destruct fuel; [cbn in Hn; lia|lia]. }
    destruct (IH (n / 10) ((48 + n mod 10) :: acc)) as (k & Hk & Heq & Hlt & Hge);
      [Z.div_mod_to_equations; lia|assumption|].
    exists (S k). cbn [decimalK]. rewrite <- app_assoc. cbn [app].
    repeat split; [lia|assumption| |right].
    + rewrite Nat2Z.inj_succ, Z.pow_succ_r by lia.
      Z.div_mod_to_equations. lia.
    + replace (Z.of_nat (S k) - 1) with (Z.of_nat k) by lia.
      destruct Hge as [->|Hge].
      * change (10 ^ Z.of_nat 1) with 10. lia.
      * replace (Z.of_nat k) with (Z.succ (Z.of_nat k - 1)) by lia.
        rewrite Z.pow_succ_r by lia. Z.div_mod_to_equations. lia.
Qed.

(** [String(n)] of a natural number is its digits, without a leading
    zero. *)
Lemma naturalToString_decimalK (n : Z) :
  0 <= n ->
  exists k, (1 <= k)%nat
    /\ naturalToString n = decimalK k n
    /\ n < 10 ^ Z.of_nat k
    /\ (k = 1%nat \/ 10 ^ (Z.of_nat k - 1) <= n).
Proof.
  intros Hn. unfold naturalToString.
  destruct (digitsFrom_decimalK (S (Z.to_nat (Z.log2 n))) n [])
    as (k & Hk & Heq & Hlt & Hge); [|lia|].
  - split; [assumption|].
    rewrite Nat2Z.inj_succ, Z2Nat.id by apply Z.log2_nonneg.
    destruct (Z.eq_dec n 0) as [->|Hne]; [reflexivity|].
    apply Z.log2_spec. lia.
  - exists k. rewrite app_nil_r in Heq. auto.
Qed.

Lemma pow10_ge (k : nat) (m : Z) :
  0 <= m <= Z.of_nat k - 1 -> 10 ^ m <= 10 ^ (Z.of_nat k - 1).
Proof.
  intros H. apply Z.pow_le_mono_r; lia.
Qed.

(** A number of at most two digits, padded to two. *)
Lemma pad_two (n : Z) :
  0 <= n <= 99 ->
  padStart 2 (str "0") (numberToString (Some n)) = decimalK 2 n.
Proof.
  intros Hn. cbn [numberToString].
  destruct (Z.ltb_spec n 0); [lia|].
  destruct (naturalToString_decimalK n ltac:(lia)) as (k & Hk & -> & Hlt & Hge).
  destruct k as [|[|[|k]]]; [lia| | |].
  - (* one digit *)
    assert (n < 10) by (change (10 ^ Z.of_nat 1) with 10 in Hlt; lia).
    unfold padStart. rewrite decimalK_length. cbn [Nat.leb isEmpty str].
    cbn. rewrite (Z.div_small n 10) by lia. reflexivity.
  - unfold padStart. rewrite decimalK_length. reflexivity.
  - destruct Hge as [Hge|Hge]; [lia|].
    pose proof (pow10_ge (S (S (S k))) 2 ltac:(lia)) as Hp.
    change (10 ^ 2) with 100 in Hp. lia.
Qed.

(** A year of four digits. *)
Lemma year_four (y : Z) :
  1000 <= y <= 9999 -> numberToString (Some y) = decimalK 4 y.
Proof.
  intros Hy. cbn [numberToString].
  destruct (Z.ltb_spec y 0); [lia|].
  destruct (naturalToString_decimalK y ltac:(lia)) as (k & Hk & -> & Hlt & Hge).
  destruct k as [|[|[|[|[|k]]]]]; try reflexivity; try lia.
  destruct Hge as [Hge|Hge]; [lia|].
  pose proof (pow10_ge (S (S (S (S (S k))))) 4 ltac:(lia)) as Hp.
  change (10 ^ 4) with 10000 in Hp. lia.
Qed.

(** [parseInt] reads [k] digits back. *)
Lemma parseInt_decimalK (k : nat) (n : Z) :
  (1 <= k)%nat -> 0 <= n < 10 ^ Z.of_nat k ->
  parseInt (decimalK k n) = Some n.
Proof.
  intros Hk Hn.
  rewrite parseInt_digits.
  - rewrite decimalK_value, Z.mod_small by lia. reflexivity.
  - apply decimalK_digits.
  - intros H. apply (f_equal (@length Z)) in H.
    rewrite decimalK_length in H. cbn in H. lia.
Qed.

(** ** formatLocalDateTime *)

Lemma DateFromTime_range (t : Z) : 1 <= DateFromTime t <= 31.
Proof.
  pose proof (YearFromTime_spec t) as Hy.
  rewrite DaysInYear_step in Hy.
  unfold DateFromTime, MonthFromTime, InLeapYear, DayWithinYear.
  set (d := Day t - DayFromYear (YearFromTime t)).
  assert (0 <= d < DaysInYear (YearFromTime t)) as Hd by (subst d; lia).
  destruct (leap_cases (YearFromTime t)) as [[Hl Hn]|[Hl Hn]];
    rewrite Hl; rewrite Hn in Hd; clearbody d; clear Hy Hl Hn;
    unfold monthOfDay;
    repeat match goal with
    | |- context [d <? ?b] =>
        destruct (Z.ltb_spec d b); [unfold monthStart; cbn; lia|]
    end;
    unfold monthStart; cbn; lia.
Qed.

(** The string of a date, by its local fields. *)
Lemma formatLocalDateTime_fields (tza t : Z) :
  formatLocalDateTime tza (Some t)
  = numberToString (Some (YearFromTime (LocalTime tza t)))
    ++ str "-" ++ decimalK 2 (MonthFromTime (LocalTime tza t) + 1)
    ++ str "-" ++ decimalK 2 (DateFromTime (LocalTime tza t))
    ++ str "T" ++ decimalK 2 (HourFromTime (LocalTime tza t))
    ++ str ":" ++ decimalK 2 (MinFromTime (LocalTime tza t))
    ++ str ":" ++ decimalK 2 (SecFromTime (LocalTime tza t)).
Proof.
  unfold formatLocalDateTime.
  cbn [getFullYear getMonth getDate getHours getMinutes getSeconds bind plus].
  pose proof (MonthFromTime_range (LocalTime tza t)).
  pose proof (DateFromTime_range (LocalTime tza t)).
  assert (0 <= HourFromTime (LocalTime tza t) < 24)
    by (unfold HourFromTime; apply Z.mod_pos_bound; lia).
  assert (0 <= MinFromTime (LocalTime tza t) < 60)
    by (unfold MinFromTime; apply Z.mod_pos_bound; lia).
  assert (0 <= SecFromTime (LocalTime tza t) < 60)
    by (unfold SecFromTime; apply Z.mod_pos_bound; lia).
  rewrite !pad_two by lia. reflexivity.
Qed.

(** X4.  For a date in the years 1000 to 9999 the string is
    YYYY-MM-DDTHH:MM:SS, 19 code units, and each group of digits reads
    back as the local field it was written from (the month as month
    number 1..12). *)
Theorem formatLocalDateTime_shape (tza t : Z) :
  1000 <= YearFromTime (LocalTime tza t) <= 9999 ->
  exists yyyy mm dd hh mi ss,
    formatLocalDateTime tza (Some t)
    = yyyy ++ str "-" ++ mm ++ str "-" ++ dd ++ str "T"
      ++ hh ++ str ":" ++ mi ++ str ":" ++ ss
    /\ length (formatLocalDateTime tza (Some t)) = 19%nat
    /\ digitString 4 4 yyyy /\ parseInt yyyy = getFullYear tza (Some t)
    /\ digitString 2 2 mm
    /\ parseInt mm = plus (getMonth tza (Some t)) (Some 1)
    /\ digitString 2 2 dd /\ parseInt dd = getDate tza (Some t)
    /\ digitString 2 2 hh /\ parseInt hh = getHours tza (Some t)
    /\ digitString 2 2 mi /\ parseInt mi = getMinutes tza (Some t)
    /\ digitString 2 2 ss /\ parseInt ss = getSeconds tza (Some t).
Proof.
  intros Hy. rewrite formatLocalDateTime_fields, (year_four _ Hy).
  cbn [getFullYear getMonth getDate getHours getMinutes getSeconds bind plus].
  pose proof (MonthFromTime_range (LocalTime tza t)).
  pose proof (DateFromTime_range (LocalTime tza t)).
  assert (0 <= HourFromTime (LocalTime tza t) < 24)
    by (unfold HourFromTime; apply Z.mod_pos_bound; lia).
  assert (0 <= MinFromTime (LocalTime tza t) < 60)
    by (unfold MinFromTime; apply Z.mod_pos_bound; lia).
  assert (0 <= SecFromTime (LocalTime tza t) < 60)
    by (unfold SecFromTime; apply Z.mod_pos_bound; lia).
  do 6 eexists. split; [reflexivity|]. split.
  { rewrite !length_app, !decimalK_length. reflexivity. }
  change (10 ^ Z.of_nat 2) with 100.
  repeat split;
    try apply decimalK_digits;
    try (rewrite decimalK_length; lia);
    try (apply parseInt_decimalK; [lia|]);
    try (change (10 ^ Z.of_nat 2) with 100);
    try (change (10 ^ Z.of_nat 4) with 10000); lia.
Qed.

Lemma app_inj_same_length {A} (a b x y : list A) :
  length a = length b -> a ++ x = b ++ y -> a = b /\ x = y.
Proof.
  revert b. induction a as [|u a IH]; intros [|v b] Hlen H;
    try discriminate Hlen.
  - auto.
  - cbn in H, Hlen. injection H as -> H. injection Hlen as Hlen.
    destruct (IH b Hlen H) as [-> ->]. auto.
Qed.

Lemma decimalK_inj (k : nat) (a b : Z) :
  0 <= a < 10 ^ Z.of_nat k -> 0 <= b < 10 ^ Z.of_nat k ->
  decimalK k a = decimalK k b -> a = b.
Proof.
  intros Ha Hb H. apply (f_equal (digitsValue 0)) in H.
  rewrite !decimalK_value in H by lia.
  rewrite !Z.mod_small in H by lia. exact H.
Qed.

(** The digits of a natural number start with a digit. *)
Lemma decimalK_head (k : nat) (n : Z) :
  (1 <= k)%nat ->
  exists c rest, decimalK k n = c :: rest /\ 48 <= c <= 57.
Proof.
  intros Hk. pose proof (decimalK_digits k n) as Hd.
  pose proof (decimalK_length k n) as Hl.
  destruct (decimalK k n) as [|c rest]; [cbn in Hl; lia|].
  exists c, rest. split; [reflexivity|].
  apply isDigit_range. exact (Forall_inv Hd).
Qed.

Lemma naturalToString_inj (a b : Z) :
  0 <= a -> 0 <= b -> naturalToString a = naturalToString b -> a = b.
Proof.
  intros Ha Hb H.
  destruct (naturalToString_decimalK a Ha) as (ka & _ & Ea & La & _).
  destruct (naturalToString_decimalK b Hb) as (kb & _ & Eb & Lb & _).
  rewrite Ea, Eb in H.
  assert (ka = kb) as ->.
  { apply (f_equal (@length Z)) in H. rewrite !decimalK_length in H. exact H. }
  apply (decimalK_inj kb); auto.
Qed.

(** [String] tells integers apart. *)
Lemma numberToString_inj (a b : Z) :
  numberToString (Some a) = numberToString (Some b) -> a = b.
Proof.
  cbn [numberToString].
  destruct (Z.ltb_spec a 0) as [Ha|Ha], (Z.ltb_spec b 0) as [Hb|Hb]; intros H.
  - injection H as H. apply naturalToString_inj in H; lia.
  - destruct (naturalToString_decimalK b Hb) as (k & Hk & E & _).
    destruct (decimalK_head k b Hk) as (c & rest & Ec & Hc).
    rewrite E, Ec in H. injection H as H _. lia.
  - destruct (naturalToString_decimalK a Ha) as (k & Hk & E & _).
    destruct (decimalK_head k a Hk) as (c & rest & Ec & Hc).
    rewrite E, Ec in H. injection H as H _. lia.
  - apply naturalToString_inj; assumption.
Qed.

(** The string of an integer does not start with N. *)
Lemma numberToString_head (a : Z) :
  exists c rest, numberToString (Some a) = c :: rest /\ c <> 78.
Proof.
  cbn [numberToString]. destruct (Z.ltb_spec a 0) as [Ha|Ha].
  - do 2 eexists. split; [reflexivity|lia].
  - destruct (naturalToString_decimalK a Ha) as (k & Hk & E & _).
    destruct (decimalK_head k a Hk) as (c & rest & Ec & Hc).
    exists c, rest. rewrite E, Ec. split; [reflexivity|lia].
Qed.

(** The calendar fields and the time of day, by the second. *)
Lemma fields_of_second (l1 l2 : Z) :
  l1 / 1000 = l2 / 1000 ->
  YearFromTime l1 = YearFromTime l2
  /\ MonthFromTime l1 = MonthFromTime l2
  /\ DateFromTime l1 = DateFromTime l2
  /\ HourFromTime l1 = HourFromTime l2
  /\ MinFromTime l1 = MinFromTime l2
  /\ SecFromTime l1 = SecFromTime l2.
Proof.
  intros H.
  assert (Day l1 = Day l2) as Hday.
  { unfold Day, msPerDay. change 86400000 with (1000 * 86400).
    rewrite <- !Z.div_div by lia. rewrite H. reflexivity. }
  assert (YearFromTime l1 = YearFromTime l2) as Hy
    by (unfold YearFromTime; rewrite Hday; reflexivity).
  assert (DayWithinYear l1 = DayWithinYear l2) as Hd
    by (unfold DayWithinYear; rewrite Hday, Hy; reflexivity).
  assert (InLeapYear l1 = InLeapYear l2) as Hl
    by (unfold InLeapYear; rewrite Hy; reflexivity).
  assert (MonthFromTime l1 = MonthFromTime l2) as Hm
    by (unfold MonthFromTime; rewrite Hd, Hl; reflexivity).
  repeat split; try assumption.
  - unfold DateFromTime. rewrite Hd, Hm, Hl. reflexivity.
  - unfold HourFromTime, msPerHour. change 3600000 with (1000 * 3600).
    rewrite <- !Z.div_div by lia. rewrite H. reflexivity.
  - unfold MinFromTime, msPerMinute. change 60000 with (1000 * 60).
    rewrite <- !Z.div_div by lia. rewrite H. reflexivity.
  - unfold SecFromTime, msPerSecond. rewrite H. reflexivity.
Qed.

Lemma second_of_fields (l1 l2 : Z) :
  YearFromTime l1 = YearFromTime l2 ->
  MonthFromTime l1 = MonthFromTime l2 ->
  DateFromTime l1 = DateFromTime l2 ->
  HourFromTime l1 = HourFromTime l2 ->
  MinFromTime l1 = MinFromTime l2 ->
  SecFromTime l1 = SecFromTime l2 ->
  l1 / 1000 = l2 / 1000.
Proof.
  intros Hy Hm Hd Hh Hmi Hs.
  pose proof (Day_fields l1) as D1. pose proof (Day_fields l2) as D2.
  rewrite Hy, Hm, Hd in D1. rewrite <- D2 in D1.
  pose proof (time_fields l1) as T1. pose proof (time_fields l2) as T2.
  rewrite D1, Hh, Hmi, Hs in T1.
  unfold MakeDate, MakeTime, msFromTime in T1, T2. unfold_ms.
  Z.div_mod_to_equations. lia.
Qed.

(** Dates with the same string are in the same second of local time. *)
Lemma formatLocalDateTime_second (tza t1 t2 : Z) :
  formatLocalDateTime tza (Some t1) = formatLocalDateTime tza (Some t2) ->
  LocalTime tza t1 / 1000 = LocalTime tza t2 / 1000.
Proof.
  rewrite !formatLocalDateTime_fields.
  intros H.
  pose proof (MonthFromTime_range (LocalTime tza t1)).
  pose proof (MonthFromTime_range (LocalTime tza t2)).
  pose proof (DateFromTime_range (LocalTime tza t1)).
  pose proof (DateFromTime_range (LocalTime tza t2)).
  assert (forall t, 0 <= HourFromTime t < 24) as RH
    by (intros; unfold HourFromTime; apply Z.mod_pos_bound; lia).
  assert (forall t, 0 <= MinFromTime t < 60) as RM
    by (intros; unfold MinFromTime; apply Z.mod_pos_bound; lia).
  assert (forall t, 0 <= SecFromTime t < 60) as RS
    by (intros; unfold SecFromTime; apply Z.mod_pos_bound; lia).
  pose proof (RH (LocalTime tza t1)). pose proof (RH (LocalTime tza t2)).
  pose proof (RM (LocalTime tza t1)). pose proof (RM (LocalTime tza t2)).
  pose proof (RS (LocalTime tza t1)). pose proof (RS (LocalTime tza t2)).
  assert (length (numberToString (Some (YearFromTime (LocalTime tza t1))))
          = length (numberToString (Some (YearFromTime (LocalTime tza t2)))))
    as Hlen.
  { apply (f_equal (@length Z)) in H.
    change (str "-") with [45] in H. change (str "T") with [84] in H.
    change (str ":") with [58] in H.
    rewrite !length_app, !decimalK_length in H. cbn [length] in H. lia. }
  apply app_inj_same_length in H as [Hy H]; [|exact Hlen].
  apply numberToString_inj in Hy.
  apply app_inv_head in H.
  repeat match type of H with
  | decimalK 2 ?a ++ _ = decimalK 2 ?b ++ _ =>
      let E := fresh "E" in
      apply app_inj_same_length in H as [E H];
      [apply (decimalK_inj 2) in E;
       [|change (10 ^ Z.of_nat 2) with 100; lia
        |change (10 ^ Z.of_nat 2) with 100; lia]
      |rewrite !decimalK_length; reflexivity];
      apply app_inv_head in H
  end.
  apply (decimalK_inj 2) in H;
    [|change (10 ^ Z.of_nat 2) with 100; lia
     |change (10 ^ Z.of_nat 2) with 100; lia].
  apply second_of_fields; lia.
Qed.

(** X5.  [formatLocalDateTime] keeps a date to the second and no
    further: two dates have the same string exactly when both are
    invalid or both are valid and in the same second of local time. *)
Theorem formatLocalDateTime_same_second (tza : Z) (d1 d2 : Date) :
  formatLocalDateTime tza d1 = formatLocalDateTime tza d2
  <-> match d1, d2 with
      | Some t1, Some t2 => LocalTime tza t1 / 1000 = LocalTime tza t2 / 1000
      | None, None => True
      | _, _ => False
      end.
Proof.
  destruct d1 as [t1|], d2 as [t2|].
  - split.
    + apply formatLocalDateTime_second.
    + intros H. rewrite !formatLocalDateTime_fields.
      apply fields_of_second in H as (-> & -> & -> & -> & -> & ->).
      reflexivity.
  - split; [|intros []].
    rewrite formatLocalDateTime_fields.
    destruct (numberToString_head (YearFromTime (LocalTime tza t1)))
      as (c & rest & -> & Hc).
    intros H. injection H as H _. apply Hc. exact H.
  - split; [|intros []].
    rewrite formatLocalDateTime_fields.
    destruct (numberToString_head (YearFromTime (LocalTime tza t2)))
      as (c & rest & -> & Hc).
    intros H. injection H as H _. symmetry in H. apply Hc. exact H.
  - split; auto.
Qed.

Lemma formatLocalDateTime_shape_witness :
  length (formatLocalDateTime cet (Some (clock host2026))) = 19%nat.
Proof.
  destruct (formatLocalDateTime_shape cet (clock host2026))
    as (y & mo & d & hh & mi & ss & _ & Hlen & _).
  - split; apply Z.leb_le; reflexivity.
  - exact Hlen.
Defined.

Lemma formatLocalDateTime_same_second_witness :
  formatLocalDateTime cet (Some 1000) = formatLocalDateTime cet (Some 1999).
Proof.
  apply (formatLocalDateTime_same_second cet (Some 1000) (Some 1999)).
  reflexivity.
Defined.

(** X6.  The year is written as it is, without padding: for a date in a
    year from 0 on, the string has the 19 code units of
    YYYY-MM-DDTHH:MM:SS exactly when the year has four digits. *)
Theorem formatLocalDateTime_length (tza t : Z) :
  0 <= YearFromTime (LocalTime tza t) ->
  (length (formatLocalDateTime tza (Some t)) = 19%nat
   <-> 1000 <= YearFromTime (LocalTime tza t) <= 9999).
Proof.
  intros Hy. split.
  - rewrite formatLocalDateTime_fields.
    change (str "-") with [45]. change (str "T") with [84].
    change (str ":") with [58].
    rewrite !length_app, !decimalK_length. cbn [length numberToString].
    destruct (Z.ltb_spec (YearFromTime (LocalTime tza t)) 0); [lia|].
    destruct (naturalToString_decimalK _ Hy) as (k & Hk & -> & Hlt & Hge).
    rewrite decimalK_length. intros Hlen.
    assert (k = 4%nat) as -> by lia.
    change (10 ^ Z.of_nat 4) with 10000 in Hlt.
    change (10 ^ (Z.of_nat 4 - 1)) with 1000 in Hge.
    destruct Hge; [discriminate|lia].
  - intros Hr. rewrite formatLocalDateTime_fields, (year_four _ Hr).
    rewrite !length_app, !decimalK_length. reflexivity.
Qed.

Lemma formatLocalDateTime_length_witness :
  length (formatLocalDateTime 0 (Some (at_ 0 202 1 24 9 0))) <> 19%nat.
Proof.
  intros H.
  apply (formatLocalDateTime_length 0 (at_ 0 202 1 24 9 0)) in H.
  - vm_compute in H. destruct H as [H _]. apply H. reflexivity.
  - vm_compute. discriminate.
Defined.

(** ** The API key *)

Lemma eqbString_eq (a b : jsstring) : eqbString a b = true <-> a = b.
Proof.
  revert b. induction a as [|x a IH]; intros [|y b]; cbn [eqbString];
    try (split; [discriminate|discriminate]); [split; reflexivity|].
  rewrite andb_true_iff, Z.eqb_eq, IH. split.
  - intros [-> ->]. reflexivity.
  - intros H. injection H as -> ->. auto.
Qed.

(** The answer, by the key that the request carries. *)
Lemma requireApiKey_cases (API_KEY : jsstring) (req : Request) :
  requireApiKey API_KEY req
  = if isEmpty API_KEY then Next
    else
      match
        match headers req (str "x-api-key") with
        | Some (c :: k) => Some (c :: k)
        | _ => option_map (replaceFirst re_bearer [])
                 (headers req (str "authorization"))
        end
      with
      | Some k =>
          if eqbString k API_KEY then Next
          else Respond 401 (str "Unauthorized")
      | None => Respond 401 (str "Unauthorized")
      end.
Proof.
  unfold requireApiKey, header.
  change (toLowerCase (str "x-api-key")) with (str "x-api-key").
  change (toLowerCase (str "X-Api-Key")) with (str "x-api-key").
  change (toLowerCase (str "authorization")) with (str "authorization").
  destruct API_KEY as [|c K]; [reflexivity|]. cbn [isEmpty].
  unfold or_.
  destruct (headers req (str "x-api-key")) as [[|x k]|]; cbn [truthy].
  - destruct (headers req (str "authorization")) as [a|]; cbn [option_map];
      [|reflexivity].
    destruct (replaceFirst re_bearer [] a) as [|y k'];
      cbn [truthy negb orb]; [reflexivity|].
    destruct (eqbString (y :: k') (c :: K)); reflexivity.
  - cbn [negb orb]. destruct (eqbString (x :: k) (c :: K)); reflexivity.
  - destruct (headers req (str "authorization")) as [a|]; cbn [option_map];
      [|reflexivity].
    destruct (replaceFirst re_bearer [] a) as [|y k'];
      cbn [truthy negb orb]; [reflexivity|].
    destruct (eqbString (y :: k') (c :: K)); reflexivity.
Qed.

Lemma eqbString_refl (a : jsstring) : eqbString a a = true.
Proof. apply eqbString_eq. reflexivity. Qed.

(** X7.  With a key configured, a request passes exactly when its
    x-api-key header is the key, or it has no x-api-key header (or an
    empty one) and its Authorization header, without a leading Bearer
    scheme, is the key.  With no key configured every request passes. *)
Theorem requireApiKey_passes (API_KEY : jsstring) (req : Request) :
  requireApiKey API_KEY req = Next
  <-> API_KEY = []
      \/ headers req (str "x-api-key") = Some API_KEY
      \/ (truthy (headers req (str "x-api-key")) = false
          /\ exists a, headers req (str "authorization") = Some a
                       /\ replaceFirst re_bearer [] a = API_KEY).
Proof.
  rewrite requireApiKey_cases.
  destruct API_KEY as [|c K]; cbn [isEmpty]; [split; auto|].
  destruct (headers req (str "x-api-key")) as [[|x k]|] eqn:Hx; cbn [truthy].
  - destruct (headers req (str "authorization")) as [a|]; cbn [option_map].
    + destruct (eqbString (replaceFirst re_bearer [] a) (c :: K)) eqn:He.
      * apply eqbString_eq in He. split; [|reflexivity].
        intros _. right. right. split; [reflexivity|]. eauto.
      * split; [discriminate|].
        intros [H|[H|[_ (a' & H & He')]]]; try discriminate.
        injection H as <-. rewrite He', eqbString_refl in He. discriminate.
    + split; [discriminate|].
      intros [H|[H|[_ (a' & H & _)]]]; discriminate.
  - destruct (eqbString (x :: k) (c :: K)) eqn:He.
    + apply eqbString_eq in He. rewrite He. split; auto.
    + split; [discriminate|].
      intros [H|[H|[H _]]]; try discriminate.
      injection H as -> ->. rewrite eqbString_refl in He. discriminate.
  - destruct (headers req (str "authorization")) as [a|]; cbn [option_map].
    + destruct (eqbString (replaceFirst re_bearer [] a) (c :: K)) eqn:He.
      * apply eqbString_eq in He. split; [|reflexivity].
        intros _. right. right. split; [reflexivity|]. eauto.
      * split; [discriminate|].
        intros [H|[H|[_ (a' & H & He')]]]; try discriminate.
        injection H as <-. rewrite He', eqbString_refl in He. discriminate.
    + split; [discriminate|].
      intros [H|[H|[_ (a' & H & _)]]]; discriminate.
Qed.

Lemma requireApiKey_passes_witness :
  requireApiKey (str "s3cret")
    {| headers := fun n =>
         if eqbString n (str "x-api-key") then Some (str "s3cret") else None |}
  = Next.
Proof.
  apply requireApiKey_passes. right. left. reflexivity.
Defined.

(** A greedy repetition takes a whole run of the class when what
    follows the run matches. *)
Lemma rep_greedy {R} (p : Z -> bool) (lo : nat) (ws K : jsstring)
    (k : option Z -> jsstring -> option R) (x : R) :
  Forall (fun c => p c = true) ws ->
  match K with c :: _ => p c = false | [] => True end ->
  forall n prev,
    (lo <= n + length ws)%nat ->
    k (lastOr prev ws) K = Some x ->
    rep p lo None n prev (ws ++ K) k = Some x.
Proof.
  intros Hws HK. induction Hws as [|w ws Hw _ IH]; intros n prev Hlo Hk.
  - cbn [app length] in *. rewrite Nat.add_0_r in Hlo.
    apply Nat.leb_le in Hlo.
    destruct K as [|c K]; cbn [rep]; [rewrite Hlo; exact Hk|].
    rewrite HK, Hlo. exact Hk.
  - cbn [app rep belowMax]. rewrite Hw. cbn [andb].
    rewrite (IH (S n) (Some w)); [reflexivity| |].
    + cbn [length] in Hlo. lia.
    + rewrite lastOr_cons with (prev := prev). exact Hk.
Qed.

(** The Bearer scheme, in any case, and the white space after it are
    cut off a header. *)
Lemma replaceFirst_bearer (scheme ws K : jsstring) :
  map canonicalize scheme = map canonicalize (str "Bearer") ->
  ws <> [] -> Forall (fun c => isSpace c = true) ws ->
  match K with c :: _ => isSpace c = false | [] => True end ->
  replaceFirst re_bearer [] (scheme ++ ws ++ K) = K.
Proof.
  intros Hs Hne Hws HK.
  assert (matchHere re_bearer None (scheme ++ ws ++ K)
          = Some (lastOr (Some 0) ws, K, [])) as Hm.
  { destruct scheme as [|x0 [|x1 [|x2 [|x3 [|x4 [|x5 [|x6 scheme]]]]]]];
      try discriminate Hs.
    injection Hs as H0 H1 H2 H3 H4 H5.
    unfold matchHere, re_bearer, word, spaces1.
    cbn [seq map str list_ascii_of_string app rmatch]. unfold ci.
    change (code "B") with 66. change (code "e") with 101.
    change (code "a") with 97. change (code "r") with 114.
    rewrite H0, H1, H2, H3, H4, H5, !Z.eqb_refl.
    apply rep_greedy; [assumption|assumption| |].
    - destruct ws; [congruence|cbn; lia].
    - destruct ws as [|w ws]; [congruence|].
      rewrite <- !lastOr_cons. reflexivity. }
  unfold replaceFirst, match_.
  destruct (scheme ++ ws ++ K) as [|c s] eqn:Hs';
    cbn [search]; rewrite Hm; cbn [index rest firstn app]; reflexivity.
Qed.

(** X8.  A request without an x-api-key header passes with
    [Authorization: Bearer <key>], the scheme in any letter case and
    followed by any white space, when the key does not itself start
    with white space. *)
Theorem requireApiKey_bearer (API_KEY scheme ws : jsstring) (req : Request) :
  truthy (headers req (str "x-api-key")) = false ->
  headers req (str "authorization") = Some (scheme ++ ws ++ API_KEY) ->
  map canonicalize scheme = map canonicalize (str "Bearer") ->
  ws <> [] -> Forall (fun c => isSpace c = true) ws ->
  match API_KEY with c :: _ => isSpace c = false | [] => True end ->
  requireApiKey API_KEY req = Next.
Proof.
  intros Hx Ha Hs Hne Hws HK.
  rewrite requireApiKey_cases, Ha.
  destruct API_KEY as [|c K]; [reflexivity|]. cbn [isEmpty option_map].
  rewrite replaceFirst_bearer by assumption.
  destruct (headers req (str "x-api-key")) as [[|x k]|];
    [|discriminate|]; rewrite eqbString_refl; reflexivity.
Qed.

Lemma requireApiKey_bearer_witness :
  requireApiKey (str "s3cret")
    {| headers := fun n =>
         if eqbString n (str "authorization")
         then Some (str "BEARER" ++ str "  " ++ str "s3cret") else None |}
  = Next.
Proof.
  apply (requireApiKey_bearer (str "s3cret") (str "BEARER") (str "  "));
    try reflexivity.
  - discriminate.
  - repeat constructor.
Defined.

(** X9.  With a key configured, a request is answered 401 Unauthorized
    when it has an x-api-key header that is not empty and not the key,
    whatever its Authorization header is, and when it has neither
    header. *)
Theorem requireApiKey_rejects (API_KEY : jsstring) (req : Request) :
  API_KEY <> [] ->
  (exists k, headers req (str "x-api-key") = Some k /\ k <> [] /\ k <> API_KEY)
  \/ (headers req (str "x-api-key") = None
      /\ headers req (str "authorization") = None) ->
  requireApiKey API_KEY req = Respond 401 (str "Unauthorized").
Proof.
  intros HK Hcase. rewrite requireApiKey_cases.
  destruct API_KEY as [|c K]; [congruence|]. cbn [isEmpty].
  destruct Hcase as [(k & -> & Hne & Hk)|[-> ->]]; [|reflexivity].
  destruct k as [|x k]; [congruence|].
  destruct (eqbString (x :: k) (c :: K)) eqn:He; [|reflexivity].
  apply eqbString_eq in He. congruence.
Qed.

Lemma requireApiKey_rejects_witness :
  requireApiKey (str "s3cret")
    {| headers := fun n =>
         if eqbString n (str "x-api-key") then Some (str "guess")
         else if eqbString n (str "authorization")
              then Some (str "Bearer s3cret") else None |}
  = Respond 401 (str "Unauthorized").
Proof.
  apply requireApiKey_rejects.
  - discriminate.
  - left. exists (str "guess"). repeat split; discriminate.
Defined.

(** ** The scopes of the OAuth URL *)

Lemma splitString_nonempty (sep : Z) (s : jsstring) :
  splitString sep s <> [].
Proof.
  destruct s as [|c s]; cbn [splitString]; [discriminate|].
  destruct (c =? sep); [discriminate|].
  destruct (splitString sep s); discriminate.
Qed.

Lemma splitString_app (sep : Z) (a b : jsstring) :
  splitString sep (a ++ sep :: b) = splitString sep a ++ splitString sep b.
Proof.
  induction a as [|c a IH].
  - cbn [app splitString]. rewrite Z.eqb_refl. reflexivity.
  - cbn [app splitString]. destruct (c =? sep); [rewrite IH; reflexivity|].
    rewrite IH. pose proof (splitString_nonempty sep a) as Hne.
    destruct (splitString sep a); [congruence|reflexivity].
Qed.

Lemma splitString_word (sep : Z) (w : jsstring) :
  Forall (fun c => c <> sep) w -> splitString sep w = [w].
Proof.
  induction 1 as [|c w Hc _ IH]; [reflexivity|].
  cbn [splitString]. destruct (Z.eqb_spec c sep); [contradiction|].
  rewrite IH. reflexivity.
Qed.

Lemma splitString_parts (sep : Z) (s : jsstring) :
  Forall (Forall (fun c => c <> sep)) (splitString sep s)
  /\ splitString sep s <> [].
Proof.
  induction s as [|c s [IH Hne]].
  - cbn. split; [repeat constructor|discriminate].
  - cbn [splitString]. destruct (Z.eqb_spec c sep).
    + split; [constructor; [constructor|assumption]|discriminate].
    + destruct (splitString sep s) as [|w ws]; [congruence|].
      split; [|discriminate].
      inversion IH; subst. constructor; [constructor|]; assumption.
Qed.

Lemma scopesOf_parts (a : jsstring) :
  Forall (fun w => w <> [] /\ Forall (fun c => c <> 32) w) (scopesOf a).
Proof.
  unfold scopesOf. destruct (splitString_parts 32 a) as [Hparts _].
  induction Hparts as [|w ws Hw _ IH]; [constructor|].
  cbn [filter]. destruct w; cbn [isEmpty negb]; [exact IH|].
  constructor; [|exact IH]. split; [discriminate|assumption].
Qed.

Lemma scopesOf_app (a b : jsstring) :
  scopesOf (a ++ 32 :: b) = scopesOf a ++ scopesOf b.
Proof.
  unfold scopesOf. rewrite splitString_app, filter_app. reflexivity.
Qed.

Lemma scopesOf_word (a : jsstring) :
  a <> [] -> Forall (fun c => c <> 32) a -> scopesOf a = [a].
Proof.
  unfold scopesOf. intros Hne Hall. rewrite splitString_word by assumption.
  destruct a; [congruence|reflexivity].
Qed.

(** X10.  The scopes asked for are the words of GOOGLE_SCOPES between
    its spaces, in order: none is empty or has a space, a word alone is
    one scope, and the scopes of two parts joined by a space are the
    scopes of the one followed by the scopes of the other, so that
    spaces at the ends or in a row add nothing. *)
Theorem scopesOf_words (a b : jsstring) :
  Forall (fun w => w <> [] /\ Forall (fun c => c <> 32) w) (scopesOf a)
  /\ scopesOf (a ++ 32 :: b) = scopesOf a ++ scopesOf b
  /\ (a <> [] -> Forall (fun c => c <> 32) a -> scopesOf a = [a])
  /\ scopesOf [] = [].
Proof.
  repeat split.
  - apply scopesOf_parts.
  - apply scopesOf_app.
  - apply scopesOf_word.
Qed.

Lemma scopesOf_words_witness :
  scopesOf (str "https://www.googleapis.com/auth/calendar.events")
  = [str "https://www.googleapis.com/auth/calendar.events"].
Proof.
  apply (scopesOf_words (str "https://www.googleapis.com/auth/calendar.events") []).
  - discriminate.
  - repeat constructor; discriminate.
Defined.

(** X11.  [getAuthUrl] writes a URL only for a client with three
    credentials that are not empty, and then for offline access with
    consent and the scopes of the configuration, the one scope of
    calendar events when GOOGLE_SCOPES is not set. *)
Theorem getAuthUrl_request
    (generateAuthUrl : OAuthClient -> AuthUrlOptions -> jsstring)
    (env : Env) (url : jsstring) :
  getAuthUrl generateAuthUrl env = Done url ->
  exists client options,
    url = generateAuthUrl client options
    /\ env (str "GOOGLE_CLIENT_ID") = Some (clientId client)
    /\ env (str "GOOGLE_CLIENT_SECRET") = Some (clientSecret client)
    /\ env (str "GOOGLE_REDIRECT_URI") = Some (redirectUri client)
    /\ clientId client <> [] /\ clientSecret client <> []
    /\ redirectUri client <> []
    /\ access_type options = str "offline"
    /\ prompt options = str "consent"
    /\ Forall (fun w => w <> [] /\ Forall (fun c => c <> 32) w) (scope options)
    /\ (env (str "GOOGLE_SCOPES") = None ->
        scope options
        = [str "https://www.googleapis.com/auth/calendar.events"]).
Proof.
  unfold getAuthUrl, isGoogleConfigured, buildOAuthClient, getGoogleConfig.
  cbn [GOOGLE_CLIENT_ID GOOGLE_CLIENT_SECRET GOOGLE_REDIRECT_URI GOOGLE_SCOPES].
  destruct (env (str "GOOGLE_CLIENT_ID")) as [[|c1 id]|];
    cbn [orDefault isEmpty negb andb]; try discriminate.
  destruct (env (str "GOOGLE_CLIENT_SECRET")) as [[|c2 secret]|];
    cbn [orDefault isEmpty negb andb]; try discriminate.
  destruct (env (str "GOOGLE_REDIRECT_URI")) as [[|c3 uri]|];
    cbn [orDefault isEmpty negb andb]; try discriminate.
  intros H. injection H as <-.
  do 2 eexists. split; [reflexivity|].
  cbn [clientId clientSecret redirectUri access_type prompt scope].
  repeat split; try discriminate.
  - apply scopesOf_parts.
  - intros ->. cbn [orDefault]. apply scopesOf_word.
    + discriminate.
    + repeat constructor; discriminate.
Qed.

Lemma getAuthUrl_request_witness :
  exists client options,
    str "https://cal.example/cb"
    = (fun c (o : AuthUrlOptions) => redirectUri c) client options
    /\ clientId client = str "id" /\ scope options
       = [str "https://www.googleapis.com/auth/calendar.events"].
Proof.
  destruct (getAuthUrl_request
              (fun c _ => redirectUri c)
              (envOf [(str "GOOGLE_CLIENT_ID", str "id");
                      (str "GOOGLE_CLIENT_SECRET", str "secret");
                      (str "GOOGLE_REDIRECT_URI", str "https://cal.example/cb")])
              (str "https://cal.example/cb"))
    as (client & options & Hurl & Hid & _ & _ & _ & _ & _ & _ & _ & _ & Hsc).
  - reflexivity.
  - exists client, options. split; [exact Hurl|]. split.
    + change (Some (str "id") = Some (clientId client)) in Hid.
      injection Hid as <-. reflexivity.
    + apply Hsc. reflexivity.
Defined.

(** ** The timestamps of the quick-add route *)

Lemma time_add_minutes (t m : Z) :
  SecFromTime (t + m * msPerMinute) = SecFromTime t.
Proof.
  unfold SecFromTime. unfold_ms.
  replace (t + m * 60000) with (t + (60 * m) * 1000) by lia.
  rewrite Z.div_add by lia.
  replace (t / 1000 + 60 * m) with (t / 1000 + m * 60) by lia.
  apply Z.mod_add. lia.
Qed.

(** Start and end of a proposal for a day named by keyword, or today,
    with a duration of a whole number of minutes. *)
Lemma proposal_times (h : Host) (input : jsstring)
    (defaultMinutes : JSNumber.number) (p : Parsed) (n : Z) :
  parseQuickText h input defaultMinutes = Ok p ->
  0 <= clock h <= 250000000000000 ->
  - msPerDay <= LocalTZA h <= msPerDay ->
  minutes p = JSNumber.Whole n ->
  n <= 1000000 ->
  test re_uebermorgen (toLowerCase (trim input)) = true
  \/ test re_morgen (toLowerCase (trim input)) = true
  \/ test re_heute (toLowerCase (trim input)) = true
  \/ match_ re_dm (trim input) = None ->
  exists s,
    start p = Some s
    /\ end_ p = Some (s + n * msPerMinute)
    /\ 0 < n
    /\ - msPerDay <= LocalTime (LocalTZA h) s < 250000000000000 + 4 * msPerDay
    /\ HourFromTime (LocalTime (LocalTZA h) s) = fst (timeOf (trim input))
    /\ MinFromTime (LocalTime (LocalTZA h) s) = snd (timeOf (trim input))
    /\ SecFromTime (LocalTime (LocalTZA h) s) = 0.
Proof.
  intros Hp Rc Rt Hn Rn Hk.
  destruct (start_valid h input defaultMinutes p Hp Rc Rt) as (s & Hs & Rs).
  destruct (start_local h input defaultMinutes p s Hp Hs)
    as (d & Hd & Hday & Hhh & Hmi & Hsec).
  pose proof (start_day_by_keyword h input defaultMinutes p s Hp Hs Hk) as Hdk.
  pose proof (parseQuickText_Ok h input defaultMinutes p Hp)
    as (_ & _ & Hm & _).
  assert (0 < n) as Hpos.
  { pose proof (duration_positive (trim input) defaultMinutes) as Hgt.
    rewrite <- Hm, Hn in Hgt. cbn [JSNumber.gt] in Hgt.
    apply Z.ltb_lt in Hgt. exact Hgt. }
  pose proof (end_of_start_whole h input defaultMinutes p s n Hp Hs Hn
                ltac:(lia)) as He.
  assert (- msPerDay <= LocalTime (LocalTZA h) s
          < 250000000000000 + 4 * msPerDay) as Rl.
  { pose proof (Day_bounds (LocalTime (LocalTZA h) s)) as B1.
    pose proof (Day_bounds (LocalTime (LocalTZA h) (clock h))) as B2.
    rewrite Hdk in B1. unfold LocalTime in *. unfold msPerDay in *.
    destruct (test re_uebermorgen (toLowerCase (trim input)));
      [lia|destruct (test re_morgen (toLowerCase (trim input))); lia]. }
  exists s. split; [exact Hs|]. split.
  { rewrite He. apply TimeClip_range. unfold msPerMinute. lia. }
  repeat split; try assumption; lia.
Qed.

(** X12.  What the quick-add route sends to Google, on a host in the
    years 1970 to 9892 with a constant zone offset of at most a day,
    for a text without a numeric date or with a day keyword and a
    duration of a whole number of at most a million minutes (every
    duration of a token is one): the start is written as a date of ten
    code units, T, and the two-digit hour and minute of the time found
    in the text with seconds 00; the end has the same form; and the two
    strings differ. *)
Theorem quickAdd_timestamps (h : Host) (input : jsstring)
    (defaultMinutes : JSNumber.number) (p : Parsed) (n : Z) :
  parseQuickText h input defaultMinutes = Ok p ->
  0 <= clock h <= 250000000000000 ->
  - msPerDay <= LocalTZA h <= msPerDay ->
  minutes p = JSNumber.Whole n ->
  n <= 1000000 ->
  test re_uebermorgen (toLowerCase (trim input)) = true
  \/ test re_morgen (toLowerCase (trim input)) = true
  \/ test re_heute (toLowerCase (trim input)) = true
  \/ match_ re_dm (trim input) = None ->
  exists date1 date2 time2,
    formatLocalDateTime (LocalTZA h) (start p)
    = date1 ++ str "T" ++ decimalK 2 (fst (timeOf (trim input)))
        ++ str ":" ++ decimalK 2 (snd (timeOf (trim input))) ++ str ":00"
    /\ formatLocalDateTime (LocalTZA h) (end_ p)
       = date2 ++ str "T" ++ time2 ++ str ":00"
    /\ length date1 = 10%nat /\ length date2 = 10%nat
    /\ length time2 = 5%nat
    /\ formatLocalDateTime (LocalTZA h) (start p)
       <> formatLocalDateTime (LocalTZA h) (end_ p).
Proof.
  intros Hp Rc Rt Hn Rn Hk.
  destruct (proposal_times h input defaultMinutes p n Hp Rc Rt Hn Rn Hk)
    as (s & Hs & He & Rm & Rl & Hhh & Hmi & Hsec).
  rewrite Hs, He.
  assert (LocalTime (LocalTZA h) (s + n * msPerMinute)
          = LocalTime (LocalTZA h) s + n * msPerMinute) as Hloc
    by (unfold LocalTime; lia).
  assert (formatLocalDateTime (LocalTZA h) (Some s)
          <> formatLocalDateTime (LocalTZA h)
               (Some (s + n * msPerMinute))) as Hne.
  { intros Hf. apply formatLocalDateTime_second in Hf.
    unfold LocalTime, msPerMinute in Hf.
    Z.div_mod_to_equations. lia. }
  assert (1000 <= YearFromTime (LocalTime (LocalTZA h) s) <= 9999) as Y1.
  { pose proof (YearFromTime_bounds (LocalTime (LocalTZA h) s)) as Y.
    unfold msPerDay in *. lia. }
  assert (1000 <= YearFromTime (LocalTime (LocalTZA h)
                                  (s + n * msPerMinute)) <= 9999) as Y2.
  { pose proof (YearFromTime_bounds
                  (LocalTime (LocalTZA h) (s + n * msPerMinute))) as Y.
    rewrite Hloc in *. unfold msPerDay, msPerMinute in *. lia. }
  revert Hne.
  rewrite !formatLocalDateTime_fields, (year_four _ Y1), (year_four _ Y2).
  rewrite Hhh, Hmi, Hsec. rewrite Hloc, time_add_minutes, Hsec.
  intros Hne.
  set (l1 := LocalTime (LocalTZA h) s) in *.
  set (l2 := l1 + n * msPerMinute) in *.
  exists (decimalK 4 (YearFromTime l1)
          ++ str "-" ++ decimalK 2 (MonthFromTime l1 + 1)
          ++ str "-" ++ decimalK 2 (DateFromTime l1)),
         (decimalK 4 (YearFromTime l2)
          ++ str "-" ++ decimalK 2 (MonthFromTime l2 + 1)
          ++ str "-" ++ decimalK 2 (DateFromTime l2)),
         (decimalK 2 (HourFromTime l2) ++ str ":" ++ decimalK 2 (MinFromTime l2)).
  split; [rewrite <- !app_assoc; reflexivity|].
  split; [rewrite <- !app_assoc; reflexivity|].
  split; [rewrite !length_app, !decimalK_length; reflexivity|].
  split; [rewrite !length_app, !decimalK_length; reflexivity|].
  split; [rewrite !length_app, !decimalK_length; reflexivity|].
  exact Hne.
Qed.

(** With a default of half a minute and no duration token the two
    strings are the same. *)
Lemma quickAdd_timestamps_half_minute :
  exists p,
    parseQuickText host2026 (str "Coiffeur morgen 13:00")
      (JSNumber.fraction 1 1) = Ok p
    /\ formatLocalDateTime (LocalTZA host2026) (start p)
       = str "2026-01-02T13:00:00"
    /\ formatLocalDateTime (LocalTZA host2026) (end_ p)
       = str "2026-01-02T13:00:00".
Proof. eexists. repeat split; vm_compute; reflexivity. Qed.

Lemma quickAdd_timestamps_witness :
  exists p,
    parseQuickText host2026 (str "Coiffeur morgen 13:00 60min") 60 = Ok p
    /\ formatLocalDateTime (LocalTZA host2026) (start p)
       <> formatLocalDateTime (LocalTZA host2026) (end_ p).
Proof.
  assert (exists p, parseQuickText host2026
                      (str "Coiffeur morgen 13:00 60min") 60 = Ok p)
    as (p & Hp) by (eexists; vm_compute; reflexivity).
  destruct (quickAdd_timestamps host2026 (str "Coiffeur morgen 13:00 60min")
              60 p 60 Hp) as (d1 & d2 & t2 & _ & _ & _ & _ & _ & Hne).
  - split; apply Z.leb_le; reflexivity.
  - split; apply Z.leb_le; reflexivity.
  - apply parseQuickText_Ok in Hp as (_ & _ & -> & _). vm_compute. reflexivity.
  - lia.
  - right. left. vm_compute. reflexivity.
  - exists p. auto.
Defined.

(** ** The title *)

Lemma matchHere_spaces1_none (prev : option Z) (s : jsstring) :
  match s with c :: _ => isSpace c = false | [] => True end ->
  matchHere spaces1 prev s = None.
Proof.
  unfold matchHere, spaces1. cbn [rmatch].
  destruct s as [|c s]; [reflexivity|]. intros Hc. cbn [rep].
  rewrite Hc. reflexivity.
Qed.

Lemma matchHere_spaces1_some (prev : option Z) (ws K : jsstring) :
  ws <> [] ->
  Forall (fun c => isSpace c = true) ws ->
  match K with c :: _ => isSpace c = false | [] => True end ->
  matchHere spaces1 prev (ws ++ K) = Some (lastOr prev ws, K, []).
Proof.
  intros Hne Hws HK. unfold matchHere, spaces1. cbn [rmatch].
  apply rep_greedy; [assumption|assumption| |reflexivity].
  destruct ws; [congruence|cbn [length]; lia].
Qed.

(** The white space at the start of a text, and the rest. *)
Lemma span_spaces (s : jsstring) :
  exists ws K,
    s = ws ++ K
    /\ Forall (fun c => isSpace c = true) ws
    /\ match K with c :: _ => isSpace c = false | [] => True end.
Proof.
  induction s as [|c s (ws & K & -> & Hws & HK)].
  - exists [], []. repeat split. constructor.
  - destruct (isSpace c) eqn:Hc.
    + exists (c :: ws), K. repeat split; [constructor|]; assumption.
    + exists [], (c :: ws ++ K). repeat split; [constructor|assumption].
Qed.

Lemma replaceFrom_skip (r : regex) (by_ ws K : jsstring) (prev : option Z) :
  replaceFrom r by_ prev (ws ++ K) (length ws)
  = replaceFrom r by_ (lastOr prev ws) K 0.
Proof.
  revert prev. induction ws as [|w ws IH]; intros prev.
  - reflexivity.
  - cbn [app length replaceFrom]. rewrite IH, (lastOr_cons prev). reflexivity.
Qed.

Lemma collapseFrom_spaces (ws K : jsstring) :
  Forall (fun c => isSpace c = true) ws ->
  match K with c :: _ => isSpace c = false | [] => True end ->
  collapseFrom true (ws ++ K) = collapseFrom false K.
Proof.
  intros Hws HK. induction Hws as [|w ws Hw _ IH].
  - destruct K as [|c K]; [reflexivity|]. cbn [app collapseFrom].
    rewrite HK. reflexivity.
  - cbn [app collapseFrom]. rewrite Hw. exact IH.
Qed.

(** [replace(/\s+/g, " ")] makes every run of white space one space. *)
Lemma replaceAll_spaces1 (s : jsstring) :
  replaceAll spaces1 (str " ") s = collapseFrom false s.
Proof.
  unfold replaceAll. generalize (@None Z) as prev.
  remember (length s) as n eqn:Hn.
  assert (length s <= n)%nat as Hle by lia. clear Hn.
  revert s Hle. induction n as [|n IH]; intros s Hle prev.
  - destruct s; [|cbn in Hle; lia]. reflexivity.
  - destruct s as [|c s]; [reflexivity|]. cbn [length] in Hle.
    destruct (isSpace c) eqn:Hc.
    + destruct (span_spaces s) as (ws & K & -> & Hws & HK).
      cbn [replaceFrom].
      change (c :: ws ++ K) with ((c :: ws) ++ K).
      rewrite matchHere_spaces1_some;
        [|discriminate|constructor; assumption|assumption].
      replace (length ((c :: ws) ++ K) - length K)%nat with (S (length ws))
        by (rewrite length_app; cbn [length]; lia).
      cbn [app]. rewrite replaceFrom_skip, IH
        by (rewrite length_app in Hle; lia).
      cbn [collapseFrom]. rewrite Hc, collapseFrom_spaces by assumption.
      reflexivity.
    + cbn [replaceFrom].
      rewrite (matchHere_spaces1_none prev (c :: s) Hc).
      cbn [collapseFrom]. rewrite Hc, IH by lia. reflexivity.
Qed.

Lemma joinWords_cons (c : Z) (w : jsstring) (words : list jsstring) :
  c :: joinWords (w :: words) = joinWords ((c :: w) :: words).
Proof. destruct words; reflexivity. Qed.

(** A text that ends in a word, with every run of white space made one
    space, is its words joined by single spaces, after one space when it
    starts with white space. *)
Lemma collapseFrom_words (s : jsstring) :
  lastNonSpace s = true ->
  exists w words,
    Forall (fun w => w <> [] /\ Forall (fun c => isSpace c = false) w)
      (w :: words)
    /\ collapseFrom true s = joinWords (w :: words)
    /\ collapseFrom false s
       = match s with
         | c :: _ =>
             if isSpace c then 32 :: joinWords (w :: words)
             else joinWords (w :: words)
         | [] => []
         end.
Proof.
  induction s as [|c s IH]; [discriminate|].
  destruct s as [|c' s].
  - cbn [lastNonSpace]. intros Hc%negb_true_iff.
    exists [c], []. cbn [collapseFrom joinWords]. rewrite Hc.
    repeat split. repeat constructor; [discriminate|assumption].
  - intros Hl. change (lastNonSpace (c' :: s) = true) in Hl.
    destruct (IH Hl) as (w & words & Hok & Ht & Hf).
    destruct (isSpace c) eqn:Hc.
    + exists w, words. split; [exact Hok|].
      cbn [collapseFrom] in *. rewrite Hc. rewrite Ht. auto.
    + cbn [collapseFrom] in Ht, Hf |- *. rewrite Hc.
      destruct (isSpace c') eqn:Hc'.
      * exists [c], (w :: words). rewrite Hf.
        split; [|split; reflexivity].
        constructor; [|exact Hok].
        split; [discriminate|repeat constructor; assumption].
      * exists (c :: w), words. rewrite Hf, joinWords_cons.
        split; [|split; reflexivity].
        inversion Hok as [|? ? [Hw1 Hw2] Hrest]; subst.
        constructor; [|exact Hrest].
        split; [discriminate|constructor; assumption].
Qed.

Lemma trimStart_head (s : jsstring) :
  match trimStart s with c :: _ => isSpace c = false | [] => True end.
Proof.
  induction s as [|c s IH]; [exact I|]. cbn [trimStart].
  destruct (isSpace c) eqn:Hc; [exact IH|exact Hc].
Qed.

Lemma trimStart_suffix (s : jsstring) : exists pre, s = pre ++ trimStart s.
Proof.
  induction s as [|c s [pre IH]]; [exists []; reflexivity|].
  cbn [trimStart]. destruct (isSpace c).
  - exists (c :: pre). cbn [app]. rewrite <- IH. reflexivity.
  - exists []. reflexivity.
Qed.

Lemma lastNonSpace_snoc (init : jsstring) (c : Z) :
  lastNonSpace (init ++ [c]) = negb (isSpace c).
Proof.
  induction init as [|x init IH]; [reflexivity|].
  cbn [app]. destruct (init ++ [c]) eqn:E.
  - destruct init; discriminate.
  - rewrite <- IH. reflexivity.
Qed.

(** A trimmed text is empty, or starts and ends with a code unit that is
    not white space. *)
Lemma trim_ends (s : jsstring) :
  trim s = []
  \/ lastNonSpace (trim s) = true
     /\ exists c rest, trim s = c :: rest /\ isSpace c = false.
Proof.
  unfold trim, trimEnd.
  pose proof (trimStart_head (rev (trimStart s))) as Hz.
  destruct (trimStart_suffix (rev (trimStart s))) as [pre Hpre].
  destruct (trimStart (rev (trimStart s))) as [|z zs]; [left; reflexivity|].
  right. cbn [rev]. split.
  - rewrite lastNonSpace_snoc, Hz. reflexivity.
  - apply (f_equal (@rev Z)) in Hpre. rewrite rev_involutive in Hpre.
    rewrite rev_app_distr in Hpre. cbn [rev] in Hpre.
    pose proof (trimStart_head s) as Hy. rewrite Hpre in Hy.
    destruct (rev zs ++ [z]) as [|c rest] eqn:E.
    + destruct (rev zs); discriminate.
    + exists c, rest. split; [reflexivity|exact Hy].
Qed.

(** The title is made of words with one space between them. *)
Lemma titleOf_words (raw : jsstring) :
  exists w words,
    titleOf raw = joinWords (w :: words)
    /\ Forall (fun w => w <> [] /\ Forall (fun c => isSpace c = false) w)
         (w :: words).
Proof.
  unfold titleOf. rewrite replaceAll_spaces1.
  match goal with |- context [collapseFrom false (trim ?x)] =>
    destruct (trim_ends x) as [->|(Hl & c & rest & E & Hc)]
  end.
  - cbn [collapseFrom isEmpty]. exists (str "Termin"), [].
    split; [reflexivity|]. repeat constructor; discriminate.
  - destruct (collapseFrom_words _ Hl) as (w & words & Hok & _ & Hf).
    rewrite E in Hf |- *. rewrite Hc in Hf. rewrite Hf.
    exists w, words. split; [|exact Hok].
    inversion Hok as [|? ? [Hw _] _]; subst.
    destruct w as [|x w]; [congruence|].
    destruct words; reflexivity.
Qed.

(** X13.  The title of a proposal is one or more words joined by single
    spaces: it is not empty, has no white space at either end, and no
    white space inside other than one space between two words. *)
Theorem title_words (h : Host) (input : jsstring) (defaultMinutes : JSNumber.number)
    (p : Parsed) :
  parseQuickText h input defaultMinutes = Ok p ->
  exists w words,
    title p = joinWords (w :: words)
    /\ Forall (fun w => w <> [] /\ Forall (fun c => isSpace c = false) w)
         (w :: words).
Proof.
  intros Hp. apply parseQuickText_Ok in Hp as (_ & -> & _).
  apply titleOf_words.
Qed.

Lemma title_words_witness :
  exists p w words,
    parseQuickText host2026 (str "  Bio   lernen 16:30   90min ") 60 = Ok p
    /\ title p = joinWords (w :: words)
    /\ Forall (fun w => w <> [] /\ Forall (fun c => isSpace c = false) w)
         (w :: words).
Proof.
  assert (exists p, parseQuickText host2026
                      (str "  Bio   lernen 16:30   90min ") 60 = Ok p)
    as (p & Hp) by (eexists; vm_compute; reflexivity).
  destruct (title_words host2026 (str "  Bio   lernen 16:30   90min ") 60 p Hp)
    as (w & words & Ht & Hok).
  exists p, w, words. auto.
Defined.

(** ** Calendar events *)

Lemma orString_nonempty (a b : jsstring) : b <> [] -> orString a b <> [].
Proof. unfold orString. destruct a; cbn [isEmpty]; [auto|discriminate]. Qed.

Lemma getAuthedClient_Returned (env : Env) (file : TokensFile)
    (auth : AuthedClient) :
  getAuthedClient env file = Returned auth ->
  isGoogleConfigured env = true
  /\ toBoolean (loadTokens file) = true
  /\ auth = {| client := buildOAuthClient env;
               credentials := loadTokens file |}.
Proof.
  unfold getAuthedClient.
  destruct (isGoogleConfigured env); cbn [negb]; [|discriminate].
  destruct (toBoolean (loadTokens file)); cbn [negb]; [|discriminate].
  intros H. injection H as <-. auto.
Qed.

Lemma getAuthedClient_Thrown (env : Env) (file : TokensFile) :
  isGoogleConfigured env = false \/ toBoolean (loadTokens file) = false ->
  exists e, getAuthedClient env file = Thrown e /\ toBoolean e = true.
Proof.
  unfold getAuthedClient. intros H.
  destruct (isGoogleConfigured env); cbn [negb].
  - destruct H as [H|H]; [discriminate|]. rewrite H. cbn [negb].
    eexists. split; reflexivity.
  - eexists. split; reflexivity.
Qed.

Lemma orString_env (env : Env) (name d : jsstring) :
  orString (orDefault (env name) d) d
  = match env name with
    | Some (c :: v) => c :: v
    | _ => d
    end.
Proof.
  unfold orString, orDefault.
  destruct (env name) as [[|c v]|]; cbn [isEmpty]; [reflexivity|reflexivity|].
  destruct d; reflexivity.
Qed.

Lemma toString_or_empty (v : value) :
  toString (orValue (defaultTo v (VString [])) (VString []))
  = if toBoolean v then toString v else [].
Proof.
  unfold orValue. destruct v as [| |b|[n|]|s|image]; cbn; try reflexivity.
  - destruct b; reflexivity.
  - destruct (n =? 0); reflexivity.
  - destruct s; reflexivity.
Qed.

(** X14.  When [createGoogleEvent] reports an event, the library was
    asked to insert it by the client of the configuration, holding the
    stored tokens, with title, start and end given and written as
    strings, location and notes written as strings when given and empty
    otherwise, into the calendar GOOGLE_CALENDAR_ID, and with the time
    zone GOOGLE_TIMEZONE on start and end: primary and Europe/Zurich
    when the variable is not set or is set to the empty string, so that
    neither is ever empty. *)
Theorem createGoogleEvent_sent (api : Api) (env : Env) (file : TokensFile)
    (title start end_ location notes data : value) :
  createGoogleEvent api env file title start end_ location notes
  = Returned (Done data) ->
  exists auth cal event,
    api auth (Calendar.Insert cal event) = Returned data
    /\ toBoolean title = true /\ toBoolean start = true
    /\ toBoolean end_ = true
    /\ isGoogleConfigured env = true
    /\ auth = {| client := buildOAuthClient env;
                 credentials := loadTokens file |}
    /\ toBoolean (credentials auth) = true
    /\ cal = match env (str "GOOGLE_CALENDAR_ID") with
             | Some (c :: id) => c :: id
             | _ => str "primary"
             end
    /\ cal <> []
    /\ Calendar.timeZone (Calendar.start event)
       = match env (str "GOOGLE_TIMEZONE") with
         | Some (c :: zone) => c :: zone
         | _ => str "Europe/Zurich"
         end
    /\ Calendar.timeZone (Calendar.start event) <> []
    /\ Calendar.timeZone (Calendar.end_ event)
       = Calendar.timeZone (Calendar.start event)
    /\ Calendar.summary event = toString title
    /\ Calendar.location event
       = (if toBoolean location then toString location else [])
    /\ Calendar.description event
       = (if toBoolean notes then toString notes else [])
    /\ Calendar.dateTime (Calendar.start event) = toString start
    /\ Calendar.dateTime (Calendar.end_ event) = toString end_.
Proof.
  unfold createGoogleEvent.
  destruct (toBoolean title); cbn [negb orb]; [|discriminate].
  destruct (toBoolean start); cbn [negb orb]; [|discriminate].
  destruct (toBoolean end_); cbn [negb orb]; [|discriminate].
  destruct (getAuthedClient env file) as [auth|e] eqn:Ha; [|discriminate].
  apply getAuthedClient_Returned in Ha as (Hc & Ht & ->).
  match goal with
  | |- match api ?a ?c with _ => _ end = _ -> _ =>
      destruct (api a c) as [d|e] eqn:Hcall; [|discriminate]
  end.
  intros H. injection H as <-.
  do 3 eexists. split; [exact Hcall|].
  cbn [credentials Calendar.timeZone Calendar.start Calendar.end_
       Calendar.summary Calendar.dateTime Calendar.location
       Calendar.description].
  unfold getGoogleConfig. cbn [GOOGLE_CALENDAR_ID GOOGLE_TIMEZONE].
  rewrite !toString_or_empty.
  repeat split; try assumption;
    try (apply orString_nonempty; discriminate);
    apply orString_env.
Qed.

Lemma createGoogleEvent_sent_witness :
  exists auth cal event,
    apiAnswering (VObject (str "[object Object]")) auth
      (Calendar.Insert cal event)
    = Returned (VObject (str "[object Object]"))
    /\ cal = str "primary"
    /\ Calendar.timeZone (Calendar.start event) = str "Europe/Zurich"
    /\ Calendar.dateTime (Calendar.start event) = str "2026-01-16T13:00:00".
Proof.
  destruct (createGoogleEvent_sent
              (apiAnswering (VObject (str "[object Object]")))
              (envOf [(str "GOOGLE_CLIENT_ID", str "id");
                      (str "GOOGLE_CLIENT_SECRET", str "secret");
                      (str "GOOGLE_REDIRECT_URI", str "https://cal.example/cb");
                      (str "GOOGLE_TIMEZONE", [])])
              (Holding (VObject (str "[object Object]")))
              (VString (str "Coiffeur"))
              (VString (str "2026-01-16T13:00:00"))
              (VString (str "2026-01-16T14:00:00"))
              VUndefined VUndefined (VObject (str "[object Object]")))
    as (auth & cal & event & Hcall & _ & _ & _ & _ & _ & _ & Hcal & _ & Hzone
        & _ & _ & _ & _ & _ & Hs & _).
  - reflexivity.
  - exists auth, cal, event. auto.
Defined.

(** X15.  [deleteGoogleEvent] never throws: it reports success exactly
    when an event is named, a configured client holds tokens and the
    deletion of that event, by its name as a string, came back; every
    refusal carries a message. *)
Theorem deleteGoogleEvent_returns (api : Api) (env : Env)
    (file : TokensFile) (eventId : value) :
  exists r,
    deleteGoogleEvent api env file eventId = Returned r
    /\ (r = Done tt
        <-> toBoolean eventId = true
            /\ exists auth x,
                 getAuthedClient env file = Returned auth
                 /\ api auth
                      (Calendar.Delete
                         (orString (GOOGLE_CALENDAR_ID (getGoogleConfig env))
                            (str "primary"))
                         (toString eventId))
                    = Returned x)
    /\ (forall m, r = Refused m -> toBoolean m = true).
Proof.
  unfold deleteGoogleEvent.
  destruct (toBoolean eventId); cbn [negb].
  2:{ eexists. split; [reflexivity|]. split.
      - split; [discriminate|]. intros [H _]. discriminate.
      - intros m H. injection H as <-. reflexivity. }
  destruct (getAuthedClient env file) as [auth|e] eqn:Ha.
  - match goal with
    | |- context [api ?a ?c] => destruct (api a c) as [d|e] eqn:Hcall
    end.
    + eexists. split; [reflexivity|]. split.
      * split; [|reflexivity]. intros _. split; [reflexivity|]. eauto.
      * discriminate.
    + eexists. split; [reflexivity|]. split.
      * split; [discriminate|].
        intros (_ & auth' & x & Ha' & Hx). exfalso.
        injection Ha' as <-. rewrite Hcall in Hx. discriminate.
      * intros m H. injection H as <-. unfold orValue.
        destruct (toBoolean e) eqn:He; [exact He|reflexivity].
  - eexists. split; [reflexivity|]. split.
    + split; [discriminate|].
      intros (_ & auth' & x & Ha' & _). discriminate.
    + intros m H. injection H as <-. unfold orValue.
      destruct (toBoolean e) eqn:He; [exact He|reflexivity].
Qed.

(** X16.  Without a configuration or without tokens no function calls
    the library: what the three functions come to is the same whatever
    the library would answer. *)
Theorem no_call_without_tokens (api1 api2 : Api) (env : Env)
    (file : TokensFile) :
  isGoogleConfigured env = false \/ toBoolean (loadTokens file) = false ->
  (forall title start end_ location notes,
      createGoogleEvent api1 env file title start end_ location notes
      = createGoogleEvent api2 env file title start end_ location notes)
  /\ (forall timeMin timeMax,
        listGoogleEvents api1 env file timeMin timeMax
        = listGoogleEvents api2 env file timeMin timeMax)
  /\ (forall eventId,
        deleteGoogleEvent api1 env file eventId
        = deleteGoogleEvent api2 env file eventId).
Proof.
  intros H. destruct (getAuthedClient_Thrown env file H) as (e & He & _).
  unfold createGoogleEvent, listGoogleEvents, deleteGoogleEvent.
  rewrite He. repeat split; reflexivity.
Qed.

Lemma no_call_without_tokens_witness :
  createGoogleEvent (apiAnswering VNull) envConfigured NoFile
    (VString (str "Coiffeur")) (VString (str "2026-01-16T13:00:00"))
    (VString (str "2026-01-16T14:00:00")) VUndefined VUndefined
  = createGoogleEvent (apiFailing VNull) envConfigured NoFile
      (VString (str "Coiffeur")) (VString (str "2026-01-16T13:00:00"))
      (VString (str "2026-01-16T14:00:00")) VUndefined VUndefined.
Proof.
  apply (no_call_without_tokens (apiAnswering VNull) (apiFailing VNull)
           envConfigured NoFile).
  right. reflexivity.
Defined.

Lemma joinWords_nonempty (w : jsstring) (words : list jsstring) :
  w <> [] -> joinWords (w :: words) <> [].
Proof.
  intros Hw. destruct w as [|c w]; [congruence|].
  destruct words; discriminate.
Qed.

Lemma formatLocalDateTime_nonempty (tza : Z) (d : Date) :
  formatLocalDateTime tza d <> [].
Proof.
  destruct d as [t|].
  - rewrite formatLocalDateTime_fields.
    destruct (numberToString_head (YearFromTime (LocalTime tza t)))
      as (c & rest & -> & _).
    discriminate.
  - discriminate.
Qed.

(** X17.  After the parser has made a proposal, the quick-add route is
    never refused by [createGoogleEvent] for a missing title, start or
    end, also when the dates of the proposal are invalid; and when an
    event is reported, the library was asked to insert the title and
    the two timestamps of the proposal as they are. *)
Theorem quickAddEvent_sent (api : Api) (env : Env) (file : TokensFile)
    (h : Host) (input : jsstring) (defaultMinutes : JSNumber.number) (p : Parsed)
    (location notes : value) :
  parseQuickText h input defaultMinutes = Ok p ->
  (forall m,
      quickAddEvent api env file (LocalTZA h) p location notes
      <> Returned (Refused m))
  /\ (forall data,
        quickAddEvent api env file (LocalTZA h) p location notes
        = Returned (Done data) ->
        exists auth cal event,
          api auth (Calendar.Insert cal event) = Returned data
          /\ Calendar.summary event = title p
          /\ Calendar.dateTime (Calendar.start event)
             = formatLocalDateTime (LocalTZA h) (start p)
          /\ Calendar.dateTime (Calendar.end_ event)
             = formatLocalDateTime (LocalTZA h) (end_ p)).
Proof.
  intros Hp.
  assert (title p <> []) as Ht.
  { apply parseQuickText_Ok in Hp as (_ & -> & _).
    destruct (titleOf_words (trim input)) as (w & words & -> & Hok).
    apply joinWords_nonempty. inversion Hok as [|? ? [Hw _] _]. exact Hw. }
  pose proof (formatLocalDateTime_nonempty (LocalTZA h) (start p)) as Hs.
  pose proof (formatLocalDateTime_nonempty (LocalTZA h) (end_ p)) as He.
  unfold quickAddEvent, createGoogleEvent.
  destruct (title p) as [|c1 t]; [congruence|].
  destruct (formatLocalDateTime (LocalTZA h) (start p)) as [|c2 s];
    [congruence|].
  destruct (formatLocalDateTime (LocalTZA h) (end_ p)) as [|c3 e];
    [congruence|].
  cbn [toBoolean isEmpty negb orb toString].
  destruct (getAuthedClient env file) as [auth|err];
    [|split; [discriminate|discriminate]].
  match goal with
  | |- context [api ?a ?c] => destruct (api a c) as [d|err] eqn:Hcall
  end.
  - split; [discriminate|]. intros data H. injection H as <-.
    do 3 eexists. split; [exact Hcall|]. repeat split.
  - split; discriminate.
Qed.

Lemma quickAddEvent_sent_witness :
  exists p,
    parseQuickText host2026 (str "arzt 24.01 09:15 30min") 60 = Ok p
    /\ quickAddEvent (apiAnswering VNull) envConfigured NoFile
         (LocalTZA host2026) p VUndefined VUndefined
       <> Returned (Refused (VString (str "title/start/end required"))).
Proof.
  assert (exists p, parseQuickText host2026
                      (str "arzt 24.01 09:15 30min") 60 = Ok p)
    as (p & Hp) by (eexists; vm_compute; reflexivity).
  exists p. split; [exact Hp|].
  apply (quickAddEvent_sent (apiAnswering VNull) envConfigured NoFile
           host2026 (str "arzt 24.01 09:15 30min") 60 p
           VUndefined VUndefined Hp).
Defined.

(** ** White space around the text *)

Lemma trimStart_spaces_app (ws x : jsstring) :
  Forall (fun c => isSpace c = true) ws -> trimStart (ws ++ x) = trimStart x.
Proof.
  induction 1 as [|w ws Hw _ IH]; [reflexivity|].
  cbn [app trimStart]. rewrite Hw. exact IH.
Qed.

Lemma trimStart_app (x y : jsstring) :
  trimStart (x ++ y)
  = match trimStart x with [] => trimStart y | _ :: _ => trimStart x ++ y end.
Proof.
  induction x as [|c x IH]; [reflexivity|].
  cbn [app trimStart]. destruct (isSpace c); [exact IH|reflexivity].
Qed.

Lemma trimEnd_app_spaces (y ws : jsstring) :
  Forall (fun c => isSpace c = true) ws -> trimEnd (y ++ ws) = trimEnd y.
Proof.
  intros Hws. unfold trimEnd. rewrite rev_app_distr.
  rewrite trimStart_spaces_app by (apply Forall_rev; exact Hws).
  reflexivity.
Qed.

Lemma trim_spaces (ws1 x ws2 : jsstring) :
  Forall (fun c => isSpace c = true) ws1 ->
  Forall (fun c => isSpace c = true) ws2 ->
  trim (ws1 ++ x ++ ws2) = trim x.
Proof.
  intros H1 H2. unfold trim.
  rewrite trimStart_spaces_app by exact H1. rewrite trimStart_app.
  destruct (trimStart x) as [|c y] eqn:E.
  - rewrite <- (app_nil_r ws2), trimStart_spaces_app by exact H2.
    reflexivity.
  - apply trimEnd_app_spaces. exact H2.
Qed.

(** X18.  White space before and after the text changes nothing of what
    the parser returns. *)
Theorem parseQuickText_trims (h : Host) (ws1 input ws2 : jsstring)
    (defaultMinutes : JSNumber.number) :
  Forall (fun c => isSpace c = true) ws1 ->
  Forall (fun c => isSpace c = true) ws2 ->
  parseQuickText h (ws1 ++ input ++ ws2) defaultMinutes
  = parseQuickText h input defaultMinutes.
Proof.
  intros H1 H2. unfold parseQuickText.
  rewrite trim_spaces by assumption. reflexivity.
Qed.

Lemma parseQuickText_trims_witness :
  parseQuickText host2026
    (str "  " ++ str "Zahnarzt 10:30 45min" ++ [32; 10]) 60
  = parseQuickText host2026 (str "Zahnarzt 10:30 45min") 60.
Proof.
  apply (parseQuickText_trims host2026 (str "  ")
           (str "Zahnarzt 10:30 45min") [32; 10] 60).
  - repeat constructor.
  - repeat constructor.
Defined.
